(** * Kubernetes Machine Gun: the load generator of [machine_gun.py]

    A shallow embedding of class [MachineGun]: its statistics dictionary,
    [make_request], the five attack coroutines and [print_stats], followed by
    the properties of the specification that concern them.

    Modelling choices, all visible in the definitions below:
    - Python [int] is [Z]; Python [float] (times, latencies, rates) is the
      exact rational type [Q], so rounding is not modelled;
    - the statistics dictionary has a fixed set of keys and is a record;
    - [print] appends a structured line to [stdout]; number formatting
      ([:.3f], [:.1f]) is not modelled, a line carries the number itself;
    - the wall clock, the random generator and the network are part of the
      state ([World]); the clock moves only at an [await];
    - a coroutine runs in a state-and-exception monad [M]; loops take fuel,
      and running out of it is an outcome of its own ([OutOfFuel]) that no
      [except] clause catches. *)

From Stdlib Require Import List ZArith QArith Qminmax Qround String Lia Lqa Bool.
From Stdlib Require Import Permutation.
Import ListNotations.

Local Open Scope Z_scope.
Local Open Scope Q_scope.
Local Open Scope string_scope.
Local Open Scope list_scope.

(** ** Python values *)

(** The transport-level failures [aiohttp] reports; all are subclasses of
    [Exception]. *)
Inductive transport :=
| ConnectionRefused
| TimedOut
| DnsFailure
| ProtocolError.

(** Exceptions ([Exception] subclasses) that the modelled code can raise.
    Cancellation and keyboard interrupts, which derive from [BaseException]
    and are no transport failures, are outside the model. *)
Inductive exn :=
| ZeroDivisionError
| ValueError
| AttributeError
| ClientError (k : transport) (msg : string).

(** [str(e)] *)
Definition str (e : exn) : string :=
  match e with
  | ZeroDivisionError => "float division by zero"
  | ValueError => "empty range for randrange()"
  | AttributeError => "'NoneType' object has no attribute 'request'"
  | ClientError _ msg => msg
  end.

(** [a < b] on floats *)
Definition Qltb (a b : Q) : bool := negb (Qle_bool b a).

(** [int(x)] on a float: truncation towards zero *)
Definition int_of_float (x : Q) : Z := Z.quot (Qnum x) (Z.pos (Qden x)).

(** [len(l)] *)
Definition len {A} (l : list A) : Z := Z.of_nat (List.length l).

(** The JSON bodies the attacks send. [JTask prefix t] stands for the
    f-string [f"{prefix}{t}"]. *)
Inductive jval :=
| JStr (s : string)
| JInt (n : Z)
| JTask (prefix : string) (t : Z).

Definition kwargs := option (list (string * jval)).

(** ** The statistics dictionary *)

(** An entry of [stats["errors"]]: a dict with keys [status] or [error],
    [endpoint] and [timestamp]; an absent key is [None]. *)
Record error_entry := {
  e_status : option Z;
  e_error : option string;
  e_endpoint : string;
  e_timestamp : Q
}.

Record Stats := {
  total_requests : Z;
  successful_requests : Z;
  failed_requests : Z;
  response_times : list Q;
  errors : list error_entry
}.

(** The dict [make_request] returns: keys [status], [response_time],
    [content] on a response; [error], [response_time] on a failure. *)
Record Result := {
  r_status : option Z;
  r_response_time : Q;
  r_content : option string;
  r_error : option string
}.

(** ** The network *)

(** How reading the body of a response goes: [dt] is the time the read
    takes. *)
Inductive body :=
| BodyOk (content : string) (dt : Q)
| BodyFails (k : transport) (msg : string) (dt : Q).

(** How the target answers one request: either the request fails after
    [dt], or a response (status line and headers) arrives after [dt] and its
    body is read afterwards. *)
Inductive net_result :=
| RequestFails (k : transport) (msg : string) (dt : Q)
| Response (status : Z) (dt : Q) (b : body).

Definition body_time (b : body) : Q :=
  match b with
  | BodyOk _ dt => dt
  | BodyFails _ _ dt => dt
  end.

(** Time from the start of a request to the moment [make_request] returns. *)
Definition net_time (r : net_result) : Q :=
  match r with
  | RequestFails _ _ dt => dt
  | Response _ dt b => dt + body_time b
  end.

(** A transport-level failure: the request or the body read fails. *)
Definition transport_failure (r : net_result) : bool :=
  match r with
  | RequestFails _ _ _ => true
  | Response _ _ (BodyFails _ _ _) => true
  | Response _ _ (BodyOk _ _) => false
  end.

(** A coroutine object [self.make_request(endpoint, method, **kwargs)], not
    yet started, with the answer the network will give it. *)
Record Coro := {
  co_endpoint : string;
  co_method : string;
  co_kwargs : kwargs;
  co_net : net_result
}.

(** ** Standard output *)

Inductive line :=
| LDdosStart (rps duration : Z)
| LBurstStart (burst_size interval duration : Z)
| LFiring (burst_size : Z)
| LSustainedStart (rps duration : Z)
| LRandomStart (max_rps duration : Z)
| LDatabaseStart (duration : Z)
| LNoRequestsCompleted
| LRule (blank_line_before : bool)
| LTitle
| LTotal (n : Z)
| LSuccessful (n : Z) (success_rate : Q)
| LFailed (n : Z)
| LAverage (t : Q)
| LMin (t : Q)
| LMax (t : Q)
| LPercentile95 (t : Q)
| LRecentErrors (n : Z)
| LError (e : error_entry).

(** ** The state *)

Inductive Session := ClientSession.

Record World := {
  now : Q;                          (* what [time.time()] returns *)
  base_url : string;                (* [self.base_url] *)
  session : option Session;         (* [self.session] *)
  stats : Stats;                    (* [self.stats] *)
  issued : Z;                       (* [make_request] calls made so far *)
  inflight : list (Q * Coro);       (* tasks of [asyncio.create_task] still
                                       running, with their start times *)
  stdout : list line;
  rand : nat -> nat;                (* the stream of random draws *)
  rand_pos : nat;
  fake_text : nat -> string;        (* [fake.text()] *)
  network : Z -> net_result         (* the answer to the k-th request *)
}.

Definition set_now (t : Q) (w : World) : World :=
  {| now := t; base_url := base_url w; session := session w;
     stats := stats w; issued := issued w; inflight := inflight w;
     stdout := stdout w; rand := rand w; rand_pos := rand_pos w;
     fake_text := fake_text w; network := network w |}.

Definition set_session (s : option Session) (w : World) : World :=
  {| now := now w; base_url := base_url w; session := s;
     stats := stats w; issued := issued w; inflight := inflight w;
     stdout := stdout w; rand := rand w; rand_pos := rand_pos w;
     fake_text := fake_text w; network := network w |}.

Definition set_stats (s : Stats) (w : World) : World :=
  {| now := now w; base_url := base_url w; session := session w;
     stats := s; issued := issued w; inflight := inflight w;
     stdout := stdout w; rand := rand w; rand_pos := rand_pos w;
     fake_text := fake_text w; network := network w |}.

Definition set_issued (n : Z) (w : World) : World :=
  {| now := now w; base_url := base_url w; session := session w;
     stats := stats w; issued := n; inflight := inflight w;
     stdout := stdout w; rand := rand w; rand_pos := rand_pos w;
     fake_text := fake_text w; network := network w |}.

Definition set_inflight (l : list (Q * Coro)) (w : World) : World :=
  {| now := now w; base_url := base_url w; session := session w;
     stats := stats w; issued := issued w; inflight := l;
     stdout := stdout w; rand := rand w; rand_pos := rand_pos w;
     fake_text := fake_text w; network := network w |}.

Definition set_stdout (l : list line) (w : World) : World :=
  {| now := now w; base_url := base_url w; session := session w;
     stats := stats w; issued := issued w; inflight := inflight w;
     stdout := l; rand := rand w; rand_pos := rand_pos w;
     fake_text := fake_text w; network := network w |}.

Definition set_rand_pos (n : nat) (w : World) : World :=
  {| now := now w; base_url := base_url w; session := session w;
     stats := stats w; issued := issued w; inflight := inflight w;
     stdout := stdout w; rand := rand w; rand_pos := n;
     fake_text := fake_text w; network := network w |}.

(** ** The monad of coroutines *)

Inductive outcome (A : Type) :=
| Return (a : A)
| Raise (e : exn)
| OutOfFuel.

Arguments Return {A} a.
Arguments Raise {A} e.
Arguments OutOfFuel {A}.

Definition M (A : Type) : Type := World -> outcome A * World.

Definition ret {A} (a : A) : M A := fun w => (Return a, w).

Definition bind {A B} (c : M A) (k : A -> M B) : M B :=
  fun w =>
    match c w with
    | (Return a, w1) => k a w1
    | (Raise e, w1) => (Raise e, w1)
    | (OutOfFuel, w1) => (OutOfFuel, w1)
    end.

Definition raise {A} (e : exn) : M A := fun w => (Raise e, w).

Definition out_of_fuel {A} : M A := fun w => (OutOfFuel, w).

(** [try: c  except Exception as e: h e] *)
Definition try_except {A} (c : M A) (h : exn -> M A) : M A :=
  fun w =>
    match c w with
    | (Raise e, w1) => h e w1
    | r => r
    end.

Definition gets {A} (f : World -> A) : M A := fun w => (Return (f w), w).

Definition modify (f : World -> World) : M unit := fun w => (Return tt, f w).

Declare Scope py_scope.
Delimit Scope py_scope with py.
Notation "x <- c ;; k" := (bind c (fun x => k))
  (at level 61, c at next level, right associativity) : py_scope.
Notation "c ;; k" := (bind c (fun _ => k))
  (at level 61, right associativity) : py_scope.
Local Open Scope py_scope.

(** [while cond: s = body s], with the loop's local variables in [s] *)
Fixpoint while {S} (fuel : nat) (cond : M bool) (body : S -> M S) (s : S)
  : M S :=
  match fuel with
  | O => out_of_fuel
  | Datatypes.S fuel' =>
      b <- cond ;;
      if b then s' <- body s ;; while fuel' cond body s' else ret s
  end.

(** [for _ in range(n): s = body s] *)
Fixpoint for_times {S} (n : nat) (body : S -> M S) (s : S) : M S :=
  match n with
  | O => ret s
  | Datatypes.S n' => s' <- body s ;; for_times n' body s'
  end.

(** [for x in l: body x] *)
Fixpoint for_each {A} (l : list A) (body : A -> M unit) : M unit :=
  match l with
  | [] => ret tt
  | x :: rest => body x ;; for_each rest body
  end.

Definition for_range {S} (n : Z) (body : S -> M S) (s : S) : M S :=
  for_times (Z.to_nat n) body s.

(** ** Primitive effects *)

(** [time.time()] *)
Definition time_time : M Q := gets now.

(** [print(...)] *)
Definition print (l : line) : M unit :=
  modify (fun w => set_stdout (stdout w ++ [l]) w).

(** [a / b] on floats *)
Definition truediv (a b : Q) : M Q :=
  if Qeq_bool b 0 then raise ZeroDivisionError else ret (a / b).

(** The next draw of the random generator. *)
Definition draw : M nat :=
  fun w => (Return (rand w (rand_pos w)), set_rand_pos (Datatypes.S (rand_pos w)) w).

(** [random.choice(x :: l)] *)
Definition random_choice {A} (x : A) (l : list A) : M A :=
  r <- draw ;; ret (nth (r mod List.length (x :: l)) (x :: l) x).

(** [random.randint(0, b)] *)
Definition random_randint0 (b : Z) : M Z :=
  if (b <? 0)%Z then raise ValueError
  else r <- draw ;; ret (Z.of_nat r mod (b + 1))%Z.

(** [random.uniform(a, b)], on a grid of a thousandth of the range *)
Definition random_uniform (a b : Q) : M Q :=
  r <- draw ;; ret (a + (b - a) * (Z.of_nat (r mod 1001) # 1000)).

(** The clock moves by [dt] while a coroutine waits for the network. *)
Definition wait (dt : Q) : M unit := modify (fun w => set_now (now w + dt) w).

(** [self.session.request(method, url, **kwargs)] entered with
    [async with]: the response's status, and how its body will read. *)
Definition session_request (method url : string) (kw : kwargs)
  (r : net_result) : M (Z * body) :=
  s <- gets session ;;
  match s with
  | None => raise AttributeError
  | Some ClientSession =>
      match r with
      | RequestFails k msg dt => wait dt ;; raise (ClientError k msg)
      | Response status dt b => wait dt ;; ret (status, b)
      end
  end.

(** [await response.text()] *)
Definition response_text (b : body) : M string :=
  match b with
  | BodyOk content dt => wait dt ;; ret content
  | BodyFails k msg dt => wait dt ;; raise (ClientError k msg)
  end.

(** ** [MachineGun.__init__], [__aenter__] *)

Definition init_stats : Stats :=
  {| total_requests := 0; successful_requests := 0; failed_requests := 0;
     response_times := []; errors := [] |}.

(** A fresh gun in a given environment (clock, random draws, network). *)
Definition MachineGun_init (url : string) (t : Q) (rnd : nat -> nat)
  (txt : nat -> string) (net : Z -> net_result) : World :=
  {| now := t; base_url := url; session := None; stats := init_stats;
     issued := 0; inflight := []; stdout := []; rand := rnd; rand_pos := O;
     fake_text := txt; network := net |}.

Definition aenter (w : World) : World := set_session (Some ClientSession) w.

(** ** [MachineGun.make_request] *)

Definition incr_total : M unit :=
  modify (fun w =>
    let s := stats w in
    set_stats {| total_requests := total_requests s + 1;
                 successful_requests := successful_requests s;
                 failed_requests := failed_requests s;
                 response_times := response_times s;
                 errors := errors s |} w).

Definition incr_successful : M unit :=
  modify (fun w =>
    let s := stats w in
    set_stats {| total_requests := total_requests s;
                 successful_requests := successful_requests s + 1;
                 failed_requests := failed_requests s;
                 response_times := response_times s;
                 errors := errors s |} w).

Definition incr_failed : M unit :=
  modify (fun w =>
    let s := stats w in
    set_stats {| total_requests := total_requests s;
                 successful_requests := successful_requests s;
                 failed_requests := failed_requests s + 1;
                 response_times := response_times s;
                 errors := errors s |} w).

Definition append_error (e : error_entry) : M unit :=
  modify (fun w =>
    let s := stats w in
    set_stats {| total_requests := total_requests s;
                 successful_requests := successful_requests s;
                 failed_requests := failed_requests s;
                 response_times := response_times s;
                 errors := errors s ++ [e] |} w).

Definition append_response_time (t : Q) : M unit :=
  modify (fun w =>
    let s := stats w in
    set_stats {| total_requests := total_requests s;
                 successful_requests := successful_requests s;
                 failed_requests := failed_requests s;
                 response_times := response_times s ++ [t];
                 errors := errors s |} w).

Definition make_request (endpoint method : string) (kw : kwargs)
  (r : net_result) : M Result :=
  base <- gets base_url ;;
  let url := (base ++ endpoint)%string in
  start_time <- time_time ;;
  try_except
    (response <- session_request method url kw r ;;
     let '(status, b) := response in
     t <- time_time ;;
     let response_time := t - start_time in
     content <- response_text b ;;
     incr_total ;;
     (if (status <? 400)%Z then incr_successful
      else
        incr_failed ;;
        ts <- time_time ;;
        append_error {| e_status := Some status; e_error := None;
                        e_endpoint := endpoint; e_timestamp := ts |}) ;;
     append_response_time response_time ;;
     ret {| r_status := Some status; r_response_time := response_time;
            r_content := Some content; r_error := None |})
    (fun e =>
       t <- time_time ;;
       let response_time := t - start_time in
       incr_total ;;
       incr_failed ;;
       ts <- time_time ;;
       append_error {| e_status := None; e_error := Some (str e);
                       e_endpoint := endpoint; e_timestamp := ts |} ;;
       ret {| r_status := None; r_response_time := response_time;
              r_content := None; r_error := Some (str e) |}).

(** ** The event loop *)

Definition run_coro (c : Coro) : M Result :=
  make_request (co_endpoint c) (co_method c) (co_kwargs c) (co_net c).

(** [self.make_request(endpoint, method, **kwargs)] without [await]: a
    coroutine object is made and nothing runs yet. The network's answer to
    it is fixed here, by its rank among the requests made. *)
Definition call_make_request (endpoint method : string) (kw : kwargs)
  : M Coro :=
  fun w =>
    (Return {| co_endpoint := endpoint; co_method := method;
               co_kwargs := kw; co_net := network w (issued w) |},
     set_issued (issued w + 1)%Z w).

(** The coroutine [c], started at time [s], runs to its end: its effects on
    the gun are kept, the driver's clock is left where it was. *)
Definition finish (s : Q) (c : Coro) (w : World) : outcome Result * World :=
  let '(o, w1) := run_coro c (set_now s w) in (o, set_now (now w) w1).

(** The tasks in flight whose end is not later than the clock finish, in
    the order they were created; the others stay in flight. *)
Fixpoint settle_list (l : list (Q * Coro)) (w : World)
  : list (Q * Coro) * World :=
  match l with
  | [] => ([], w)
  | (s, c) :: rest =>
      if Qle_bool (s + net_time (co_net c)) (now w)
      then settle_list rest (snd (finish s c w))
      else let '(keep, w') := settle_list rest w in ((s, c) :: keep, w')
  end.

Definition settle (w : World) : World :=
  let '(keep, w') := settle_list (inflight w) w in set_inflight keep w'.

(** [await asyncio.sleep(d)]: the clock moves by [d] (not at all when [d] is
    negative) and the tasks due by then finish. *)
Definition sleep (d : Q) : M unit :=
  modify (fun w => settle (set_now (now w + Qmax 0 d) w)).

(** [asyncio.create_task(c)]: the task starts now and is not waited for. *)
Definition create_task (c : Coro) : M unit :=
  modify (fun w => set_inflight (inflight w ++ [(now w, c)]) w).

(** The coroutines of a [gather] all start at [s] and run to their ends;
    [latest] is the latest end seen. With [return_exceptions=True] an
    exception is a result like another. *)
Fixpoint gather_from (s : Q) (tasks : list Coro) (latest : Q) (w : World)
  : outcome (list (exn + Result)) * Q * World :=
  match tasks with
  | [] => (Return [], latest, w)
  | c :: rest =>
      let '(o, w1) := run_coro c (set_now s w) in
      let latest1 := Qmax latest (now w1) in
      match o with
      | OutOfFuel => (OutOfFuel, latest1, w1)
      | Return r =>
          let '(os, l2, w2) := gather_from s rest latest1 w1 in
          (match os with
           | Return rs => Return (inr r :: rs)
           | Raise e => Raise e
           | OutOfFuel => OutOfFuel
           end, l2, w2)
      | Raise e =>
          let '(os, l2, w2) := gather_from s rest latest1 w1 in
          (match os with
           | Return rs => Return (inl e :: rs)
           | Raise e' => Raise e'
           | OutOfFuel => OutOfFuel
           end, l2, w2)
      end
  end.

(** [await asyncio.gather] of the tasks, with [return_exceptions=True] *)
Definition gather (tasks : list Coro) : M (list (exn + Result)) :=
  fun w =>
    let '(o, latest, w1) := gather_from (now w) tasks (now w) w in
    (o, settle (set_now latest w1)).

(** [fake.text()] *)
Definition fake_text_call : M string :=
  r <- draw ;; f <- gets fake_text ;; ret (f r).

(** ** [numpy] on a list of floats, in exact arithmetic *)

Definition Qsum (l : list Q) : Q := fold_right Qplus 0 l.

(** [np.mean]; on an empty list [numpy] answers [nan], which [Q] does not
    have: [print_stats] does not call it there. *)
Definition np_mean (l : list Q) : Q := Qsum l / inject_Z (len l).

(** [np.min] and [np.max] raise [ValueError] on an empty list. *)
Definition np_min (l : list Q) : M Q :=
  match l with
  | [] => raise ValueError
  | x :: xs => ret (fold_left Qmin xs x)
  end.

Definition np_max (l : list Q) : M Q :=
  match l with
  | [] => raise ValueError
  | x :: xs => ret (fold_left Qmax xs x)
  end.

Fixpoint insert_sorted (x : Q) (l : list Q) : list Q :=
  match l with
  | [] => [x]
  | y :: ys => if Qle_bool x y then x :: y :: ys else y :: insert_sorted x ys
  end.

Definition sorted (l : list Q) : list Q := fold_right insert_sorted [] l.

(** [np.percentile(l, q)] with the default method, linear interpolation
    between the two order statistics around the rank [(n - 1) * q / 100].
    As for [np.mean], the empty list is out of its use here. *)
Definition np_percentile (l : list Q) (q : Q) : Q :=
  let srt := sorted l in
  let h := (inject_Z (len l) - 1) * (q / 100) in
  let i := Qfloor h in
  let g := h - inject_Z i in
  let lo := nth (Z.to_nat i) srt 0 in
  let hi := nth (Z.to_nat (Z.min (i + 1) (len l - 1))) srt 0 in
  lo + g * (hi - lo).

(** ** [MachineGun.print_stats] *)

Definition is_empty {A} (l : list A) : bool :=
  match l with [] => true | _ :: _ => false end.

(** [l[-5:]] *)
Definition last5 {A} (l : list A) : list A := skipn (List.length l - 5) l.

Definition print_stats : M unit :=
  s <- gets stats ;;
  if is_empty (response_times s) then print LNoRequestsCompleted
  else
    let rts := response_times s in
    ratio <- truediv (inject_Z (successful_requests s))
                     (inject_Z (total_requests s)) ;;
    let success_rate := ratio * 100 in
    print (LRule true) ;;
    print LTitle ;;
    print (LRule false) ;;
    print (LTotal (total_requests s)) ;;
    print (LSuccessful (successful_requests s) success_rate) ;;
    print (LFailed (failed_requests s)) ;;
    print (LAverage (np_mean rts)) ;;
    mn <- np_min rts ;;
    print (LMin mn) ;;
    mx <- np_max rts ;;
    print (LMax mx) ;;
    print (LPercentile95 (np_percentile rts 95)) ;;
    if is_empty (errors s) then ret tt
    else
      print (LRecentErrors (len (errors s))) ;;
      for_each (last5 (errors s)) (fun error => print (LError error)).

(** ** The attacks *)

(** The loop test [time.time() < end_time] *)
Definition before (end_time : Q) : M bool :=
  t <- time_time ;; ret (Qltb t end_time).

(** Each attack is given with the body of its [for] loop (one request
    added to the list of coroutines) and the body of its [while] loop (one
    tick) named, so that they can be reasoned about one at a time. *)

Definition ddos_request (burst_tasks : list Coro) : M (list Coro) :=
  endpoint <- random_choice "/cpu-intensive"
    ["/memory-intensive"; "/database-heavy"; "/slow-endpoint";
     "/error-prone"] ;;
  c <- call_make_request endpoint "GET" None ;;
  ret (burst_tasks ++ [c]).

Definition ddos_tick (rps : Z) (tasks : list Coro) : M (list Coro) :=
  burst_tasks <- for_range (rps / 10)%Z ddos_request [] ;;
  let tasks := tasks ++ burst_tasks in
  sleep (1 # 10) ;;
  ret tasks.

Definition ddos_attack (fuel : nat) (duration rps : Z) : M unit :=
  print (LDdosStart rps duration) ;;
  t0 <- time_time ;;
  let end_time := t0 + inject_Z duration in
  tasks <- while fuel (before end_time) (ddos_tick rps) [] ;;
  gather tasks ;;
  print_stats.

Definition burst_request (tasks : list Coro) : M (list Coro) :=
  endpoint <- random_choice "/cpu-intensive?n=100000"
    ["/memory-intensive?size_mb=50"; "/database-heavy?queries=50";
     "/queue-task"] ;;
  if String.eqb endpoint "/queue-task" then
    t <- time_time ;;
    txt <- fake_text_call ;;
    let data := [("task", JTask "burst_task_" (int_of_float t));
                 ("data", JStr txt)] in
    c <- call_make_request endpoint "POST" (Some data) ;;
    ret (tasks ++ [c])
  else
    c <- call_make_request endpoint "GET" None ;;
    ret (tasks ++ [c]).

Definition burst_tick (burst_size interval : Z) (_ : unit) : M unit :=
  print (LFiring burst_size) ;;
  tasks <- for_range burst_size burst_request [] ;;
  gather tasks ;;
  sleep (inject_Z interval).

Definition burst_attack (fuel : nat) (burst_size interval duration : Z)
  : M unit :=
  print (LBurstStart burst_size interval duration) ;;
  t0 <- time_time ;;
  let end_time := t0 + inject_Z duration in
  while fuel (before end_time) (burst_tick burst_size interval) tt ;;
  print_stats.

Definition sustained_tick (interval : Q) (_ : unit) : M unit :=
  start <- time_time ;;
  endpoint <- random_choice "/cpu-intensive?n=500000"
    ["/memory-intensive?size_mb=25"; "/database-heavy?queries=25";
     "/slow-endpoint?delay=1.0"] ;;
  c <- call_make_request endpoint "GET" None ;;
  create_task c ;;
  t <- time_time ;;
  let elapsed := t - start in
  let sleep_time := Qmax 0 (interval - elapsed) in
  sleep sleep_time.

Definition sustained_attack (fuel : nat) (rps duration : Z) : M unit :=
  print (LSustainedStart rps duration) ;;
  t0 <- time_time ;;
  let end_time := t0 + inject_Z duration in
  interval <- truediv 1 (inject_Z rps) ;;
  while fuel (before end_time) (sustained_tick interval) tt ;;
  print_stats.

Definition random_request (tasks : list Coro) : M (list Coro) :=
  endpoint <- random_choice "/cpu-intensive"
    ["/memory-intensive"; "/database-heavy"; "/slow-endpoint";
     "/error-prone"; "/queue-task"; "/metrics"] ;;
  if String.eqb endpoint "/queue-task" then
    t <- time_time ;;
    let data := [("task", JTask "random_task_" (int_of_float t))] in
    c <- call_make_request endpoint "POST" (Some data) ;;
    ret (tasks ++ [c])
  else
    c <- call_make_request endpoint "GET" None ;;
    ret (tasks ++ [c]).

Definition random_tick (max_rps : Z) (_ : unit) : M unit :=
  current_rps <- random_randint0 max_rps ;;
  (if (current_rps >? 0)%Z then
     tasks <- for_range current_rps random_request [] ;;
     gather tasks ;;
     ret tt
   else ret tt) ;;
  d <- random_uniform (1 # 10) 2 ;;
  sleep d.

Definition random_attack (fuel : nat) (max_rps duration : Z) : M unit :=
  print (LRandomStart max_rps duration) ;;
  t0 <- time_time ;;
  let end_time := t0 + inject_Z duration in
  while fuel (before end_time) (random_tick max_rps) tt ;;
  print_stats.

Definition database_query (tasks : list Coro) : M (list Coro) :=
  c <- call_make_request "/database-heavy?queries=100" "GET" None ;;
  ret (tasks ++ [c]).

Definition database_queue (tasks : list Coro) : M (list Coro) :=
  t <- time_time ;;
  let data := [("task", JTask "db_task_" (int_of_float t));
               ("queries", JInt 50)] in
  c <- call_make_request "/queue-task" "POST" (Some data) ;;
  ret (tasks ++ [c]).

Definition database_tick (_ : unit) : M unit :=
  tasks <- for_range 50 database_query [] ;;
  tasks <- for_range 20 database_queue tasks ;;
  gather tasks ;;
  sleep (1 # 2).

Definition database_attack (fuel : nat) (duration : Z) : M unit :=
  print (LDatabaseStart duration) ;;
  t0 <- time_time ;;
  let end_time := t0 + inject_Z duration in
  while fuel (before end_time) database_tick tt ;;
  print_stats.

(** ** [main] *)

(** The choices of [--attack]. *)
Inductive attack_choice :=
| choice_ddos
| choice_burst
| choice_sustained
| choice_random
| choice_database.

(** The parsed command line. *)
Record Args := {
  a_attack : attack_choice;
  a_target : string;
  a_duration : Z;
  a_rps : Z;
  a_burst_size : Z
}.

(** The defaults of [argparse]. *)
Definition default_args : Args :=
  {| a_attack := choice_ddos; a_target := "http://localhost:8000";
     a_duration := 60; a_rps := 100; a_burst_size := 500 |}.

(** [__aexit__]: the session is closed if there is one. Closing has no
    effect on the rest of the gun, and nothing uses the session after it;
    that a session is closed is not recorded in the state. *)
Definition aexit : M unit :=
  s <- gets session ;;
  match s with
  | Some ClientSession => ret tt
  | None => ret tt
  end.

(** [async with gun: body]: [__aexit__] runs whether the body returns or
    raises, and an exception of the body goes on to the caller. *)
Definition async_with {A} (body : M A) : M A :=
  modify aenter ;;
  fun w =>
    let '(o, w1) := body w in
    match aexit w1 with
    | (Return _, w2) => (o, w2)
    | (Raise e, w2) => (Raise e, w2)
    | (OutOfFuel, w2) => (OutOfFuel, w2)
    end.

(** The two lines [main] prints before it makes the gun. *)
Inductive banner :=
| BTargeting (target : string)
| BAttack (a : attack_choice) (duration : Z).

(** [main], after [parse_args]: its two lines of output, and the run of
    the chosen attack on a new gun in the given environment. *)
Definition main (fuel : nat) (args : Args) (t : Q) (rnd : nat -> nat)
  (txt : nat -> string) (net : Z -> net_result)
  : list banner * (outcome unit * World) :=
  ([BTargeting (a_target args); BAttack (a_attack args) (a_duration args)],
   async_with
     (match a_attack args with
      | choice_ddos => ddos_attack fuel (a_duration args) (a_rps args)
      | choice_burst =>
          burst_attack fuel (a_burst_size args) 5 (a_duration args)
      | choice_sustained =>
          sustained_attack fuel (a_rps args) (a_duration args)
      | choice_random => random_attack fuel (a_rps args) (a_duration args)
      | choice_database => database_attack fuel (a_duration args)
      end)
     (MachineGun_init (a_target args) t rnd txt net)).

(** ** Notions used to state the properties *)

(** A call of one of the five attack coroutines, with its arguments. *)
Inductive call :=
| Ddos (duration rps : Z)
| Burst (burst_size interval duration : Z)
| Sustained (rps duration : Z)
| Random (max_rps duration : Z)
| Database (duration : Z).

Definition run_attack (fuel : nat) (c : call) : M unit :=
  match c with
  | Ddos duration rps => ddos_attack fuel duration rps
  | Burst burst_size interval duration =>
      burst_attack fuel burst_size interval duration
  | Sustained rps duration => sustained_attack fuel rps duration
  | Random max_rps duration => random_attack fuel max_rps duration
  | Database duration => database_attack fuel duration
  end.

(** One [await self.make_request(endpoint, method, **kwargs)] with the
    answer the network gives it. *)
Definition request : Type := string * string * kwargs * net_result.

Definition answer_of (c : request) : net_result := snd c.

(** A caller awaiting [make_request] once per element of [calls]. An
    exception leaving a call would end the sequence there. *)
Fixpoint make_requests (calls : list request) : M unit :=
  match calls with
  | [] => ret tt
  | (endpoint, method, kw, r) :: rest =>
      make_request endpoint method kw r ;; make_requests rest
  end.

(** The call gets an HTTP response and reads its body: the session is open
    and nothing fails in transport. *)
Definition answered (s : option Session) (r : net_result) : bool :=
  match s with
  | None => false
  | Some ClientSession => negb (transport_failure r)
  end.

Definition count_answered (s : option Session) (calls : list request) : Z :=
  len (filter (fun c => answered s (answer_of c)) calls).

(** The invariant of the statistics as the specification words it. *)
Definition stats_invariant (s : Stats) : Prop :=
  total_requests s = (successful_requests s + failed_requests s)%Z /\
  len (response_times s) = total_requests s.

(** Requests made whose outcome is not in the statistics. *)
Definition unresolved (w : World) : Z :=
  (issued w - total_requests (stats w))%Z.

(** The attacks that hand every coroutine they make to [asyncio.gather]. *)
Definition gathers (c : call) : bool :=
  match c with
  | Sustained _ _ => false
  | _ => true
  end.

(** The success rate a report shows, if it shows one. *)
Fixpoint reported_success_rate (out : list line) : option Q :=
  match out with
  | [] => None
  | LSuccessful _ rate :: _ => Some rate
  | _ :: rest => reported_success_rate rest
  end.

(** The mean and the 95th percentile a report shows, if it shows them. *)
Fixpoint reported_average (out : list line) : option Q :=
  match out with
  | [] => None
  | LAverage t :: _ => Some t
  | _ :: rest => reported_average rest
  end.

Fixpoint reported_percentile95 (out : list line) : option Q :=
  match out with
  | [] => None
  | LPercentile95 t :: _ => Some t
  | _ :: rest => reported_percentile95 rest
  end.

(** The lines [print_stats] ends its report with: the number of errors and
    the last five of them, when there are errors. *)
Definition error_lines (errs : list error_entry) : list line :=
  if is_empty errs then []
  else LRecentErrors (len errs) :: map LError (last5 errs).

(** The lines of a report that carry a count, a latency or an error. *)
Definition is_figure (l : line) : bool :=
  match l with
  | LTotal _ | LSuccessful _ _ | LFailed _ | LAverage _ | LMin _ | LMax _
  | LPercentile95 _ | LRecentErrors _ | LError _ => true
  | _ => false
  end.

(** A gun right after [MachineGun(url)], entered with [async with] or not,
    in a given environment. *)
Definition fresh_gun (entered : bool) (url : string) (t : Q)
  (rnd : nat -> nat) (txt : nat -> string) (net : Z -> net_result) : World :=
  let w := MachineGun_init url t rnd txt net in
  if entered then aenter w else w.

(** The gun of the examples: entered, at time 0, its draws 0, 1, 2, ... *)
Definition example_gun (net : Z -> net_result) : World :=
  fresh_gun true "http://localhost:8000" 0 (fun n => n) (fun _ => "lorem")
    net.

(** Example networks: one that refuses every connection, one that answers
    200 after a hundredth of a second, one that takes five seconds. *)
Definition refusing : Z -> net_result :=
  fun _ => RequestFails ConnectionRefused "connection refused" (1 # 100).

Definition quick : Z -> net_result :=
  fun _ => Response 200 (1 # 100) (BodyOk "{}" (1 # 100)).

Definition slow : Z -> net_result :=
  fun _ => Response 200 5 (BodyOk "{}" 1).

(** A network that times out on every third request and answers the
    others with 200 and 500 in turn. *)
Definition flaky : Z -> net_result :=
  fun k =>
    if (k mod 3 =? 0)%Z then RequestFails TimedOut "timeout" (1 # 100)
    else Response (if (k mod 3 =? 1)%Z then 200 else 500) (1 # 100)
           (BodyOk "{}" (1 # 100)).

(** What a coroutine of the gun leaves alone: everything but the clock and
    the statistics. *)
Definition frame (w w' : World) : Prop :=
  base_url w' = base_url w /\ session w' = session w /\
  issued w' = issued w /\ inflight w' = inflight w /\
  stdout w' = stdout w /\ rand w' = rand w /\ rand_pos w' = rand_pos w /\
  fake_text w' = fake_text w /\ network w' = network w.

(** What the properties of unresolved requests look at. *)
Definition books (w : World) : list (Q * Coro) * Z * Stats :=
  (inflight w, issued w, stats w).

(** [c] touches neither the statistics nor the requests made or in
    flight. *)
Definition quiet {A} (c : M A) : Prop :=
  forall w a w', c w = (Return a, w') -> books w' = books w.

(** A triple for the runs of [c] that return. *)
Definition triple {A} (P : World -> Prop) (c : M A) (Q : A -> World -> Prop)
  : Prop :=
  forall w a w', P w -> c w = (Return a, w') -> Q a w'.

(** No task is in flight, and beyond the [k] requests unresolved at the
    start of the attack there are [n]: the coroutines made and not run
    yet. *)
Definition drained (k n : Z) (w : World) : Prop :=
  inflight w = [] /\ unresolved w = (k + n)%Z.

(** [c] always returns, and moves neither the clock, nor the tasks in
    flight, nor the statistics. *)
Definition steady {A} (c : M A) : Prop :=
  forall w, exists a w',
    c w = (Return a, w') /\ now w' = now w /\
    inflight w' = inflight w /\ stats w' = stats w.

(** Statistics on which [print_stats] does not divide by zero. *)
Definition sound (s : Stats) : Prop :=
  (0 <= total_requests s)%Z /\
  (len (response_times s) <= total_requests s)%Z.

(** No task is in flight and the statistics are sound. *)
Definition calm (w : World) : Prop := inflight w = [] /\ sound (stats w).

(** The duration an attack is called with. *)
Definition duration_of (c : call) : Z :=
  match c with
  | Ddos duration _ => duration
  | Burst _ _ duration => duration
  | Sustained _ duration => duration
  | Random _ duration => duration
  | Database duration => duration
  end.

(** Arguments with which a gathering attack neither raises nor can spin
    without the clock moving: [random.randint(0, max_rps)] needs
    [0 <= max_rps], and the Burst attack sleeps [interval] seconds a
    tick. *)
Definition well_formed (c : call) : bool :=
  match c with
  | Burst _ interval _ => (0 <? interval)%Z
  | Random max_rps _ => (0 <=? max_rps)%Z
  | _ => true
  end.

(** The call is counted as successful: it is answered, with a status
    below 400. *)
Definition succeeds (s : option Session) (r : net_result) : bool :=
  match s, r with
  | Some ClientSession, Response status _ (BodyOk _ _) => (status <? 400)%Z
  | _, _ => false
  end.

Definition count_succeeded (s : option Session) (calls : list request) : Z :=
  len (filter (fun c => succeeds s (answer_of c)) calls).

(** [body] adds one coroutine, which satisfies [P], to the list it is
    given: it makes one request object and touches neither the clock, nor
    the tasks in flight, nor the statistics, nor the output. *)
Definition builder (P : Coro -> Prop) (body : list Coro -> M (list Coro))
  : Prop :=
  forall tasks w, exists c w',
    body tasks w = (Return (tasks ++ [c]), w') /\ P c /\
    issued w' = (issued w + 1)%Z /\ now w' = now w /\
    inflight w' = inflight w /\ stats w' = stats w /\
    stdout w' = stdout w.

(** A request to [/queue-task] is a POST with a body, any other one a GET
    without. *)
Definition well_shaped (c : Coro) : Prop :=
  if String.eqb (co_endpoint c) "/queue-task"
  then co_method c = "POST" /\ co_kwargs c <> None
  else co_method c = "GET" /\ co_kwargs c = None.

(** The number of "Firing burst" lines in an output. *)
Definition count_firing (out : list line) : Z :=
  len (filter (fun l => match l with LFiring _ => true | _ => false end) out).

(** The first line an attack prints. *)
Definition start_line (c : call) : line :=
  match c with
  | Ddos duration rps => LDdosStart rps duration
  | Burst burst_size interval duration =>
      LBurstStart burst_size interval duration
  | Sustained rps duration => LSustainedStart rps duration
  | Random max_rps duration => LRandomStart max_rps duration
  | Database duration => LDatabaseStart duration
  end.

(** A Sustained attack at zero requests per second. *)
Definition zero_rate (c : call) : bool :=
  match c with
  | Sustained rps _ => (rps =? 0)%Z
  | _ => false
  end.

(** The call [main] makes for a command line. *)
Definition call_of_args (args : Args) : call :=
  match a_attack args with
  | choice_ddos => Ddos (a_duration args) (a_rps args)
  | choice_burst => Burst (a_burst_size args) 5 (a_duration args)
  | choice_sustained => Sustained (a_rps args) (a_duration args)
  | choice_random => Random (a_rps args) (a_duration args)
  | choice_database => Database (a_duration args)
  end.

(** An attack up to its report: the statements of the coroutine that come
    before its last one, [self.print_stats()]. *)
Definition until_report (fuel : nat) (c : call) : M unit :=
  match c with
  | Ddos duration rps =>
      print (LDdosStart rps duration) ;;
      t0 <- time_time ;;
      let end_time := t0 + inject_Z duration in
      tasks <- while fuel (before end_time) (ddos_tick rps) [] ;;
      gather tasks ;;
      ret tt
  | Burst burst_size interval duration =>
      print (LBurstStart burst_size interval duration) ;;
      t0 <- time_time ;;
      let end_time := t0 + inject_Z duration in
      while fuel (before end_time) (burst_tick burst_size interval) tt
  | Sustained rps duration =>
      print (LSustainedStart rps duration) ;;
      t0 <- time_time ;;
      let end_time := t0 + inject_Z duration in
      interval <- truediv 1 (inject_Z rps) ;;
      while fuel (before end_time) (sustained_tick interval) tt
  | Random max_rps duration =>
      print (LRandomStart max_rps duration) ;;
      t0 <- time_time ;;
      let end_time := t0 + inject_Z duration in
      while fuel (before end_time) (random_tick max_rps) tt
  | Database duration =>
      print (LDatabaseStart duration) ;;
      t0 <- time_time ;;
      let end_time := t0 + inject_Z duration in
      while fuel (before end_time) database_tick tt
  end.

(** The time from the send to the response of an answered request (to
    the failure, for a request that fails). *)
Definition time_to_response (r : net_result) : Q :=
  match r with
  | RequestFails _ _ dt => dt
  | Response _ dt _ => dt
  end.

(** The answers of the calls that were answered, in the order of the
    calls. *)
Definition answers (s : option Session) (calls : list request)
  : list net_result :=
  filter (answered s) (map answer_of calls).

(** * The target service of [app/main.py]

    The handlers of the FastAPI application, as functions on the state of
    the service: its clock, the table [requests] of the database, the Redis
    list [tasks], the random generator and the standard output. The table
    is taken to exist ([startup] has run). [engine.connect()] succeeds or
    raises according to [db_up], the Redis client according to [redis_up].
    The time a computation takes is an argument ([busy]) of the handler that
    measures it. The HTTP layer (routing, serialisation, the Prometheus
    middleware and [/metrics]) is not modelled. *)

Module Target.

Inductive exn :=
| ZeroDivisionError
| OperationalError                           (* the database is unreachable *)
| ConnectionError                            (* Redis is unreachable *)
| HTTPException (status_code : Z) (detail : string).

(** A row of the table [requests]. *)
Record Row := {
  row_id : Z;
  row_timestamp : Q;
  row_endpoint : string;
  row_method : string;
  row_response_time : Q;
  row_status_code : Z;
  row_user_agent : string;
  row_ip_address : string
}.

(** An element of the Redis list [tasks]: the dict that [queue_task]
    dumps, with [id] standing for [f"task_{id}"]. *)
Record Task := {
  task_id : Z;
  task_data : list (string * jval);
  task_created_at : Q
}.

Inductive log_line :=
| FailedToLog (e : exn).

Record Server := {
  clock : Q;
  db_up : bool;
  requests : list Row;              (* in the order of insertion *)
  next_id : Z;                      (* the sequence of [id SERIAL] *)
  redis_up : bool;
  tasks : list Task;                (* head first *)
  randoms : nat -> nat;
  random_pos : nat;
  output : list log_line
}.

Definition set_clock (t : Q) (s : Server) : Server :=
  {| clock := t; db_up := db_up s; requests := requests s;
     next_id := next_id s; redis_up := redis_up s; tasks := tasks s;
     randoms := randoms s; random_pos := random_pos s; output := output s |}.

Definition set_requests (l : list Row) (n : Z) (s : Server) : Server :=
  {| clock := clock s; db_up := db_up s; requests := l;
     next_id := n; redis_up := redis_up s; tasks := tasks s;
     randoms := randoms s; random_pos := random_pos s; output := output s |}.

Definition set_tasks (l : list Task) (s : Server) : Server :=
  {| clock := clock s; db_up := db_up s; requests := requests s;
     next_id := next_id s; redis_up := redis_up s; tasks := l;
     randoms := randoms s; random_pos := random_pos s; output := output s |}.

Definition set_random_pos (n : nat) (s : Server) : Server :=
  {| clock := clock s; db_up := db_up s; requests := requests s;
     next_id := next_id s; redis_up := redis_up s; tasks := tasks s;
     randoms := randoms s; random_pos := n; output := output s |}.

Definition set_output (l : list log_line) (s : Server) : Server :=
  {| clock := clock s; db_up := db_up s; requests := requests s;
     next_id := next_id s; redis_up := redis_up s; tasks := tasks s;
     randoms := randoms s; random_pos := random_pos s; output := l |}.

(** ** The monad of handlers *)

Inductive result (A : Type) :=
| Ok (a : A)
| Raised (e : exn).

Arguments Ok {A} a.
Arguments Raised {A} e.

Definition T (A : Type) : Type := Server -> result A * Server.

Definition ret {A} (a : A) : T A := fun s => (Ok a, s).

Definition bind {A B} (c : T A) (k : A -> T B) : T B :=
  fun s =>
    match c s with
    | (Ok a, s1) => k a s1
    | (Raised e, s1) => (Raised e, s1)
    end.

Definition raise {A} (e : exn) : T A := fun s => (Raised e, s).

Definition try_except {A} (c : T A) (h : exn -> T A) : T A :=
  fun s =>
    match c s with
    | (Raised e, s1) => h e s1
    | r => r
    end.

Definition gets {A} (f : Server -> A) : T A := fun s => (Ok (f s), s).

Definition modify (f : Server -> Server) : T unit := fun s => (Ok tt, f s).

Declare Scope target_scope.
Delimit Scope target_scope with target.
Notation "x <- c ;; k" := (bind c (fun x => k))
  (at level 61, c at next level, right associativity) : target_scope.
Notation "c ;; k" := (bind c (fun _ => k))
  (at level 61, right associativity) : target_scope.
Local Open Scope target_scope.

(** [for _ in range(n): acc = body acc] *)
Fixpoint for_times {S} (n : nat) (body : S -> T S) (acc : S) : T S :=
  match n with
  | O => ret acc
  | Datatypes.S n' => acc' <- body acc ;; for_times n' body acc'
  end.

(** ** Primitive effects *)

(** [time.time()] and [datetime.now()] *)
Definition time_time : T Q := gets clock.

(** The clock moves by [dt] while the handler computes or sleeps. *)
Definition pass (dt : Q) : T unit :=
  modify (fun s => set_clock (clock s + dt) s).

(** [await asyncio.sleep(d)] *)
Definition sleep (d : Q) : T unit := pass (Qmax 0 d).

(** [print(...)] *)
Definition print (l : log_line) : T unit :=
  modify (fun s => set_output (output s ++ [l]) s).

(** [random.random()], a float of [[0, 1)], on a grid of thousandths *)
Definition random_random : T Q :=
  fun s =>
    (Ok (Z.of_nat (randoms s (random_pos s) mod 1000) # 1000),
     set_random_pos (Datatypes.S (random_pos s)) s).

(** [a / b] *)
Definition truediv (a b : Q) : T Q :=
  if Qeq_bool b 0 then raise ZeroDivisionError else ret (a / b).

(** [range(n)] *)
Definition range (n : Z) : list Z := map Z.of_nat (seq 0 (Z.to_nat n)).

(** [sum(l)] on integers and on floats *)
Definition sum_int (l : list Z) : Z := fold_left Z.add l 0%Z.
Definition sum_float (l : list Q) : Q := fold_left Qplus l 0.

(** ** The database and Redis *)

(** [with engine.connect() as conn: body] *)
Definition with_connection {A} (body : T A) : T A :=
  up <- gets db_up ;;
  if up then body else raise OperationalError.

(** The query [SELECT COUNT] of all rows [FROM requests] *)
Definition select_count : T Z := gets (fun s => len (requests s)).

(** [SELECT AVG(response_time) FROM requests]: [None] on an empty table *)
Definition select_avg : T (option Q) :=
  gets (fun s =>
          match requests s with
          | [] => None
          | _ :: _ =>
              Some (fold_right Qplus 0 (map row_response_time (requests s))
                    / inject_Z (len (requests s)))
          end).

(** The same count [WHERE status_code >= 400] *)
Definition select_error_count : T Z :=
  gets (fun s =>
          len (filter (fun r => (400 <=? row_status_code r)%Z) (requests s))).

(** The [INSERT INTO requests] of [log_request], committed: [id] and
    [timestamp] take their defaults. *)
Definition insert_request (endpoint method : string) (response_time : Q)
  (status_code : Z) (user_agent ip_address : string) : T unit :=
  modify (fun s =>
    set_requests
      (requests s ++
       [{| row_id := next_id s; row_timestamp := clock s;
           row_endpoint := endpoint; row_method := method;
           row_response_time := response_time;
           row_status_code := status_code;
           row_user_agent := user_agent; row_ip_address := ip_address |}])
      (next_id s + 1)%Z s).

(** [redis_client.lpush("tasks", ...)] *)
Definition lpush_tasks (t : Task) : T unit :=
  up <- gets redis_up ;;
  if up then modify (fun s => set_tasks (t :: tasks s) s)
  else raise ConnectionError.

(** ** [log_request] *)

Definition log_request (endpoint method : string) (response_time : Q)
  (status_code : Z) : T unit :=
  try_except
    (with_connection
       (insert_request endpoint method response_time status_code
          "MachineGun/1.0" "127.0.0.1"))
    (fun e => print (FailedToLog e)).

(** ** The handlers *)

Record CpuResult := {
  cpu_result : Z;
  cpu_computation_time : Q;
  cpu_n : Z
}.

Definition cpu_intensive (n : Z) (busy : Q) : T CpuResult :=
  start_time <- time_time ;;
  let result := sum_int (map (fun i => i * i)%Z (range n)) in
  pass busy ;;
  t <- time_time ;;
  let response_time := t - start_time in
  log_request "/cpu-intensive" "GET" response_time 200 ;;
  ret {| cpu_result := result; cpu_computation_time := response_time;
         cpu_n := n |}.

Record MemoryResult := {
  mem_average : Q;
  mem_size_mb : Z;
  mem_processing_time : Q
}.

Definition draw_float (data : list Q) : T (list Q) :=
  x <- random_random ;; ret (data ++ [x]).

Definition memory_intensive (size_mb : Z) (busy : Q) : T MemoryResult :=
  start_time <- time_time ;;
  data <- for_times (Z.to_nat (size_mb * 1024 * 1024 / 8)) draw_float [] ;;
  pass busy ;;
  result <- truediv (sum_float data) (inject_Z (len data)) ;;
  t <- time_time ;;
  let response_time := t - start_time in
  log_request "/memory-intensive" "GET" response_time 200 ;;
  ret {| mem_average := result; mem_size_mb := size_mb;
         mem_processing_time := response_time |}.

Record DatabaseResult := {
  db_query_count : Z;
  db_total_requests : Z;
  db_response_time : Q
}.

Definition count_query (results : list Z) : T (list Z) :=
  n <- select_count ;; ret (results ++ [n]).

Definition database_heavy (queries : Z) (busy : Q) : T DatabaseResult :=
  start_time <- time_time ;;
  results <- with_connection (for_times (Z.to_nat queries) count_query []) ;;
  pass busy ;;
  t <- time_time ;;
  let response_time := t - start_time in
  log_request "/database-heavy" "GET" response_time 200 ;;
  ret {| db_query_count := queries; db_total_requests := sum_int results;
         db_response_time := response_time |}.

Record QueueResult := {
  queue_task_id : Z;
  queue_queued : bool;
  queue_response_time : Q
}.

Definition queue_task (data : list (string * jval)) (busy : Q)
  : T QueueResult :=
  start_time <- time_time ;;
  t0 <- time_time ;;
  let id := int_of_float (t0 * 1000) in
  created <- time_time ;;
  lpush_tasks {| task_id := id; task_data := data;
                 task_created_at := created |} ;;
  pass busy ;;
  t <- time_time ;;
  let response_time := t - start_time in
  log_request "/queue-task" "POST" response_time 200 ;;
  ret {| queue_task_id := id; queue_queued := true;
         queue_response_time := response_time |}.

Record SlowResult := {
  slow_delay : Q;
  slow_message : string
}.

Definition slow_endpoint (delay : Q) : T SlowResult :=
  sleep delay ;;
  let response_time := delay in
  log_request "/slow-endpoint" "GET" response_time 200 ;;
  ret {| slow_delay := delay; slow_message := "Slow response completed" |}.

Record ErrorProneResult := {
  ep_success : bool;
  ep_error_rate : Q;
  ep_response_time : Q
}.

Definition error_prone (error_rate busy : Q) : T ErrorProneResult :=
  start_time <- time_time ;;
  x <- random_random ;;
  pass busy ;;
  if Qltb x error_rate then
    t <- time_time ;;
    let response_time := t - start_time in
    log_request "/error-prone" "GET" response_time 500 ;;
    raise (HTTPException 500 "Random error occurred")
  else
    t <- time_time ;;
    let response_time := t - start_time in
    log_request "/error-prone" "GET" response_time 200 ;;
    ret {| ep_success := true; ep_error_rate := error_rate;
           ep_response_time := response_time |}.

Record StatsResult := {
  st_total_requests : Z;
  st_average_response_time : Q;
  st_error_count : Z;
  st_error_rate : Q
}.

(** The handler [stats] of [/stats]. A falsy average ([None] or [0.0])
    gives [0]. *)
Definition stats_endpoint : T StatsResult :=
  r <- with_connection
         (total_requests <- select_count ;;
          avg_response_time <- select_avg ;;
          error_count <- select_error_count ;;
          ret (total_requests, avg_response_time, error_count)) ;;
  let '(total_requests, avg_response_time, error_count) := r in
  rate <- (if (total_requests >? 0)%Z
           then truediv (inject_Z error_count) (inject_Z total_requests)
           else ret 0) ;;
  ret {| st_total_requests := total_requests;
         st_average_response_time :=
           match avg_response_time with
           | Some a => if Qeq_bool a 0 then 0 else a
           | None => 0
           end;
         st_error_count := error_count;
         st_error_rate := rate |}.

(** ** Notions used to state the properties *)

(** The rows whose status is an error. *)
Definition error_rows (l : list Row) : list Row :=
  filter (fun r => (400 <=? row_status_code r)%Z) l.

(** What [log_request] records of a call. *)
Definition logged (r : Row) (endpoint method : string) (response_time : Q)
  (status_code : Z) : Prop :=
  row_endpoint r = endpoint /\ row_method r = method /\
  row_response_time r = response_time /\ row_status_code r = status_code /\
  row_user_agent r = "MachineGun/1.0" /\ row_ip_address r = "127.0.0.1".

(** [await log_request(...)] once per element of [calls]. *)
Fixpoint log_all (calls : list (string * string * Q * Z)) : T unit :=
  match calls with
  | [] => ret tt
  | (endpoint, method, response_time, status_code) :: rest =>
      log_request endpoint method response_time status_code ;; log_all rest
  end.

(** The calls logged with an error status. *)
Definition error_calls (calls : list (string * string * Q * Z))
  : list (string * string * Q * Z) :=
  filter (fun c => (400 <=? snd c)%Z) calls.

(** The [k] floats that [random.random()] gives next, in the order they
    are drawn. *)
Definition next_floats (s : Server) (k : nat) : list Q :=
  map (fun i => Z.of_nat (randoms s i mod 1000) # 1000)
      (seq (random_pos s) k).

(** A service for the examples: database and Redis up, an empty table. *)
Definition example_server : Server :=
  {| clock := 1700000000; db_up := true; requests := []; next_id := 1;
     redis_up := true; tasks := []; randoms := fun n => (n * 137)%nat;
     random_pos := O; output := [] |}.

End Target.

(** * Properties *)

(** ** The monad *)

Lemma bind_Return {A B} (c : M A) (k : A -> M B) w b w' :
  bind c k w = (Return b, w') ->
  exists a w1, c w = (Return a, w1) /\ k a w1 = (Return b, w').
Proof.
  unfold bind. destruct (c w) as [[a | e |] w1]; intro H; try discriminate.
  exists a, w1. split; [reflexivity | exact H].
Qed.

Lemma bind_eq {A B} (c : M A) (k : A -> M B) w a w1 :
  c w = (Return a, w1) -> bind c k w = k a w1.
Proof. unfold bind. intros ->. reflexivity. Qed.

Lemma bind_ret_l {A B} (a : A) (k : A -> M B) w : bind (ret a) k w = k a w.
Proof. reflexivity. Qed.

Ltac inv_bind H :=
  let a := fresh "a" in
  let w1 := fresh "w" in
  let H1 := fresh "H" in
  apply bind_Return in H; destruct H as (a & w1 & H1 & H).

(** A property of the loop variables and the state that the test and the
    body keep is kept by the loop. *)
Lemma while_invariant {S} (P : S -> World -> Prop) (cond : M bool)
  (body : S -> M S) :
  (forall s w b w', P s w -> cond w = (Return b, w') -> P s w') ->
  (forall s w s' w', P s w -> body s w = (Return s', w') -> P s' w') ->
  forall fuel s w s' w',
    P s w -> while fuel cond body s w = (Return s', w') -> P s' w'.
Proof.
  intros Hc Hb. induction fuel as [| fuel IH]; intros s w s' w' HP H.
  - discriminate.
  - cbn [while] in H. inv_bind H. destruct a.
    + inv_bind H. eapply IH; [| exact H]. eauto.
    + inversion H; subst. eauto.
Qed.

Lemma for_times_invariant {S} (P : nat -> S -> World -> Prop)
  (body : S -> M S) :
  (forall k s w s' w', P k s w -> body s w = (Return s', w') ->
                       P (Datatypes.S k) s' w') ->
  forall n k s w s' w',
    P k s w -> for_times n body s w = (Return s', w') -> P (n + k)%nat s' w'.
Proof.
  intros Hb. induction n as [| n IH]; intros k s w s' w' HP H.
  - inversion H; subst. exact HP.
  - cbn [for_times] in H. inv_bind H.
    replace (Datatypes.S n + k)%nat with (n + Datatypes.S k)%nat by lia.
    eapply IH; [| exact H]. eauto.
Qed.

(** ** [make_request] *)

Ltac mr_eval :=
  cbv [make_request try_except bind session_request response_text
       wait incr_total incr_successful incr_failed append_error
       append_response_time time_time gets modify ret raise
       answered transport_failure negb frame];
  cbn.

Ltac mr_cases w r :=
  destruct w as [t url [[] |] [tot suc fai rts errs] n fl out rnd pos txt net];
  destruct r as [k msg dt | status dt [content dtb | k msg dtb]];
  mr_eval;
  try destruct (status <? 400)%Z;
  cbn.

(** A call always returns a result, whatever the network does; it adds one
    to [total_requests] and one to either [successful_requests] or
    [failed_requests], and appends its response time exactly when it was
    answered. *)
Lemma make_request_effect ep m kw r w :
  exists res w',
    make_request ep m kw r w = (Return res, w') /\
    total_requests (stats w') = (total_requests (stats w) + 1)%Z /\
    (successful_requests (stats w') + failed_requests (stats w') =
     successful_requests (stats w) + failed_requests (stats w) + 1)%Z /\
    response_times (stats w') =
      response_times (stats w) ++
      (if answered (session w) r then [r_response_time res] else []) /\
    frame w w'.
Proof.
  mr_cases w r; do 2 eexists; (split; [reflexivity |]); cbn;
    rewrite ?app_nil_r; repeat split; lia.
Qed.

(** A call that is not answered leaves one entry in [errors]. *)
Lemma make_request_unanswered ep m kw r w :
  answered (session w) r = false ->
  successful_requests (stats (snd (make_request ep m kw r w))) =
    successful_requests (stats w) /\
  len (errors (stats (snd (make_request ep m kw r w)))) =
    (len (errors (stats w)) + 1)%Z.
Proof.
  unfold len. mr_cases w r; intro Hf; try discriminate; cbn;
    rewrite length_app; cbn; (split; [reflexivity | lia]).
Qed.

Lemma frame_refl w : frame w w.
Proof. unfold frame. tauto. Qed.

Lemma frame_trans w1 w2 w3 : frame w1 w2 -> frame w2 w3 -> frame w1 w3.
Proof. unfold frame. intuition congruence. Qed.

Lemma count_answered_cons s c calls :
  count_answered s (c :: calls) =
  ((if answered s (answer_of c) then 1 else 0) + count_answered s calls)%Z.
Proof.
  unfold count_answered, len. cbn [filter].
  destruct (answered s (answer_of c)); cbn [List.length]; lia.
Qed.

Lemma make_requests_effect calls : forall w,
  exists w',
    make_requests calls w = (Return tt, w') /\
    total_requests (stats w') = (total_requests (stats w) + len calls)%Z /\
    (successful_requests (stats w') + failed_requests (stats w') =
     successful_requests (stats w) + failed_requests (stats w) + len calls)%Z /\
    len (response_times (stats w')) =
      (len (response_times (stats w)) + count_answered (session w) calls)%Z /\
    frame w w'.
Proof.
  induction calls as [| [[[ep m] kw] r] calls IH]; intro w.
  - exists w. cbn. unfold ret, count_answered, len. cbn.
    split; [reflexivity |]. split; [lia |]. split; [lia |].
    split; [lia | apply frame_refl].
  - destruct (make_request_effect ep m kw r w)
      as (res & w1 & Hrun & Htot & Hsf & Hrt & Hfr).
    destruct (IH w1) as (w2 & Hrun2 & Htot2 & Hsf2 & Hrt2 & Hfr2).
    exists w2. cbn [make_requests]. rewrite (bind_eq _ _ _ _ _ Hrun).
    split; [exact Hrun2 |].
    assert (Hs : session w1 = session w) by (destruct Hfr; tauto).
    rewrite count_answered_cons. rewrite Hs in Hrt2. cbn [answer_of snd].
    rewrite Htot2, Hsf2, Hrt2, Htot, Hsf, Hrt.
    unfold len in *. rewrite length_app, length_cons.
    split; [lia |]. split; [lia |]. split.
    + destruct (answered (session w) r); cbn [List.length]; lia.
    + eapply frame_trans; eauto.
Qed.

Lemma make_requests_response_times calls : forall w,
  exists l,
    response_times (stats (snd (make_requests calls w))) =
      response_times (stats w) ++ l /\
    len l = count_answered (session w) calls.
Proof.
  induction calls as [| [[[ep m] kw] r] calls IH]; intro w.
  - exists []. cbn. rewrite app_nil_r. split; reflexivity.
  - destruct (make_request_effect ep m kw r w)
      as (res & w1 & Hrun & _ & _ & Hrt & Hfr).
    destruct (IH w1) as (l & Hl & Hlen).
    assert (Hs : session w1 = session w) by (destruct Hfr; tauto).
    cbn [make_requests]. rewrite (bind_eq _ _ _ _ _ Hrun).
    rewrite Hl, Hrt, <- app_assoc. eexists. split; [reflexivity |].
    rewrite Hs in Hlen.
    rewrite count_answered_cons, <- Hlen. cbn [answer_of snd].
    unfold len. rewrite length_app.
    destruct (answered (session w) r); cbn [List.length]; lia.
Qed.

Lemma make_requests_all_fail calls : forall w,
  forallb (fun c => transport_failure (answer_of c)) calls = true ->
  response_times (stats (snd (make_requests calls w))) =
    response_times (stats w) /\
  successful_requests (stats (snd (make_requests calls w))) =
    successful_requests (stats w) /\
  len (errors (stats (snd (make_requests calls w)))) =
    (len (errors (stats w)) + len calls)%Z.
Proof.
  induction calls as [| [[[ep m] kw] r] calls IH]; intros w Hall.
  - cbn. unfold len. cbn. split; [reflexivity | split; [reflexivity | lia]].
  - cbn [forallb answer_of snd] in Hall.
    apply andb_true_iff in Hall. destruct Hall as [Hr Hall].
    assert (Hna : answered (session w) r = false).
    { unfold answered. destruct (session w) as [[] |]; [| reflexivity].
      rewrite Hr. reflexivity. }
    destruct (make_request_effect ep m kw r w)
      as (res & w1 & Hrun & _ & _ & Hrt & _).
    destruct (make_request_unanswered ep m kw r w Hna) as [Hsuc Herr].
    rewrite Hrun in Hsuc, Herr. cbn [snd] in Hsuc, Herr.
    rewrite Hna, app_nil_r in Hrt.
    destruct (IH w1 Hall) as (IHrt & IHsuc & IHerr).
    cbn [make_requests]. rewrite (bind_eq _ _ _ _ _ Hrun).
    rewrite IHrt, IHsuc, IHerr, Hrt, Hsuc, Herr. unfold len.
    cbn [List.length].
    split; [reflexivity | split; [reflexivity | lia]].
Qed.

(** ** [print_stats] *)

Lemma print_stats_without_times w :
  response_times (stats w) = [] ->
  print_stats w =
    (Return tt, set_stdout (stdout w ++ [LNoRequestsCompleted]) w).
Proof.
  intro H. unfold print_stats, bind, gets, print, modify. rewrite H.
  reflexivity.
Qed.

Lemma set_stdout_same w : set_stdout (stdout w) w = w.
Proof. destruct w. reflexivity. Qed.

Lemma bind_print {B} l (k : unit -> M B) out w :
  bind (print l) k (set_stdout out w) = k tt (set_stdout (out ++ [l]) w).
Proof. destruct w. reflexivity. Qed.

Lemma for_each_print_errors l : forall out w,
  for_each l (fun e => print (LError e)) (set_stdout out w) =
    (Return tt, set_stdout (out ++ map LError l) w).
Proof.
  induction l as [| e l IH]; intros out w; cbn [for_each map].
  - rewrite app_nil_r. reflexivity.
  - rewrite bind_print, IH, <- app_assoc. reflexivity.
Qed.

(** The report on a gun that has response times and a non-zero total,
    line by line. *)
Lemma print_stats_with_times_at out w x xs :
  response_times (stats w) = x :: xs ->
  total_requests (stats w) <> 0%Z ->
  print_stats (set_stdout out w) =
    (Return tt,
     set_stdout
       (out ++
        [LRule true; LTitle; LRule false;
         LTotal (total_requests (stats w));
         LSuccessful (successful_requests (stats w))
           (inject_Z (successful_requests (stats w)) /
            inject_Z (total_requests (stats w)) * 100);
         LFailed (failed_requests (stats w));
         LAverage (np_mean (x :: xs));
         LMin (fold_left Qmin xs x);
         LMax (fold_left Qmax xs x);
         LPercentile95 (np_percentile (x :: xs) 95)] ++
        error_lines (errors (stats w))) w).
Proof.
  intros Hrts Htot.
  assert (Hnz : Qeq_bool (inject_Z (total_requests (stats w))) 0 = false).
  { destruct (Qeq_bool _ 0) eqn:E; [| reflexivity].
    apply Qeq_bool_iff in E. unfold Qeq in E. cbn in E. lia. }
  unfold print_stats.
  rewrite (bind_eq (gets stats) _ (set_stdout out w) (stats w)
             (set_stdout out w) eq_refl).
  rewrite Hrts. cbn [is_empty]. unfold truediv. rewrite Hnz.
  rewrite bind_ret_l, !bind_print.
  unfold np_min, np_max.
  rewrite bind_ret_l, bind_print, bind_ret_l, !bind_print.
  unfold error_lines. destruct (is_empty (errors (stats w))).
  - unfold ret. rewrite app_nil_r, <- !app_assoc. reflexivity.
  - rewrite bind_print, for_each_print_errors, <- !app_assoc. reflexivity.
Qed.

Lemma count_answered_repeat c n :
  answered (Some ClientSession) (answer_of c) = true ->
  count_answered (Some ClientSession) (repeat c n) = Z.of_nat n.
Proof.
  intro Hc. induction n as [| n IH].
  - reflexivity.
  - cbn [repeat]. rewrite count_answered_cons, Hc, IH. lia.
Qed.

(** ** [numpy] *)

Lemma fold_Qmin_le xs : forall a,
  fold_left Qmin xs a <= a /\
  forall y, In y xs -> fold_left Qmin xs a <= y.
Proof.
  induction xs as [| x xs IH]; intro a; cbn [fold_left].
  - split; [apply Qle_refl | intros y []].
  - destruct (IH (Qmin a x)) as [Ha Hin]. split.
    + eapply Qle_trans; [exact Ha | apply Q.le_min_l].
    + intros y [<- | Hy]; [| exact (Hin y Hy)].
      eapply Qle_trans; [exact Ha | apply Q.le_min_r].
Qed.

Lemma fold_Qmax_ge xs : forall a,
  a <= fold_left Qmax xs a /\
  forall y, In y xs -> y <= fold_left Qmax xs a.
Proof.
  induction xs as [| x xs IH]; intro a; cbn [fold_left].
  - split; [apply Qle_refl | intros y []].
  - destruct (IH (Qmax a x)) as [Ha Hin]. split.
    + eapply Qle_trans; [apply Q.le_max_l | exact Ha].
    + intros y [<- | Hy]; [| exact (Hin y Hy)].
      eapply Qle_trans; [apply Q.le_max_r | exact Ha].
Qed.

Lemma In_insert_sorted x l y : In y (insert_sorted x l) -> y = x \/ In y l.
Proof.
  induction l as [| z zs IH]; cbn [insert_sorted].
  - intros [<- | []]. left. reflexivity.
  - destruct (Qle_bool x z).
    + intros [<- | H]; [left; reflexivity | right; exact H].
    + intros [<- | H]; [right; left; reflexivity |].
      destruct (IH H) as [-> | Hin]; [left; reflexivity | right; right; exact Hin].
Qed.

Lemma length_insert_sorted x l :
  List.length (insert_sorted x l) = Datatypes.S (List.length l).
Proof.
  induction l as [| z zs IH]; cbn [insert_sorted]; [reflexivity |].
  destruct (Qle_bool x z); cbn [List.length]; [reflexivity | now rewrite IH].
Qed.

Lemma In_sorted l y : In y (sorted l) -> In y l.
Proof.
  induction l as [| x xs IH]; cbn [sorted fold_right]; [intros [] |].
  intro H. apply In_insert_sorted in H. destruct H as [-> | H].
  - left. reflexivity.
  - right. apply IH, H.
Qed.

Lemma length_sorted l : List.length (sorted l) = List.length l.
Proof.
  induction l as [| x xs IH]; cbn [sorted fold_right]; [reflexivity |].
  rewrite length_insert_sorted. cbn [List.length]. f_equal. exact IH.
Qed.

Lemma len_cons {A} (x : A) l : inject_Z (len (x :: l)) == inject_Z (len l) + 1.
Proof.
  unfold len. cbn [List.length]. rewrite Nat2Z.inj_succ.
  unfold Z.succ. rewrite inject_Z_plus. reflexivity.
Qed.

Lemma len_nonneg {A} (l : list A) : 0 <= inject_Z (len l).
Proof.
  unfold len. change 0 with (inject_Z 0). rewrite <- Zle_Qle. lia.
Qed.

Lemma Qsum_bounds lo hi l :
  (forall y, In y l -> lo <= y /\ y <= hi) ->
  inject_Z (len l) * lo <= Qsum l /\ Qsum l <= inject_Z (len l) * hi.
Proof.
  induction l as [| x xs IH]; intro Hb.
  - unfold Qsum, len. cbn [fold_right List.length Z.of_nat].
    change (inject_Z 0) with 0. split; lra.
  - destruct IH as [IHlo IHhi]; [intros y Hy; apply Hb; right; exact Hy |].
    destruct (Hb x (or_introl eq_refl)) as [Hx1 Hx2].
    rewrite len_cons. unfold Qsum in *. cbn [fold_right]. split; lra.
Qed.

(** The mean of a non-empty sample lies between two bounds of the sample. *)
Lemma np_mean_bounds lo hi x xs :
  (forall y, In y (x :: xs) -> lo <= y /\ y <= hi) ->
  lo <= np_mean (x :: xs) /\ np_mean (x :: xs) <= hi.
Proof.
  intro Hb. destruct (Qsum_bounds lo hi (x :: xs) Hb) as [H1 H2].
  assert (Hn : 0 < inject_Z (len (x :: xs))).
  { rewrite len_cons. pose proof (len_nonneg xs). lra. }
  unfold np_mean. split.
  - apply Qle_shift_div_l; [exact Hn | lra].
  - apply Qle_shift_div_r; [exact Hn | lra].
Qed.

(** So does the 95th percentile. *)
Lemma np_percentile_95_bounds lo hi x xs :
  (forall y, In y (x :: xs) -> lo <= y /\ y <= hi) ->
  lo <= np_percentile (x :: xs) 95 /\ np_percentile (x :: xs) 95 <= hi.
Proof.
  intro Hb. unfold np_percentile.
  set (l := x :: xs) in *.
  set (h := (inject_Z (len l) - 1) * (95 / 100)).
  set (i := Qfloor h).
  assert (Hlen : inject_Z (len l) - 1 == inject_Z (len xs)).
  { subst l. rewrite len_cons. ring. }
  assert (Hh0 : 0 <= h).
  { subst h. rewrite Hlen. pose proof (len_nonneg xs).
    assert (Hq : 95 / 100 == 19 # 20) by reflexivity. rewrite Hq. nra. }
  assert (Hh1 : h <= inject_Z (len xs)).
  { subst h. rewrite Hlen. pose proof (len_nonneg xs).
    assert (Hq : 95 / 100 == 19 # 20) by reflexivity. rewrite Hq. nra. }
  assert (Hi0 : (0 <= i)%Z).
  { subst i. rewrite <- (Qfloor_Z 0). apply Qfloor_resp_le. exact Hh0. }
  assert (Hi1 : (i <= len xs)%Z).
  { subst i. rewrite <- (Qfloor_Z (len xs)). apply Qfloor_resp_le.
    exact Hh1. }
  assert (Hg0 : 0 <= h - inject_Z i).
  { pose proof (Qfloor_le h). fold i in H. lra. }
  assert (Hg1 : h - inject_Z i <= 1).
  { pose proof (Qlt_floor h) as H. fold i in H.
    rewrite inject_Z_plus in H. change (inject_Z 1) with 1 in H. lra. }
  assert (Hnth : forall k, (k < List.length l)%nat ->
                           lo <= nth k (sorted l) 0 /\ nth k (sorted l) 0 <= hi).
  { intros k Hk. apply Hb, In_sorted, nth_In. rewrite length_sorted.
    exact Hk. }
  assert (Hll : len l = (len xs + 1)%Z).
  { subst l. unfold len. cbn [List.length]. lia. }
  destruct (Hnth (Z.to_nat i)) as [Hlo1 Hlo2].
  { unfold len in *. lia. }
  destruct (Hnth (Z.to_nat (Z.min (i + 1) (len l - 1)))) as [Hhi1 Hhi2].
  { unfold len in *. lia. }
  set (g := h - inject_Z i) in *.
  set (a := nth (Z.to_nat i) (sorted l) 0) in *.
  set (b := nth (Z.to_nat (Z.min (i + 1) (len l - 1))) (sorted l) 0) in *.
  split; nra.
Qed.

Lemma np_extrema_bound x xs :
  forall y, In y (x :: xs) ->
    fold_left Qmin xs x <= y /\ y <= fold_left Qmax xs x.
Proof.
  destruct (fold_Qmin_le xs x) as [Hmin Hmins].
  destruct (fold_Qmax_ge xs x) as [Hmax Hmaxs].
  intros y [<- | Hy]; split; auto.
Qed.

Lemma np_statistics_between_extrema x xs :
  let sample := x :: xs in
  fold_left Qmin xs x <= np_mean sample /\
  np_mean sample <= fold_left Qmax xs x /\
  fold_left Qmin xs x <= np_percentile sample 95 /\
  np_percentile sample 95 <= fold_left Qmax xs x.
Proof.
  intro sample.
  pose proof (np_extrema_bound x xs) as Hb.
  destruct (np_mean_bounds _ _ x xs Hb) as [Hm1 Hm2].
  destruct (np_percentile_95_bounds _ _ x xs Hb) as [Hp1 Hp2].
  repeat split; assumption.
Qed.

(** ** The event loop *)

Lemma settle_idle w : inflight w = [] -> settle w = w.
Proof.
  destruct w as [t url se st n fl out rnd pos txt net]. cbn. intros ->.
  reflexivity.
Qed.

Lemma sleep_idle d w :
  inflight w = [] ->
  sleep d w = (Return tt, set_now (now w + Qmax 0 d) w).
Proof.
  intro H. unfold sleep, modify. rewrite settle_idle; [reflexivity |].
  exact H.
Qed.

Lemma gather_from_effect s tasks : forall latest w,
  exists rs latest' w',
    gather_from s tasks latest w = (Return rs, latest', w') /\
    total_requests (stats w') = (total_requests (stats w) + len tasks)%Z /\
    issued w' = issued w /\ inflight w' = inflight w /\
    stdout w' = stdout w.
Proof.
  induction tasks as [| c tasks IH]; intros latest w.
  - exists [], latest, w. cbn. unfold len. cbn. repeat split; lia.
  - destruct (make_request_effect (co_endpoint c) (co_method c) (co_kwargs c)
                (co_net c) (set_now s w))
      as (res & w1 & Hrun & Htot & _ & _ & Hfr).
    destruct Hfr as (_ & _ & Hi & Hf & Ho & _).
    destruct (IH (Qmax latest (now w1)) w1)
      as (rs & l2 & w2 & Hrun2 & Htot2 & Hi2 & Hf2 & Ho2).
    exists (inr res :: rs), l2, w2.
    cbn [gather_from]. unfold run_coro. rewrite Hrun, Hrun2.
    split; [reflexivity |].
    cbn in Htot, Hi, Hf, Ho. unfold len in *. cbn [List.length].
    repeat split; try congruence; lia.
Qed.

Lemma gather_effect tasks w :
  inflight w = [] ->
  exists rs w',
    gather tasks w = (Return rs, w') /\
    total_requests (stats w') = (total_requests (stats w) + len tasks)%Z /\
    issued w' = issued w /\ inflight w' = [] /\ stdout w' = stdout w.
Proof.
  intro Hidle.
  destruct (gather_from_effect (now w) tasks (now w) w)
    as (rs & latest & w1 & Hrun & Htot & Hi & Hf & Ho).
  exists rs, (set_now latest w1). unfold gather. rewrite Hrun.
  rewrite settle_idle by (cbn; congruence).
  split; [reflexivity |]. cbn. repeat split; congruence.
Qed.

(** ** Quiet coroutines and triples *)

Lemma quiet_ret {A} (a : A) : quiet (ret a).
Proof. intros w b w' H. inversion H. reflexivity. Qed.

Lemma quiet_raise {A} e : quiet (@raise A e).
Proof. intros w b w' H. discriminate H. Qed.

Lemma quiet_gets {A} (f : World -> A) : quiet (gets f).
Proof. intros w b w' H. inversion H. reflexivity. Qed.

Lemma quiet_bind {A B} (c : M A) (k : A -> M B) :
  quiet c -> (forall a, quiet (k a)) -> quiet (bind c k).
Proof.
  intros Hc Hk w b w' H. inv_bind H.
  rewrite (Hk _ _ _ _ H). eapply Hc. eassumption.
Qed.

Lemma quiet_print l : quiet (print l).
Proof. intros w b w' H. inversion H. reflexivity. Qed.

Lemma quiet_time_time : quiet time_time.
Proof. apply quiet_gets. Qed.

Lemma quiet_draw : quiet draw.
Proof. intros w b w' H. inversion H. reflexivity. Qed.

Lemma quiet_truediv a b : quiet (truediv a b).
Proof.
  unfold truediv. destruct (Qeq_bool b 0);
    [apply quiet_raise | apply quiet_ret].
Qed.

Lemma quiet_np_min l : quiet (np_min l).
Proof. destruct l; [apply quiet_raise | apply quiet_ret]. Qed.

Lemma quiet_np_max l : quiet (np_max l).
Proof. destruct l; [apply quiet_raise | apply quiet_ret]. Qed.

Lemma quiet_for_each {A} (l : list A) (body : A -> M unit) :
  (forall x, quiet (body x)) -> quiet (for_each l body).
Proof.
  intro Hb. induction l as [| x l IH]; cbn [for_each].
  - apply quiet_ret.
  - apply quiet_bind; [apply Hb | intros _; exact IH].
Qed.

Create HintDb quiet.
#[local] Hint Resolve quiet_ret quiet_raise quiet_gets quiet_print
  quiet_time_time quiet_draw quiet_truediv quiet_np_min quiet_np_max
  quiet_for_each : quiet.

Ltac quiet_steps :=
  repeat (apply quiet_bind; [auto with quiet | intro]); auto with quiet.

Lemma quiet_random_choice {A} (x : A) l : quiet (random_choice x l).
Proof. unfold random_choice. quiet_steps. Qed.

Lemma quiet_random_randint0 b : quiet (random_randint0 b).
Proof. unfold random_randint0. destruct (b <? 0)%Z; quiet_steps. Qed.

Lemma quiet_random_uniform a b : quiet (random_uniform a b).
Proof. unfold random_uniform. quiet_steps. Qed.

Lemma quiet_fake_text_call : quiet fake_text_call.
Proof. unfold fake_text_call. quiet_steps. Qed.

Lemma quiet_before end_time : quiet (before end_time).
Proof. unfold before. quiet_steps. Qed.

Lemma quiet_print_stats : quiet print_stats.
Proof.
  unfold print_stats. apply quiet_bind; [auto with quiet | intro s].
  destruct (is_empty (response_times s)); [auto with quiet |].
  repeat (apply quiet_bind; [auto with quiet | intro]).
  destruct (is_empty (errors s)); quiet_steps.
Qed.

#[local] Hint Resolve quiet_random_choice quiet_random_randint0
  quiet_random_uniform quiet_fake_text_call quiet_before quiet_print_stats
  : quiet.

Lemma triple_bind {A B} P (c : M A) R (k : A -> M B) Q :
  triple P c R -> (forall a, triple (R a) (k a) Q) -> triple P (bind c k) Q.
Proof.
  intros Hc Hk w b w' HP H. inv_bind H. eapply Hk; [| exact H].
  eapply Hc; eassumption.
Qed.

Lemma triple_ret {A} (P : A -> World -> Prop) (a : A) :
  triple (P a) (ret a) P.
Proof. intros w b w' HP H. inversion H; subst. exact HP. Qed.

Lemma triple_pre {A} (P P' : World -> Prop) (c : M A) Q :
  (forall w, P w -> P' w) -> triple P' c Q -> triple P c Q.
Proof. intros HP Hc w a w' Hw H. eapply Hc; [apply HP, Hw | exact H]. Qed.

Lemma drained_books k n w w' : books w' = books w -> drained k n w -> drained k n w'.
Proof.
  unfold books, drained, unresolved. intros H [Hf Hu].
  inversion H as [[Hf' Hi' Hs']]. rewrite Hf', Hi', Hs'. split; assumption.
Qed.

Lemma triple_quiet {A} k n (c : M A) :
  quiet c -> triple (drained k n) c (fun _ => drained k n).
Proof.
  intros Hq w a w' HP H. eapply drained_books; [| exact HP].
  eapply Hq. exact H.
Qed.

Lemma triple_call k n ep m kw :
  triple (drained k n) (call_make_request ep m kw)
         (fun _ => drained k (n + 1)).
Proof.
  intros w a w' [Hf Hu] H. inversion H; subst. unfold drained, unresolved in *.
  cbn. split; [exact Hf | lia].
Qed.

Lemma triple_sleep k n d :
  triple (drained k n) (sleep d) (fun _ => drained k n).
Proof.
  intros w a w' [Hf Hu] H. rewrite (sleep_idle d w Hf) in H.
  inversion H; subst. split; [exact Hf | exact Hu].
Qed.

Lemma triple_gather k tasks :
  triple (drained k (len tasks)) (gather tasks) (fun _ => drained k 0).
Proof.
  intros w a w' [Hf Hu] H.
  destruct (gather_effect tasks w Hf) as (rs & w1 & Hrun & Htot & Hi & Hf1 & _).
  rewrite Hrun in H. inversion H; subst.
  unfold drained, unresolved in *. split; [exact Hf1 | lia].
Qed.

Lemma triple_while {S} (P : S -> World -> Prop) fuel cond (body : S -> M S) s :
  (forall s, triple (P s) cond (fun _ => P s)) ->
  (forall s, triple (P s) (body s) P) ->
  triple (P s) (while fuel cond body s) P.
Proof.
  intros Hc Hb w s' w' HP H.
  eapply (while_invariant P cond body); [| | exact HP | exact H].
  - intros s0 w0 b w0' HP0 H0. eapply Hc; eassumption.
  - intros s0 w0 s0' w0' HP0 H0. eapply Hb; eassumption.
Qed.

Lemma triple_for_range {S} (P : S -> World -> Prop) n (body : S -> M S) s :
  (forall s, triple (P s) (body s) P) ->
  triple (P s) (for_range n body s) P.
Proof.
  intros Hb w s' w' HP H. unfold for_range in H.
  assert (Hstep : forall (k : nat) s0 w0 s0' w0',
             P s0 w0 -> body s0 w0 = (Return s0', w0') -> P s0' w0').
  { intros _ s0 w0 s0' w0' HP0 H0. eapply Hb; eassumption. }
  exact (for_times_invariant (fun _ => P) body Hstep (Z.to_nat n) O
           s w s' w' HP H).
Qed.

Lemma len_snoc {A} (l : list A) x : len (l ++ [x]) = (len l + 1)%Z.
Proof. unfold len. rewrite length_app. cbn. lia. Qed.

(** Making one more coroutine leaves one more request to resolve. *)
Lemma triple_append k n ep m kw tasks :
  triple (drained k (n + len tasks))
         (c <- call_make_request ep m kw ;; ret (tasks ++ [c]))
         (fun tasks' => drained k (n + len tasks')).
Proof.
  eapply triple_bind; [apply triple_call | intro c].
  intros w a w' HP H. inversion H; subst. rewrite len_snoc.
  replace (n + (len tasks + 1))%Z with (n + len tasks + 1)%Z by lia.
  exact HP.
Qed.

Ltac quiet_then :=
  eapply triple_bind; [apply triple_quiet; auto with quiet | intro].

Lemma triple_ddos_request k n tasks :
  triple (drained k (n + len tasks)) (ddos_request tasks)
         (fun tasks' => drained k (n + len tasks')).
Proof. unfold ddos_request. quiet_then. apply triple_append. Qed.

Lemma triple_burst_request k n tasks :
  triple (drained k (n + len tasks)) (burst_request tasks)
         (fun tasks' => drained k (n + len tasks')).
Proof.
  unfold burst_request. quiet_then.
  destruct (String.eqb a "/queue-task").
  - do 2 quiet_then. apply triple_append.
  - apply triple_append.
Qed.

Lemma triple_random_request k n tasks :
  triple (drained k (n + len tasks)) (random_request tasks)
         (fun tasks' => drained k (n + len tasks')).
Proof.
  unfold random_request. quiet_then.
  destruct (String.eqb a "/queue-task").
  - quiet_then. apply triple_append.
  - apply triple_append.
Qed.

Lemma triple_database_query k n tasks :
  triple (drained k (n + len tasks)) (database_query tasks)
         (fun tasks' => drained k (n + len tasks')).
Proof. unfold database_query. apply triple_append. Qed.

Lemma triple_database_queue k n tasks :
  triple (drained k (n + len tasks)) (database_queue tasks)
         (fun tasks' => drained k (n + len tasks')).
Proof. unfold database_queue. quiet_then. apply triple_append. Qed.

(** *** One tick of each gathering attack *)

Lemma triple_ddos_tick k rps tasks :
  triple (drained k (len tasks)) (ddos_tick rps tasks)
         (fun tasks' => drained k (len tasks')).
Proof.
  unfold ddos_tick.
  apply (triple_pre _ (drained k (len tasks + len (@nil Coro)))).
  { intros w Hw. unfold len at 2. cbn. rewrite Z.add_0_r. exact Hw. }
  eapply triple_bind.
  { apply (triple_for_range (fun s => drained k (len tasks + len s)) _ _ []).
    intro s. apply triple_ddos_request. }
  intro burst_tasks. eapply triple_bind; [apply triple_sleep | intro].
  intros w r w' HP H. inversion H; subst.
  unfold len in *. rewrite length_app, Nat2Z.inj_add. exact HP.
Qed.

Lemma triple_burst_tick k burst_size interval u :
  triple (drained k 0) (burst_tick burst_size interval u)
         (fun _ => drained k 0).
Proof.
  unfold burst_tick. quiet_then.
  eapply triple_bind.
  { apply (triple_for_range (fun s => drained k (0 + len s)) _ _ []).
    intro s. apply triple_burst_request. }
  intro tasks. eapply triple_bind; [apply triple_gather | intro].
  apply triple_sleep.
Qed.

Lemma triple_random_tick k max_rps u :
  triple (drained k 0) (random_tick max_rps u) (fun _ => drained k 0).
Proof.
  unfold random_tick. quiet_then.
  eapply triple_bind with (R := fun _ => drained k 0).
  - destruct (a >? 0)%Z.
    + eapply triple_bind.
      { apply (triple_for_range (fun s => drained k (0 + len s)) _ _ []).
        intro s. apply triple_random_request. }
      intro tasks. eapply triple_bind; [apply triple_gather | intro].
      apply (triple_ret (fun _ => drained k 0)).
    + apply (triple_ret (fun _ => drained k 0)).
  - intro. quiet_then. apply triple_sleep.
Qed.

Lemma triple_database_tick k u :
  triple (drained k 0) (database_tick u) (fun _ => drained k 0).
Proof.
  unfold database_tick.
  eapply triple_bind.
  { apply (triple_for_range (fun s => drained k (0 + len s)) _ _ []).
    intro s. apply triple_database_query. }
  intro tasks. eapply triple_bind.
  { apply (triple_for_range (fun s => drained k (0 + len s)) _ _ tasks).
    intro s. apply triple_database_queue. }
  intro tasks'. eapply triple_bind; [apply triple_gather | intro].
  apply triple_sleep.
Qed.

(** *** The gathering attacks *)

Lemma triple_ddos_attack k fuel duration rps :
  triple (drained k 0) (ddos_attack fuel duration rps) (fun _ => drained k 0).
Proof.
  unfold ddos_attack. do 2 quiet_then.
  eapply triple_bind.
  { apply (triple_while (fun s => drained k (len s)) _ _ _ []).
    - intro s. apply triple_quiet. auto with quiet.
    - intro s. apply triple_ddos_tick. }
  intro tasks. eapply triple_bind; [apply triple_gather | intro].
  apply triple_quiet. auto with quiet.
Qed.

Lemma triple_burst_attack k fuel burst_size interval duration :
  triple (drained k 0) (burst_attack fuel burst_size interval duration)
         (fun _ => drained k 0).
Proof.
  unfold burst_attack. do 2 quiet_then.
  eapply triple_bind.
  { apply (triple_while (fun _ => drained k 0) _ _ _ tt).
    - intro s. apply triple_quiet. auto with quiet.
    - intro s. apply triple_burst_tick. }
  intro. apply triple_quiet. auto with quiet.
Qed.

Lemma triple_random_attack k fuel max_rps duration :
  triple (drained k 0) (random_attack fuel max_rps duration)
         (fun _ => drained k 0).
Proof.
  unfold random_attack. do 2 quiet_then.
  eapply triple_bind.
  { apply (triple_while (fun _ => drained k 0) _ _ _ tt).
    - intro s. apply triple_quiet. auto with quiet.
    - intro s. apply triple_random_tick. }
  intro. apply triple_quiet. auto with quiet.
Qed.

Lemma triple_database_attack k fuel duration :
  triple (drained k 0) (database_attack fuel duration) (fun _ => drained k 0).
Proof.
  unfold database_attack. do 2 quiet_then.
  eapply triple_bind.
  { apply (triple_while (fun _ => drained k 0) _ _ _ tt).
    - intro s. apply triple_quiet. auto with quiet.
    - intro s. apply triple_database_tick. }
  intro. apply triple_quiet. auto with quiet.
Qed.

(** *** The attacks up to their report *)

(** A run that returns [a] returns it in its final state. *)
Lemma returned_state {A} (r : outcome A * World) a :
  fst r = Return a -> r = (Return a, snd r).
Proof. destruct r as [o w]. cbn. intros ->. reflexivity. Qed.

(** Every attack is its statements up to the report, then the report. *)
Lemma report_comes_last fuel c w :
  run_attack fuel c w = (until_report fuel c ;; print_stats) w.
Proof.
  destruct c; cbn [run_attack until_report];
    cbv [ddos_attack burst_attack sustained_attack random_attack
         database_attack bind print modify time_time gets truediv raise ret];
    repeat match goal with
           | |- context [match ?x with _ => _ end] => destruct x
           end;
    reflexivity.
Qed.

Lemma triple_until_report k fuel c :
  gathers c = true ->
  triple (drained k 0) (until_report fuel c) (fun _ => drained k 0).
Proof.
  intro Hg. destruct c; cbn [gathers until_report] in *; try discriminate.
  - do 2 quiet_then.
    eapply triple_bind.
    { apply (triple_while (fun s => drained k (len s)) _ _ _ []).
      - intro s. apply triple_quiet. auto with quiet.
      - intro s. apply triple_ddos_tick. }
    intro tasks. eapply triple_bind; [apply triple_gather | intro].
    apply (triple_ret (fun _ => drained k 0)).
  - do 2 quiet_then.
    apply (triple_while (fun _ => drained k 0) _ _ _ tt).
    + intro s. apply triple_quiet. auto with quiet.
    + intro s. apply triple_burst_tick.
  - do 2 quiet_then.
    apply (triple_while (fun _ => drained k 0) _ _ _ tt).
    + intro s. apply triple_quiet. auto with quiet.
    + intro s. apply triple_random_tick.
  - do 2 quiet_then.
    apply (triple_while (fun _ => drained k 0) _ _ _ tt).
    + intro s. apply triple_quiet. auto with quiet.
    + intro s. apply triple_database_tick.
Qed.

(** ** The DDoS attack below ten requests per second *)

Lemma Qltb_true a b : Qltb a b = true -> a < b.
Proof.
  unfold Qltb. intro H. apply negb_true_iff in H.
  apply Qnot_le_lt. intro Hle. apply Qle_bool_iff in Hle. congruence.
Qed.

Lemma burst_of_none rps : (rps < 10)%Z -> Z.to_nat (rps / 10) = O.
Proof.
  intro H. assert (rps / 10 < 1)%Z by (apply Z.div_lt_upper_bound; lia). lia.
Qed.

Lemma before_eq end_time w :
  before end_time w = (Return (Qltb (now w) end_time), w).
Proof. reflexivity. Qed.

Lemma ddos_tick_idle rps tasks w :
  (rps < 10)%Z -> inflight w = [] ->
  ddos_tick rps tasks w =
    (Return (tasks ++ []), set_now (now w + Qmax 0 (1 # 10)) w).
Proof.
  intros Hrps Hidle. unfold ddos_tick, for_range.
  rewrite (burst_of_none rps Hrps). cbn [for_times].
  rewrite bind_ret_l.
  rewrite (bind_eq _ _ _ _ _ (sleep_idle _ _ Hidle)). reflexivity.
Qed.

(** With [f + 1] units of fuel the loop ends when at most [f] tenths of a
    second are left, and it changes nothing but the clock. *)
Lemma ddos_loop_idle rps end_time :
  (rps < 10)%Z ->
  forall f w,
    inflight w = [] ->
    (end_time - now w) * 10 <= inject_Z (Z.of_nat f) ->
    exists w',
      while (Datatypes.S f) (before end_time) (ddos_tick rps) [] w
        = (Return [], w') /\
      books w' = books w /\ stdout w' = stdout w.
Proof.
  intros Hrps. induction f as [| f IH]; intros w Hidle Hleft.
  - cbn [while]. rewrite (bind_eq _ _ _ _ _ (before_eq end_time w)).
    destruct (Qltb (now w) end_time) eqn:Hlt.
    + apply Qltb_true in Hlt. change (inject_Z (Z.of_nat 0)) with 0 in Hleft.
      lra.
    + exists w. repeat split.
  - remember (Datatypes.S f) as fuel eqn:Hfuel.
    cbn [while]. rewrite (bind_eq _ _ _ _ _ (before_eq end_time w)).
    destruct (Qltb (now w) end_time) eqn:Hlt.
    + rewrite (bind_eq _ _ _ _ _ (ddos_tick_idle rps [] w Hrps Hidle)).
      cbn [app]. subst fuel.
      destruct (IH (set_now (now w + Qmax 0 (1 # 10)) w))
        as (w' & Hrun & Hbooks & Hout).
      * exact Hidle.
      * cbn [now set_now].
        rewrite (Q.max_r 0 (1 # 10)) by (unfold Qle; cbn; lia).
        rewrite Nat2Z.inj_succ in Hleft. unfold Z.succ in Hleft.
        rewrite inject_Z_plus in Hleft. change (inject_Z 1) with 1 in Hleft.
        lra.
      * exists w'. split; [exact Hrun |]. split; [exact Hbooks | exact Hout].
    + exists w. repeat split.
Qed.

(** ** The gathering attacks return *)

Lemma steady_ret {A} (a : A) : steady (ret a).
Proof. intro w. exists a, w. repeat split. Qed.

Lemma steady_gets {A} (f : World -> A) : steady (gets f).
Proof. intro w. exists (f w), w. repeat split. Qed.

Lemma steady_bind {A B} (c : M A) (k : A -> M B) :
  steady c -> (forall a, steady (k a)) -> steady (bind c k).
Proof.
  intros Hc Hk w. destruct (Hc w) as (a & w1 & Hrun & Hn & Hf & Hs).
  destruct (Hk a w1) as (b & w2 & Hrun2 & Hn2 & Hf2 & Hs2).
  exists b, w2. rewrite (bind_eq _ _ _ _ _ Hrun).
  split; [exact Hrun2 |]. repeat split; congruence.
Qed.

Lemma steady_print l : steady (print l).
Proof. intro w. do 2 eexists. split; [reflexivity |]. repeat split. Qed.

Lemma steady_draw : steady draw.
Proof. intro w. do 2 eexists. split; [reflexivity |]. repeat split. Qed.

Lemma steady_call ep m kw : steady (call_make_request ep m kw).
Proof. intro w. do 2 eexists. split; [reflexivity |]. repeat split. Qed.

Lemma steady_for_times {S} n (body : S -> M S) :
  (forall s, steady (body s)) -> forall s, steady (for_times n body s).
Proof.
  intro Hb. induction n as [| n IH]; intro s; cbn [for_times].
  - apply steady_ret.
  - apply steady_bind; [apply Hb | exact IH].
Qed.

Create HintDb steady.
#[local] Hint Resolve steady_ret steady_gets steady_print steady_draw
  steady_call : steady.

Ltac steady_steps :=
  repeat (apply steady_bind; [auto with steady | intro]); auto with steady.

Lemma steady_time_time : steady time_time.
Proof. apply steady_gets. Qed.

Lemma steady_random_choice {A} (x : A) l : steady (random_choice x l).
Proof. unfold random_choice. steady_steps. Qed.

Lemma steady_fake_text_call : steady fake_text_call.
Proof. unfold fake_text_call. steady_steps. Qed.

#[local] Hint Resolve steady_time_time steady_random_choice
  steady_fake_text_call : steady.

Lemma steady_ddos_request tasks : steady (ddos_request tasks).
Proof. unfold ddos_request. steady_steps. Qed.

Lemma steady_burst_request tasks : steady (burst_request tasks).
Proof.
  unfold burst_request. apply steady_bind; [auto with steady | intro ep].
  destruct (String.eqb ep "/queue-task"); steady_steps.
Qed.

Lemma steady_random_request tasks : steady (random_request tasks).
Proof.
  unfold random_request. apply steady_bind; [auto with steady | intro ep].
  destruct (String.eqb ep "/queue-task"); steady_steps.
Qed.

Lemma steady_database_query tasks : steady (database_query tasks).
Proof. unfold database_query. steady_steps. Qed.

Lemma steady_database_queue tasks : steady (database_queue tasks).
Proof. unfold database_queue. steady_steps. Qed.

Lemma make_request_sound ep m kw r w :
  sound (stats w) ->
  exists res w',
    make_request ep m kw r w = (Return res, w') /\
    sound (stats w') /\ inflight w' = inflight w.
Proof.
  intros [H0 Hle].
  destruct (make_request_effect ep m kw r w)
    as (res & w' & Hrun & Htot & _ & Hrt & Hfr).
  exists res, w'. split; [exact Hrun |]. split.
  - unfold sound, len in *. rewrite Htot, Hrt, length_app.
    destruct (answered (session w) r); cbn [List.length]; lia.
  - destruct Hfr as (_ & _ & _ & Hf & _). exact Hf.
Qed.

Lemma gather_from_calm s tasks : forall latest w,
  sound (stats w) ->
  exists rs latest' w',
    gather_from s tasks latest w = (Return rs, latest', w') /\
    sound (stats w') /\ inflight w' = inflight w /\ latest <= latest'.
Proof.
  induction tasks as [| c tasks IH]; intros latest w Hs.
  - exists [], latest, w. repeat split; try apply Hs. apply Qle_refl.
  - destruct (make_request_sound (co_endpoint c) (co_method c) (co_kwargs c)
                (co_net c) (set_now s w) Hs)
      as (res & w1 & Hrun & Hs1 & Hf1).
    destruct (IH (Qmax latest (now w1)) w1 Hs1)
      as (rs & l2 & w2 & Hrun2 & Hs2 & Hf2 & Hl2).
    exists (inr res :: rs), l2, w2.
    cbn [gather_from]. unfold run_coro. rewrite Hrun, Hrun2.
    split; [reflexivity |]. split; [exact Hs2 |].
    split; [cbn in Hf1; congruence |].
    eapply Qle_trans; [apply Q.le_max_l | exact Hl2].
Qed.

Lemma gather_calm tasks w :
  calm w ->
  exists rs w',
    gather tasks w = (Return rs, w') /\ calm w' /\ now w <= now w'.
Proof.
  intros [Hidle Hs].
  destruct (gather_from_calm (now w) tasks (now w) w Hs)
    as (rs & latest & w1 & Hrun & Hs1 & Hf1 & Hl).
  exists rs, (set_now latest w1). unfold gather. rewrite Hrun.
  rewrite settle_idle by (cbn; congruence).
  split; [reflexivity |]. split; [| exact Hl].
  split; [cbn; congruence | exact Hs1].
Qed.

(** A loop whose body always returns and moves the clock by [delta] or
    more ends within [f + 1] tests when [f * delta] covers the time left. *)
Lemma while_returns {S} (P : S -> World -> Prop) (delta end_time : Q)
  (body : S -> M S) :
  0 < delta ->
  (forall s w, P s w ->
     exists s' w', body s w = (Return s', w') /\ P s' w' /\
                   now w + delta <= now w') ->
  forall f s w,
    P s w ->
    end_time - now w <= inject_Z (Z.of_nat f) * delta ->
    exists s' w',
      while (Datatypes.S f) (before end_time) body s w = (Return s', w') /\
      P s' w'.
Proof.
  intros Hdelta Hbody. induction f as [| f IH]; intros s w HP Hleft.
  - cbn [while]. rewrite (bind_eq _ _ _ _ _ (before_eq end_time w)).
    destruct (Qltb (now w) end_time) eqn:Hlt.
    + apply Qltb_true in Hlt. change (inject_Z (Z.of_nat 0)) with 0 in Hleft.
      lra.
    + exists s, w. split; [reflexivity | exact HP].
  - remember (Datatypes.S f) as fuel eqn:Hfuel.
    cbn [while]. rewrite (bind_eq _ _ _ _ _ (before_eq end_time w)).
    destruct (Qltb (now w) end_time) eqn:Hlt.
    + destruct (Hbody s w HP) as (s1 & w1 & Hrun & HP1 & Hclock).
      rewrite (bind_eq _ _ _ _ _ Hrun). subst fuel.
      apply IH; [exact HP1 |].
      rewrite Nat2Z.inj_succ in Hleft. unfold Z.succ in Hleft.
      rewrite inject_Z_plus in Hleft. change (inject_Z 1) with 1 in Hleft.
      lra.
    + exists s, w. split; [reflexivity | exact HP].
Qed.

Lemma steady_calm {A} (c : M A) w :
  steady c -> calm w ->
  exists a w', c w = (Return a, w') /\ calm w' /\ now w' = now w.
Proof.
  intros Hc [Hidle Hs]. destruct (Hc w) as (a & w' & Hrun & Hn & Hf & Hst).
  exists a, w'. split; [exact Hrun |]. split; [| exact Hn].
  split; [congruence | rewrite Hst; exact Hs].
Qed.

Lemma sleep_calm d w :
  calm w ->
  exists w', sleep d w = (Return tt, w') /\ calm w' /\
             now w' = now w + Qmax 0 d.
Proof.
  intros [Hidle Hs]. exists (set_now (now w + Qmax 0 d) w).
  split; [apply sleep_idle, Hidle |]. split; [| reflexivity].
  split; [exact Hidle | exact Hs].
Qed.

Lemma steady_random_randint0 b : (0 <= b)%Z -> steady (random_randint0 b).
Proof.
  intro Hb. unfold random_randint0.
  destruct (Z.ltb_spec b 0); [lia | steady_steps].
Qed.

Lemma random_uniform_calm a b w :
  a <= b -> calm w ->
  exists d w', random_uniform a b w = (Return d, w') /\ calm w' /\
               now w' = now w /\ a <= d.
Proof.
  intros Hab Hc. unfold random_uniform.
  destruct (steady_calm draw w steady_draw Hc) as (r & w' & Hrun & Hc' & Hn).
  exists (a + (b - a) * (Z.of_nat (r mod 1001) # 1000)), w'.
  rewrite (bind_eq _ _ _ _ _ Hrun). split; [reflexivity |].
  split; [exact Hc' |]. split; [exact Hn |].
  assert (Hk : 0 <= Z.of_nat (r mod 1001) # 1000).
  { unfold Qle. cbn. lia. }
  nra.
Qed.

Lemma for_range_calm {S} n (body : S -> M S) s w :
  (forall s, steady (body s)) -> calm w ->
  exists s' w', for_range n body s w = (Return s', w') /\ calm w' /\
                now w' = now w.
Proof.
  intros Hb Hc. apply steady_calm; [| exact Hc].
  unfold for_range. apply steady_for_times, Hb.
Qed.

(** *** One tick moves the clock *)

Lemma ddos_tick_returns rps tasks w :
  calm w ->
  exists tasks' w',
    ddos_tick rps tasks w = (Return tasks', w') /\ calm w' /\
    now w + (1 # 10) <= now w'.
Proof.
  intro Hc. unfold ddos_tick.
  destruct (for_range_calm (rps / 10)%Z ddos_request [] w
              steady_ddos_request Hc) as (burst & w1 & Hrun1 & Hc1 & Hn1).
  destruct (sleep_calm (1 # 10) w1 Hc1) as (w2 & Hrun2 & Hc2 & Hn2).
  exists (tasks ++ burst), w2.
  rewrite (bind_eq _ _ _ _ _ Hrun1). cbv zeta.
  rewrite (bind_eq _ _ _ _ _ Hrun2).
  split; [reflexivity |]. split; [exact Hc2 |].
  rewrite Hn2, Hn1, (Q.max_r 0 (1 # 10)) by (unfold Qle; cbn; lia).
  apply Qle_refl.
Qed.

Lemma burst_tick_returns burst_size interval u w :
  (0 < interval)%Z -> calm w ->
  exists u' w',
    burst_tick burst_size interval u w = (Return u', w') /\ calm w' /\
    now w + 1 <= now w'.
Proof.
  intros Hi Hc. unfold burst_tick.
  destruct (steady_calm (print (LFiring burst_size)) w (steady_print _) Hc)
    as (u0 & w0 & Hrun0 & Hc0 & Hn0).
  destruct (for_range_calm burst_size burst_request [] w0
              steady_burst_request Hc0) as (tasks & w1 & Hrun1 & Hc1 & Hn1).
  destruct (gather_calm tasks w1 Hc1) as (rs & w2 & Hrun2 & Hc2 & Hn2).
  destruct (sleep_calm (inject_Z interval) w2 Hc2)
    as (w3 & Hrun3 & Hc3 & Hn3).
  exists tt, w3.
  rewrite (bind_eq _ _ _ _ _ Hrun0), (bind_eq _ _ _ _ _ Hrun1),
    (bind_eq _ _ _ _ _ Hrun2), Hrun3.
  split; [reflexivity |]. split; [exact Hc3 |].
  assert (H1 : 1 <= inject_Z interval).
  { change 1 with (inject_Z 1). rewrite <- Zle_Qle. lia. }
  rewrite Hn3, (Q.max_r 0 (inject_Z interval)) by lra.
  rewrite Hn1, Hn0 in Hn2. lra.
Qed.

Lemma random_tick_returns max_rps u w :
  (0 <= max_rps)%Z -> calm w ->
  exists u' w',
    random_tick max_rps u w = (Return u', w') /\ calm w' /\
    now w + (1 # 10) <= now w'.
Proof.
  intros Hm Hc. unfold random_tick.
  destruct (steady_calm (random_randint0 max_rps) w
              (steady_random_randint0 max_rps Hm) Hc)
    as (current_rps & w0 & Hrun0 & Hc0 & Hn0).
  rewrite (bind_eq _ _ _ _ _ Hrun0).
  assert (Hmid : exists w2,
             (if (current_rps >? 0)%Z
              then tasks <- for_range current_rps random_request [] ;;
                   gather tasks ;; ret tt
              else ret tt) w0 = (Return tt, w2) /\
             calm w2 /\ now w0 <= now w2).
  { destruct (current_rps >? 0)%Z.
    - destruct (for_range_calm current_rps random_request [] w0
                  steady_random_request Hc0)
        as (tasks & w1 & Hrun1 & Hc1 & Hn1).
      destruct (gather_calm tasks w1 Hc1) as (rs & w2 & Hrun2 & Hc2 & Hn2).
      exists w2. rewrite (bind_eq _ _ _ _ _ Hrun1), (bind_eq _ _ _ _ _ Hrun2).
      split; [reflexivity |]. split; [exact Hc2 |]. rewrite <- Hn1. exact Hn2.
    - exists w0. split; [reflexivity |]. split; [exact Hc0 | apply Qle_refl]. }
  destruct Hmid as (w2 & Hrun2 & Hc2 & Hn2).
  rewrite (bind_eq _ _ _ _ _ Hrun2).
  destruct (random_uniform_calm (1 # 10) 2 w2) as (d & w3 & Hrun3 & Hc3 & Hn3 & Hd);
    [unfold Qle; cbn; lia | exact Hc2 |].
  rewrite (bind_eq _ _ _ _ _ Hrun3).
  destruct (sleep_calm d w3 Hc3) as (w4 & Hrun4 & Hc4 & Hn4).
  exists tt, w4. split; [exact Hrun4 |]. split; [exact Hc4 |].
  rewrite Hn4, (Q.max_r 0 d) by lra. rewrite Hn3. rewrite Hn0 in Hn2. lra.
Qed.

Lemma database_tick_returns u w :
  calm w ->
  exists u' w',
    database_tick u w = (Return u', w') /\ calm w' /\
    now w + (1 # 2) <= now w'.
Proof.
  intro Hc. unfold database_tick.
  destruct (for_range_calm 50 database_query [] w steady_database_query Hc)
    as (tasks & w1 & Hrun1 & Hc1 & Hn1).
  destruct (for_range_calm 20 database_queue tasks w1
              steady_database_queue Hc1) as (tasks' & w2 & Hrun2 & Hc2 & Hn2).
  destruct (gather_calm tasks' w2 Hc2) as (rs & w3 & Hrun3 & Hc3 & Hn3).
  destruct (sleep_calm (1 # 2) w3 Hc3) as (w4 & Hrun4 & Hc4 & Hn4).
  exists tt, w4.
  rewrite (bind_eq _ _ _ _ _ Hrun1), (bind_eq _ _ _ _ _ Hrun2),
    (bind_eq _ _ _ _ _ Hrun3), Hrun4.
  split; [reflexivity |]. split; [exact Hc4 |].
  rewrite Hn4, (Q.max_r 0 (1 # 2)) by (unfold Qle; cbn; lia).
  rewrite Hn2, Hn1 in Hn3. lra.
Qed.

Lemma print_stats_returns w :
  sound (stats w) -> exists w', print_stats w = (Return tt, w').
Proof.
  intros [H0 Hle]. destruct (response_times (stats w)) as [| x xs] eqn:Hrts.
  - eexists. apply print_stats_without_times, Hrts.
  - eexists. rewrite <- (set_stdout_same w) at 1.
    apply (print_stats_with_times_at (stdout w) w x xs Hrts).
    unfold len in Hle. cbn [List.length] in Hle. lia.
Qed.

(** *** The attacks return *)

Lemma fuel_covers duration f delta t :
  (10 * duration <= Z.of_nat f)%Z -> (1 # 10) <= delta ->
  t + inject_Z duration - t <= inject_Z (Z.of_nat f) * delta.
Proof.
  intros H10 Hd.
  assert (H0 : 0 <= inject_Z (Z.of_nat f)).
  { change 0 with (inject_Z 0). rewrite <- Zle_Qle. lia. }
  rewrite Zle_Qle, inject_Z_mult in H10. change (inject_Z 10) with 10 in H10.
  nra.
Qed.

Lemma ddos_attack_returns fuel duration rps w :
  calm w -> (Z.to_nat (10 * duration) < fuel)%nat ->
  exists w', ddos_attack fuel duration rps w = (Return tt, w').
Proof.
  intros Hc Hfuel. destruct fuel as [| f]; [lia |]. unfold ddos_attack.
  destruct (steady_calm (print (LDdosStart rps duration)) w (steady_print _) Hc)
    as (u & w1 & Hrun1 & Hc1 & _).
  rewrite (bind_eq _ _ _ _ _ Hrun1).
  rewrite (bind_eq time_time _ w1 (now w1) w1 eq_refl).
  destruct (while_returns (fun _ : list Coro => calm) (1 # 10)
              (now w1 + inject_Z duration) (ddos_tick rps)) with
    (f := f) (s := @nil Coro) (w := w1) as (tasks & w2 & Hrun2 & Hc2).
  - reflexivity.
  - intros s w0 Hc0. apply ddos_tick_returns, Hc0.
  - exact Hc1.
  - apply fuel_covers; [lia | apply Qle_refl].
  - rewrite (bind_eq _ _ _ _ _ Hrun2).
    destruct (gather_calm tasks w2 Hc2) as (rs & w3 & Hrun3 & Hc3 & _).
    rewrite (bind_eq _ _ _ _ _ Hrun3).
    apply print_stats_returns, Hc3.
Qed.

Lemma burst_attack_returns fuel burst_size interval duration w :
  (0 < interval)%Z -> calm w -> (Z.to_nat (10 * duration) < fuel)%nat ->
  exists w',
    burst_attack fuel burst_size interval duration w = (Return tt, w').
Proof.
  intros Hi Hc Hfuel. destruct fuel as [| f]; [lia |]. unfold burst_attack.
  destruct (steady_calm (print (LBurstStart burst_size interval duration)) w
              (steady_print _) Hc) as (u & w1 & Hrun1 & Hc1 & _).
  rewrite (bind_eq _ _ _ _ _ Hrun1).
  rewrite (bind_eq time_time _ w1 (now w1) w1 eq_refl).
  destruct (while_returns (fun _ : unit => calm) 1
              (now w1 + inject_Z duration) (burst_tick burst_size interval))
    with (f := f) (s := tt) (w := w1) as (u2 & w2 & Hrun2 & Hc2).
  - reflexivity.
  - intros s w0 Hc0. apply burst_tick_returns; assumption.
  - exact Hc1.
  - apply fuel_covers; [lia | unfold Qle; cbn; lia].
  - rewrite (bind_eq _ _ _ _ _ Hrun2).
    apply print_stats_returns, Hc2.
Qed.

Lemma random_attack_returns fuel max_rps duration w :
  (0 <= max_rps)%Z -> calm w -> (Z.to_nat (10 * duration) < fuel)%nat ->
  exists w', random_attack fuel max_rps duration w = (Return tt, w').
Proof.
  intros Hm Hc Hfuel. destruct fuel as [| f]; [lia |]. unfold random_attack.
  destruct (steady_calm (print (LRandomStart max_rps duration)) w
              (steady_print _) Hc) as (u & w1 & Hrun1 & Hc1 & _).
  rewrite (bind_eq _ _ _ _ _ Hrun1).
  rewrite (bind_eq time_time _ w1 (now w1) w1 eq_refl).
  destruct (while_returns (fun _ : unit => calm) (1 # 10)
              (now w1 + inject_Z duration) (random_tick max_rps))
    with (f := f) (s := tt) (w := w1) as (u2 & w2 & Hrun2 & Hc2).
  - reflexivity.
  - intros s w0 Hc0. apply random_tick_returns; assumption.
  - exact Hc1.
  - apply fuel_covers; [lia | apply Qle_refl].
  - rewrite (bind_eq _ _ _ _ _ Hrun2).
    apply print_stats_returns, Hc2.
Qed.

Lemma database_attack_returns fuel duration w :
  calm w -> (Z.to_nat (10 * duration) < fuel)%nat ->
  exists w', database_attack fuel duration w = (Return tt, w').
Proof.
  intros Hc Hfuel. destruct fuel as [| f]; [lia |]. unfold database_attack.
  destruct (steady_calm (print (LDatabaseStart duration)) w
              (steady_print _) Hc) as (u & w1 & Hrun1 & Hc1 & _).
  rewrite (bind_eq _ _ _ _ _ Hrun1).
  rewrite (bind_eq time_time _ w1 (now w1) w1 eq_refl).
  destruct (while_returns (fun _ : unit => calm) (1 # 2)
              (now w1 + inject_Z duration) database_tick)
    with (f := f) (s := tt) (w := w1) as (u2 & w2 & Hrun2 & Hc2).
  - reflexivity.
  - intros s w0 Hc0. apply database_tick_returns, Hc0.
  - exact Hc1.
  - apply fuel_covers; [lia | unfold Qle; cbn; lia].
  - rewrite (bind_eq _ _ _ _ _ Hrun2).
    apply print_stats_returns, Hc2.
Qed.

(** With fuel for ten ticks a second of its duration, a gathering attack
    called with well-formed arguments on a calm gun returns. *)
Lemma gathering_attacks_return c fuel w :
  gathers c = true -> well_formed c = true -> calm w ->
  (Z.to_nat (10 * duration_of c) < fuel)%nat ->
  fst (run_attack fuel c w) = Return tt.
Proof.
  intros Hg Hwf Hc Hfuel.
  assert (H : exists w', run_attack fuel c w = (Return tt, w')).
  { destruct c; cbn [run_attack gathers well_formed duration_of] in *;
      try discriminate.
    - apply ddos_attack_returns; assumption.
    - apply burst_attack_returns; [lia | assumption | assumption].
    - apply random_attack_returns; [lia | assumption | assumption].
    - apply database_attack_returns; assumption. }
  destruct H as (w' & ->). reflexivity.
Qed.

Lemma fresh_gun_calm entered url t rnd txt net :
  calm (fresh_gun entered url t rnd txt net).
Proof.
  destruct entered; (split; [reflexivity |]); split; cbn; unfold len; cbn; lia.
Qed.

(** * The claims *)

(** C1, as stated, fails: after one call that ends in a transport-level
    failure the statistics hold one request and no latency, so
    [len(latencies) == total] is broken (while
    [total == successful + failed] holds). *)
Lemma latencies_fall_short_of_total :
  let w := snd (make_requests
                  [("/metrics", "GET", None,
                    RequestFails ConnectionRefused "connection refused" 1)]
                  (example_gun refusing)) in
  total_requests (stats w) = 1%Z /\
  len (response_times (stats w)) = 0%Z /\
  ~ stats_invariant (stats w).
Proof.
  cbv zeta. split; [reflexivity |]. split; [reflexivity |].
  intros [_ H]. vm_compute in H. discriminate.
Qed.

(** C1, amended: for every sequence of calls to [make_request] on a fresh
    gun, every call returns, and after the sequence
    [total_requests] is the number of calls,
    [total_requests == successful_requests + failed_requests], and
    [len(response_times)] is the number of calls that ended in an HTTP
    response (any status); a transport-level failure adds no latency. As
    the sequence is arbitrary, this holds after each call and for every
    order of the outcomes. *)
Theorem stats_after_calls entered url t rnd txt net calls :
  let w := fresh_gun entered url t rnd txt net in
  exists w',
    make_requests calls w = (Return tt, w') /\
    total_requests (stats w') = len calls /\
    total_requests (stats w') =
      (successful_requests (stats w') + failed_requests (stats w'))%Z /\
    len (response_times (stats w')) = count_answered (session w) calls.
Proof.
  intro w.
  destruct (make_requests_effect calls w)
    as (w' & Hrun & Htot & Hsf & Hrt & _).
  exists w'. split; [exact Hrun |].
  assert (Hinit : stats w = init_stats) by (subst w; destruct entered; reflexivity).
  rewrite Hinit in *. cbn in Htot, Hsf, Hrt.
  unfold len in *. cbn [List.length] in Hrt. repeat split; lia.
Qed.




(** C3 is not what the code does: [sustained_attack] with [rps = 0]
    raises [ZeroDivisionError] at [interval = 1.0 / rps], right after its
    first line of output and before any request is made. *)
Theorem sustained_zero_rps_raises fuel duration w :
  sustained_attack fuel 0 duration w =
    (Raise ZeroDivisionError,
     set_stdout (stdout w ++ [LSustainedStart 0 duration]) w) /\
  issued (snd (sustained_attack fuel 0 duration w)) = issued w.
Proof. split; reflexivity. Qed.

(** C4: [make_request] never lets an exception out, whatever the network
    does; when the request fails or the body read fails (connection
    refused, timeout, DNS failure, protocol error) the result it returns
    has no status and carries the description of the failure, [str(e)]. *)
Theorem make_request_captures_failures ep m kw w :
  (forall r, exists res w', make_request ep m kw r w = (Return res, w')) /\
  (forall k msg dt, exists res w',
      make_request ep m kw (RequestFails k msg dt) w = (Return res, w') /\
      r_status res = None /\
      r_error res = Some (match session w with
                          | Some _ => str (ClientError k msg)
                          | None => str AttributeError
                          end)) /\
  (forall status dt k msg dtb, exists res w',
      make_request ep m kw (Response status dt (BodyFails k msg dtb)) w =
        (Return res, w') /\
      r_status res = None /\
      r_error res = Some (match session w with
                          | Some _ => str (ClientError k msg)
                          | None => str AttributeError
                          end)).
Proof.
  split; [| split].
  - intro r. destruct (make_request_effect ep m kw r w) as (res & w' & H & _).
    eauto.
  - intros k msg dt.
    destruct w as [t url [[] |] st n fl out rnd pos txt net]; mr_eval;
      do 2 eexists; (split; [reflexivity |]); split; reflexivity.
  - intros status dt k msg dtb.
    destruct w as [t url [[] |] st n fl out rnd pos txt net]; mr_eval;
      do 2 eexists; (split; [reflexivity |]); split; reflexivity.
Qed.

(** C5, as stated, fails: on a gun that recorded nothing the report shows
    no success rate at all, so it does not show a success rate of 0. *)
Lemma empty_report_shows_no_success_rate :
  reported_success_rate
    (stdout (snd (print_stats (example_gun quick)))) = None /\
  ~ exists rate,
      reported_success_rate
        (stdout (snd (print_stats (example_gun quick)))) = Some rate /\
      rate == 0.
Proof.
  split; [reflexivity |]. intros (rate & H & _). discriminate H.
Qed.

(** C5, amended: when nothing has been recorded, [print_stats] does not
    raise (there is no division) and prints the single line "No requests
    completed"; it shows neither a success rate nor any latency figure. *)
Theorem empty_report_is_one_line entered url t rnd txt net :
  let w := fresh_gun entered url t rnd txt net in
  print_stats w = (Return tt, set_stdout [LNoRequestsCompleted] w) /\
  reported_success_rate (stdout (snd (print_stats w))) = None /\
  filter is_figure (stdout (snd (print_stats w))) = [].
Proof.
  destruct entered; repeat split; reflexivity.
Qed.

(** C6, as stated, fails: after twenty requests answered at once and one
    answered after 21 seconds, the report shows a mean of 1 second and a
    95th percentile of 0 seconds, so [p95 >= mean] is broken. *)
Lemma percentile_below_mean :
  let calls :=
    repeat ("/metrics", "GET", @None (list (string * jval)),
            Response 200 0 (BodyOk "{}" 0)) 20 ++
    [("/slow-endpoint", "GET", None, Response 200 21 (BodyOk "{}" 0))] in
  let w := snd (make_requests calls (example_gun quick)) in
  let out := stdout (snd (print_stats w)) in
  exists mean p95,
    reported_average out = Some mean /\
    reported_percentile95 out = Some p95 /\
    mean == 1 /\ p95 == 0 /\ ~ mean <= p95.
Proof.
  cbv zeta.
  set (w := snd (make_requests _ (example_gun quick))).
  exists (np_mean (response_times (stats w))),
         (np_percentile (response_times (stats w)) 95).
  split; [vm_compute; reflexivity |].
  split; [vm_compute; reflexivity |].
  split; [vm_compute; reflexivity |].
  split; [vm_compute; reflexivity |].
  intro H. vm_compute in H. apply H. reflexivity.
Qed.

(** C6, amended: for every non-empty latency sample the report shows a
    mean and a 95th percentile that both lie between the minimum and the
    maximum it shows: [min <= mean <= max] and [min <= p95 <= max]. The
    percentile and the mean are not ordered with respect to each other. *)
Theorem latency_statistics_between_extrema w x xs :
  response_times (stats w) = x :: xs ->
  total_requests (stats w) <> 0%Z ->
  exists mean mn mx p95 w',
    print_stats w = (Return tt, w') /\
    stdout w' =
      stdout w ++
      [LRule true; LTitle; LRule false;
       LTotal (total_requests (stats w));
       LSuccessful (successful_requests (stats w))
         (inject_Z (successful_requests (stats w)) /
          inject_Z (total_requests (stats w)) * 100);
       LFailed (failed_requests (stats w));
       LAverage mean; LMin mn; LMax mx; LPercentile95 p95] ++
      error_lines (errors (stats w)) /\
    mn <= mean /\ mean <= mx /\ mn <= p95 /\ p95 <= mx.
Proof.
  intros Hrts Htot.
  exists (np_mean (x :: xs)), (fold_left Qmin xs x), (fold_left Qmax xs x),
         (np_percentile (x :: xs) 95).
  eexists. split.
  - rewrite <- (set_stdout_same w) at 1.
    apply (print_stats_with_times_at (stdout w) w x xs Hrts Htot).
  - split; [reflexivity |]. apply np_statistics_between_extrema.
Qed.

Lemma latency_statistics_between_extrema_witness :
  let w := snd (make_requests
                  [("/metrics", "GET", @None (list (string * jval)),
                    Response 200 (3 # 10) (BodyOk "{}" (1 # 10)));
                   ("/error-prone", "GET", None,
                    Response 500 (1 # 10) (BodyOk "{}" (1 # 10)))]
                  (example_gun quick)) in
  response_times (stats w) = [0 + (3 # 10) - 0;
                              0 + (3 # 10) + (1 # 10) + (1 # 10)
                              - (0 + (3 # 10) + (1 # 10))] /\
  total_requests (stats w) <> 0%Z /\
  exists mean mn mx p95 w',
    print_stats w = (Return tt, w') /\
    stdout w' =
      stdout w ++
      [LRule true; LTitle; LRule false;
       LTotal (total_requests (stats w));
       LSuccessful (successful_requests (stats w))
         (inject_Z (successful_requests (stats w)) /
          inject_Z (total_requests (stats w)) * 100);
       LFailed (failed_requests (stats w));
       LAverage mean; LMin mn; LMax mx; LPercentile95 p95] ++
      error_lines (errors (stats w)) /\
    mn <= mean /\ mean <= mx /\ mn <= p95 /\ p95 <= mx.
Proof.
  cbv zeta.
  split; [reflexivity |]. split; [discriminate |].
  apply latency_statistics_between_extrema with
    (x := 0 + (3 # 10) - 0)
    (xs := [0 + (3 # 10) + (1 # 10) + (1 # 10) - (0 + (3 # 10) + (1 # 10))]);
    [reflexivity | discriminate].
Defined.

(** C7, as stated, fails: no bound holds for the stored latencies; [B + 1]
    answered calls leave [B + 1] entries in [response_times]. *)
Lemma response_times_have_no_bound :
  ~ exists B : nat, forall calls,
      (List.length
         (response_times
            (stats (snd (make_requests calls (example_gun quick))))) <= B)%nat.
Proof.
  intros [B HB].
  set (c := ("/metrics", "GET", @None (list (string * jval)), quick 0%Z)).
  specialize (HB (repeat c (Datatypes.S B))).
  destruct (make_requests_effect (repeat c (Datatypes.S B))
              (example_gun quick)) as (w' & Hrun & _ & _ & Hrt & _).
  rewrite Hrun in HB. cbn [snd] in HB.
  change (session (example_gun quick)) with (Some ClientSession) in Hrt.
  rewrite count_answered_repeat in Hrt by reflexivity.
  unfold len in Hrt. cbn [example_gun fresh_gun aenter set_session stats
    MachineGun_init init_stats response_times List.length] in Hrt. lia.
Qed.

(** C7, amended: [response_times] is a plain list that only grows. Every
    call that ends in an HTTP response appends one entry and no entry is
    ever dropped: after any sequence of calls the list is the old one
    followed by as many entries as there were answered calls. *)
Theorem response_times_only_grow calls w :
  exists l,
    response_times (stats (snd (make_requests calls w))) =
      response_times (stats w) ++ l /\
    len l = count_answered (session w) calls.
Proof. apply make_requests_response_times. Qed.

(** C8, as stated, fails: a response that arrives after 1 second and whose
    body takes 2 more seconds to read is recorded with a response time of 1
    second, though [make_request] returns 3 seconds after the send. *)
Lemma response_time_leaves_out_the_body :
  exists res w',
    make_request "/slow-endpoint" "GET" None
      (Response 200 1 (BodyOk "{}" 2)) (example_gun slow) = (Return res, w') /\
    now w' - now (example_gun slow) == 3 /\
    r_response_time res == 1 /\
    ~ r_response_time res == 3.
Proof.
  do 2 eexists. split; [mr_eval; reflexivity |]. cbn.
  split; [reflexivity |]. split; [reflexivity |]. intro H. discriminate H.
Qed.

(** C8, amended: the elapsed time of a request is taken when the response
    (status line and headers) arrives, before the body is read. When the
    body is then read, this is the time the outcome holds and the time
    appended to [response_times]: it runs from just before the send to the
    arrival of the response and leaves out the time of the body read. Only
    when the request or the body read raises is the time taken again, in
    the [except] branch: the outcome then holds the time from just before
    the send to the failure (the time spent on the body included, when it is
    the body read that fails), it has no status, and no time is appended to
    [response_times]. In every case [make_request] returns once the request
    and the body read are over. *)
Theorem response_time_is_time_to_response ep m kw r w :
  exists res w',
    make_request ep m kw r (aenter w) = (Return res, w') /\
    now w' == now w + net_time r /\
    match r with
    | Response status dt (BodyOk content dtb) =>
        r_status res = Some status /\
        r_response_time res == dt /\
        response_times (stats w') =
          response_times (stats w) ++ [r_response_time res]
    | Response status dt (BodyFails k msg dtb) =>
        r_status res = None /\
        r_response_time res == dt + dtb /\
        response_times (stats w') = response_times (stats w)
    | RequestFails k msg dt =>
        r_status res = None /\
        r_response_time res == dt /\
        response_times (stats w') = response_times (stats w)
    end.
Proof.
  destruct w as [t url s [tot suc fai rts errs] n fl out rnd pos txt net].
  unfold aenter, set_session.
  destruct r as [k msg dt | status dt [content dtb | k msg dtb]]; mr_eval.
  - do 2 eexists. split; [reflexivity |]. cbn.
    split; [reflexivity |]. split; [reflexivity |]. split; [ring | reflexivity].
  - destruct (status <? 400)%Z; cbn; do 2 eexists;
      (split; [reflexivity |]); cbn;
      (split; [ring |]); (split; [reflexivity |]);
      (split; [ring | reflexivity]).
  - do 2 eexists. split; [reflexivity |]. cbn.
    split; [ring |]. split; [reflexivity |]. split; [ring | reflexivity].
Qed.



(** C10: when every request of a run failed at the transport level, so
    that [total_requests] is positive, every call left an entry in [errors]
    and [response_times] is empty, [print_stats] prints "No requests
    completed" and nothing else: no count, no latency, no error. *)
Theorem all_failed_report_is_silent entered url t rnd txt net calls :
  calls <> [] ->
  forallb (fun c => transport_failure (answer_of c)) calls = true ->
  exists w1 w2,
    make_requests calls (fresh_gun entered url t rnd txt net)
      = (Return tt, w1) /\
    (0 < total_requests (stats w1))%Z /\
    failed_requests (stats w1) = total_requests (stats w1) /\
    len (errors (stats w1)) = total_requests (stats w1) /\
    response_times (stats w1) = [] /\
    print_stats w1 = (Return tt, w2) /\
    stdout w2 = [LNoRequestsCompleted] /\
    filter is_figure (stdout w2) = [].
Proof.
  intros Hne Hall. set (w := fresh_gun entered url t rnd txt net).
  assert (Hinit : stats w = init_stats /\ stdout w = [])
    by (subst w; destruct entered; split; reflexivity).
  destruct Hinit as [Hinit Hout].
  destruct (make_requests_effect calls w)
    as (w1 & Hrun & Htot & Hsf & _ & Hfr).
  destruct (make_requests_all_fail calls w Hall) as (Hrts & Hsuc & Herr).
  rewrite Hrun in Hrts, Hsuc, Herr. cbn [snd] in Hrts, Hsuc, Herr.
  rewrite Hinit in *. cbn in Htot, Hsf, Hrts, Hsuc, Herr.
  assert (Hlen : (0 < len calls)%Z).
  { destruct calls; [congruence | unfold len; cbn [List.length]; lia]. }
  assert (Hout1 : stdout w1 = []).
  { destruct Hfr as (_ & _ & _ & _ & Ho & _). congruence. }
  exists w1, (set_stdout (stdout w1 ++ [LNoRequestsCompleted]) w1).
  split; [exact Hrun |]. split; [lia |]. split; [lia |].
  split; [unfold len in *; cbn [List.length] in Herr; lia |].
  split; [exact Hrts |]. split; [apply print_stats_without_times, Hrts |].
  cbn. rewrite Hout1. split; reflexivity.
Qed.

Lemma all_failed_report_is_silent_witness :
  let calls := [("/cpu-intensive", "GET", @None (list (string * jval)),
                 RequestFails TimedOut "timeout" 30);
                ("/queue-task", "POST", Some [("task", JTask "db_task_" 7)],
                 Response 200 (1 # 10) (BodyFails ProtocolError "reset" 1))] in
  calls <> [] /\
  forallb (fun c => transport_failure (answer_of c)) calls = true /\
  exists w1 w2,
    make_requests calls
      (fresh_gun true "http://localhost:8000" 0 (fun n => n)
         (fun _ => "lorem") refusing) = (Return tt, w1) /\
    (0 < total_requests (stats w1))%Z /\
    failed_requests (stats w1) = total_requests (stats w1) /\
    len (errors (stats w1)) = total_requests (stats w1) /\
    response_times (stats w1) = [] /\
    print_stats w1 = (Return tt, w2) /\
    stdout w2 = [LNoRequestsCompleted] /\
    filter is_figure (stdout w2) = [].
Proof.
  cbv zeta. split; [discriminate |]. split; [reflexivity |].
  apply all_failed_report_is_silent; [discriminate | reflexivity].
Defined.

(** * Further properties of the code *)

(** ** The counters of [make_request] *)

Lemma make_request_counts ep m kw r w :
  let w' := snd (make_request ep m kw r w) in
  successful_requests (stats w') =
    (successful_requests (stats w) + if succeeds (session w) r then 1 else 0)%Z /\
  failed_requests (stats w') =
    (failed_requests (stats w) + if succeeds (session w) r then 0 else 1)%Z /\
  len (errors (stats w')) =
    (len (errors (stats w)) + if succeeds (session w) r then 0 else 1)%Z.
Proof.
  unfold len.
  destruct w as [t url [[] |] [tot suc fai rts errs] n fl out rnd pos txt net];
    destruct r as [k msg dt | status dt [content dtb | k msg dtb]];
    mr_eval; cbn [succeeds];
    try destruct (status <? 400)%Z; cbn;
    rewrite ?length_app; cbn; repeat split; lia.
Qed.

Lemma count_succeeded_cons s c calls :
  count_succeeded s (c :: calls) =
  ((if succeeds s (answer_of c) then 1 else 0) + count_succeeded s calls)%Z.
Proof.
  unfold count_succeeded, len. cbn [filter].
  destruct (succeeds s (answer_of c)); cbn [List.length]; lia.
Qed.

Lemma make_requests_counts calls : forall w,
  let w' := snd (make_requests calls w) in
  successful_requests (stats w') =
    (successful_requests (stats w) + count_succeeded (session w) calls)%Z /\
  failed_requests (stats w') =
    (failed_requests (stats w) + len calls
     - count_succeeded (session w) calls)%Z /\
  len (errors (stats w')) =
    (len (errors (stats w)) + len calls
     - count_succeeded (session w) calls)%Z.
Proof.
  induction calls as [| [[[ep m] kw] r] calls IH]; intro w; cbv zeta.
  - cbn. unfold count_succeeded, len. cbn. repeat split; lia.
  - destruct (make_request_effect ep m kw r w)
      as (res & w1 & Hrun & _ & _ & _ & Hfr).
    destruct (make_request_counts ep m kw r w) as (Hs & Hf & He).
    rewrite Hrun in Hs, Hf, He. cbn [snd] in Hs, Hf, He.
    destruct (IH w1) as (IHs & IHf & IHe).
    assert (Hsess : session w1 = session w) by (destruct Hfr; tauto).
    rewrite Hsess in IHs, IHf, IHe.
    cbn [make_requests]. rewrite (bind_eq _ _ _ _ _ Hrun).
    rewrite IHs, IHf, IHe, Hs, Hf, He, count_succeeded_cons.
    cbn [answer_of snd]. unfold len. cbn [List.length].
    destruct (succeeds (session w) r); repeat split; lia.
Qed.

Lemma succeeds_answered s r : succeeds s r = true -> answered s r = true.
Proof.
  destruct s as [[] |]; [| discriminate].
  destruct r as [k msg dt | status dt [content dtb | k msg dtb]];
    cbn; congruence.
Qed.

Lemma count_succeeded_le_answered s calls :
  (0 <= count_succeeded s calls <= count_answered s calls)%Z.
Proof.
  induction calls as [| c calls IH].
  - unfold count_succeeded, count_answered, len. cbn. lia.
  - rewrite count_succeeded_cons, count_answered_cons.
    pose proof (succeeds_answered s (answer_of c)) as H.
    destruct (succeeds s (answer_of c)).
    + rewrite H by reflexivity. lia.
    + destruct (answered s (answer_of c)); lia.
Qed.

Lemma count_answered_le_len s calls :
  (count_answered s calls <= len calls)%Z.
Proof.
  unfold count_answered, len. pose proof (filter_length_le
    (fun c => answered s (answer_of c)) calls). lia.
Qed.

(** X1: after any sequence of calls on a fresh gun, [successful_requests]
    is the number of calls answered with a status below 400,
    [failed_requests] counts all the others (status 400 or more, or no
    answer), and [errors] holds exactly one entry per failed request. *)
Theorem counters_classify_calls entered url t rnd txt net calls :
  let w := fresh_gun entered url t rnd txt net in
  let w' := snd (make_requests calls w) in
  successful_requests (stats w') = count_succeeded (session w) calls /\
  failed_requests (stats w') =
    (len calls - count_succeeded (session w) calls)%Z /\
  len (errors (stats w')) = failed_requests (stats w') /\
  (successful_requests (stats w') <= len (response_times (stats w')))%Z.
Proof.
  intros w w'.
  destruct (make_requests_counts calls w) as (Hs & Hf & He).
  destruct (make_requests_effect calls w) as (w1 & Hrun & _ & _ & Hrt & _).
  fold w' in Hs, Hf, He.
  assert (Hw1 : w' = w1) by (subst w'; rewrite Hrun; reflexivity).
  rewrite <- Hw1 in Hrt.
  assert (Hinit : stats w = init_stats)
    by (subst w; destruct entered; reflexivity).
  rewrite Hinit in *. cbn in Hs, Hf, He, Hrt.
  pose proof (count_succeeded_le_answered (session w) calls).
  unfold len in *. cbn [List.length] in *.
  repeat split; lia.
Qed.

Lemma filter_length_perm {A} (f : A -> bool) l l' :
  Permutation l l' -> len (filter f l) = len (filter f l').
Proof.
  unfold len. intro H. f_equal.
  induction H as [| x l l' _ IH | x y l | l l' l'' _ IH1 _ IH2]; cbn [filter].
  - reflexivity.
  - destruct (f x); cbn [List.length]; congruence.
  - destruct (f x), (f y); reflexivity.
  - congruence.
Qed.

(** X2: the counters do not depend on the order in which the outcomes are
    recorded: two runs of the same calls in different orders, from the same
    state, end with the same [total_requests], [successful_requests] and
    [failed_requests] and with as many response times and errors. *)
Theorem counters_ignore_order calls calls' w :
  Permutation calls calls' ->
  let a := stats (snd (make_requests calls w)) in
  let b := stats (snd (make_requests calls' w)) in
  total_requests a = total_requests b /\
  successful_requests a = successful_requests b /\
  failed_requests a = failed_requests b /\
  len (response_times a) = len (response_times b) /\
  len (errors a) = len (errors b).
Proof.
  intros Hperm a b.
  destruct (make_requests_effect calls w) as (wa & Hra & Hta & _ & Hrta & _).
  destruct (make_requests_effect calls' w) as (wb & Hrb & Htb & _ & Hrtb & _).
  destruct (make_requests_counts calls w) as (Hsa & Hfa & Hea).
  destruct (make_requests_counts calls' w) as (Hsb & Hfb & Heb).
  fold a in Hsa, Hfa, Hea. fold b in Hsb, Hfb, Heb.
  assert (Ha : a = stats wa) by (subst a; rewrite Hra; reflexivity).
  assert (Hb : b = stats wb) by (subst b; rewrite Hrb; reflexivity).
  rewrite <- Ha in Hta, Hrta. rewrite <- Hb in Htb, Hrtb.
  assert (Hlen : len calls = len calls').
  { unfold len. f_equal. apply Permutation_length, Hperm. }
  assert (Hans : count_answered (session w) calls
                 = count_answered (session w) calls').
  { apply filter_length_perm, Hperm. }
  assert (Hsuc : count_succeeded (session w) calls
                 = count_succeeded (session w) calls').
  { apply filter_length_perm, Hperm. }
  repeat split; lia.
Qed.

Lemma counters_ignore_order_witness :
  let ok := ("/metrics", "GET", @None (list (string * jval)),
             Response 200 (1 # 10) (BodyOk "{}" (1 # 10))) in
  let ko := ("/error-prone", "GET", @None (list (string * jval)),
             Response 500 (2 # 10) (BodyOk "{}" (1 # 10))) in
  let lost := ("/slow-endpoint", "GET", @None (list (string * jval)),
               RequestFails TimedOut "timeout" 30) in
  let a := stats (snd (make_requests [ok; ko; lost] (example_gun quick))) in
  let b := stats (snd (make_requests [ko; ok; lost] (example_gun quick))) in
  Permutation [ok; ko; lost] [ko; ok; lost] /\
  total_requests a = total_requests b /\
  successful_requests a = successful_requests b /\
  failed_requests a = failed_requests b /\
  len (response_times a) = len (response_times b) /\
  len (errors a) = len (errors b).
Proof.
  cbv zeta. split; [apply perm_swap |].
  apply (counters_ignore_order _ _ (example_gun quick)). apply perm_swap.
Defined.

(** ** The report *)

Lemma last5_spec {A} (l : list A) :
  exists older,
    l = older ++ last5 l /\
    List.length (last5 l) = Nat.min 5 (List.length l).
Proof.
  exists (firstn (List.length l - 5) l). unfold last5. split.
  - symmetry. apply firstn_skipn.
  - rewrite length_skipn. lia.
Qed.

(** X3: a report with errors shows the number of all recorded errors and
    then the last five of them (all of them when there are fewer), in the
    order they were recorded; older errors are not shown. *)
Theorem report_lists_the_last_five_errors w :
  response_times (stats w) <> [] ->
  total_requests (stats w) <> 0%Z ->
  errors (stats w) <> [] ->
  exists figures older recent w',
    print_stats w = (Return tt, w') /\
    errors (stats w) = older ++ recent /\
    List.length recent = Nat.min 5 (List.length (errors (stats w))) /\
    List.length figures = 10%nat /\
    stdout w' =
      stdout w ++ figures ++
      LRecentErrors (len (errors (stats w))) :: map LError recent.
Proof.
  intros Hrts Htot Herr.
  destruct (response_times (stats w)) as [| x xs] eqn:Ex; [congruence |].
  destruct (last5_spec (errors (stats w))) as (older & Holder & Hlen).
  exists [LRule true; LTitle; LRule false;
          LTotal (total_requests (stats w));
          LSuccessful (successful_requests (stats w))
            (inject_Z (successful_requests (stats w)) /
             inject_Z (total_requests (stats w)) * 100);
          LFailed (failed_requests (stats w));
          LAverage (np_mean (x :: xs));
          LMin (fold_left Qmin xs x);
          LMax (fold_left Qmax xs x);
          LPercentile95 (np_percentile (x :: xs) 95)],
    older, (last5 (errors (stats w))).
  eexists. split.
  { rewrite <- (set_stdout_same w) at 1.
    apply (print_stats_with_times_at (stdout w) w x xs Ex Htot). }
  split; [exact Holder |]. split; [exact Hlen |].
  split; [reflexivity |].
  cbn [stdout set_stdout]. unfold error_lines.
  destruct (errors (stats w)) as [| e es]; [congruence |]. reflexivity.
Qed.

Lemma report_lists_the_last_five_errors_witness :
  let failing := ("/error-prone", "GET", @None (list (string * jval)),
                  Response 500 (1 # 10) (BodyOk "{}" (1 # 10))) in
  let w := snd (make_requests (repeat failing 7) (example_gun quick)) in
  response_times (stats w) <> [] /\
  total_requests (stats w) <> 0%Z /\
  errors (stats w) <> [] /\
  exists figures older recent w',
    print_stats w = (Return tt, w') /\
    errors (stats w) = older ++ recent /\
    List.length recent = Nat.min 5 (List.length (errors (stats w))) /\
    List.length figures = 10%nat /\
    stdout w' =
      stdout w ++ figures ++
      LRecentErrors (len (errors (stats w))) :: map LError recent.
Proof.
  cbv zeta.
  split; [cbn; discriminate |]. split; [cbn; discriminate |].
  split; [cbn; discriminate |].
  apply report_lists_the_last_five_errors; cbn; discriminate.
Defined.

Lemma ratio_percent a b :
  (0 <= a <= b)%Z -> (0 < b)%Z ->
  0 <= inject_Z a / inject_Z b * 100 /\ inject_Z a / inject_Z b * 100 <= 100.
Proof.
  intros [H0 Hab] Hb.
  assert (Hb' : 0 < inject_Z b).
  { change 0 with (inject_Z 0). rewrite <- Zlt_Qlt. exact Hb. }
  assert (Ha' : 0 <= inject_Z a).
  { change 0 with (inject_Z 0). rewrite <- Zle_Qle. exact H0. }
  assert (Hab' : inject_Z a <= inject_Z b) by (rewrite <- Zle_Qle; exact Hab).
  assert (Hlo : 0 <= inject_Z a / inject_Z b).
  { apply Qle_shift_div_l; [exact Hb' | lra]. }
  assert (Hhi : inject_Z a / inject_Z b <= 1).
  { apply Qle_shift_div_r; [exact Hb' | lra]. }
  split; lra.
Qed.

(** X4: after any sequence of calls on a fresh gun, [print_stats] returns
    without raising. If no call was answered it prints "No requests
    completed"; otherwise the success rate it shows is
    [successful / total * 100], between 0 and 100. *)
Theorem report_after_calls entered url t rnd txt net calls :
  let w := fresh_gun entered url t rnd txt net in
  exists w1 w2,
    make_requests calls w = (Return tt, w1) /\
    print_stats w1 = (Return tt, w2) /\
    match reported_success_rate (stdout w2) with
    | None =>
        count_answered (session w) calls = 0%Z /\
        stdout w2 = [LNoRequestsCompleted]
    | Some rate =>
        (0 < count_answered (session w) calls)%Z /\
        rate = inject_Z (count_succeeded (session w) calls)
               / inject_Z (len calls) * 100 /\
        0 <= rate /\ rate <= 100
    end.
Proof.
  intro w.
  destruct (make_requests_effect calls w)
    as (w1 & Hrun & Htot & _ & Hrt & Hfr).
  destruct (make_requests_counts calls w) as (Hs & _ & _).
  rewrite Hrun in Hs. cbn [snd] in Hs.
  assert (Hinit : stats w = init_stats /\ stdout w = [])
    by (subst w; destruct entered; split; reflexivity).
  destruct Hinit as [Hinit Hout]. rewrite Hinit in *.
  cbn in Htot, Hrt, Hs.
  assert (Hout1 : stdout w1 = []).
  { destruct Hfr as (_ & _ & _ & _ & Ho & _). congruence. }
  pose proof (count_succeeded_le_answered (session w) calls) as Hsa.
  pose proof (count_answered_le_len (session w) calls) as Hal.
  exists w1. destruct (response_times (stats w1)) as [| x xs] eqn:Ex.
  - exists (set_stdout (stdout w1 ++ [LNoRequestsCompleted]) w1).
    split; [exact Hrun |].
    split; [apply print_stats_without_times, Ex |].
    cbn [stdout set_stdout]. rewrite Hout1. cbn.
    unfold len in Hrt. cbn in Hrt. split; [lia | reflexivity].
  - assert (Hpos : (0 < count_answered (session w) calls)%Z).
    { unfold len in Hrt. cbn [List.length] in Hrt. lia. }
    eexists. split; [exact Hrun |]. split.
    { rewrite <- (set_stdout_same w1) at 1.
      apply (print_stats_with_times_at (stdout w1) w1 x xs Ex). lia. }
    cbn [stdout set_stdout]. rewrite Hout1. cbn.
    rewrite Hs, Htot. split; [exact Hpos |]. split; [reflexivity |].
    apply ratio_percent; lia.
Qed.

(** ** The requests of one tick *)

Lemma builder_for_times P body n :
  builder P body ->
  forall tasks w, exists new w',
    for_times n body tasks w = (Return (tasks ++ new), w') /\
    List.length new = n /\ Forall P new /\
    issued w' = (issued w + Z.of_nat n)%Z /\ now w' = now w /\
    inflight w' = inflight w /\ stats w' = stats w /\ stdout w' = stdout w.
Proof.
  intro Hb. induction n as [| n IH]; intros tasks w.
  - exists [], w. cbn [for_times]. rewrite app_nil_r.
    repeat split; [constructor | lia].
  - destruct (Hb tasks w) as (c & w1 & Hrun & HP & Hi & Hn & Hf & Hs & Ho).
    destruct (IH (tasks ++ [c]) w1)
      as (new & w2 & Hrun2 & Hlen & Hall & Hi2 & Hn2 & Hf2 & Hs2 & Ho2).
    exists (c :: new), w2. cbn [for_times].
    rewrite (bind_eq _ _ _ _ _ Hrun), Hrun2, <- app_assoc.
    split; [reflexivity |]. split; [cbn; lia |].
    split; [constructor; assumption |].
    repeat split; try congruence. lia.
Qed.

Lemma builder_for_range P body n :
  builder P body ->
  forall tasks w, exists new w',
    for_range n body tasks w = (Return (tasks ++ new), w') /\
    len new = Z.max 0 n /\ Forall P new /\
    issued w' = (issued w + Z.max 0 n)%Z /\ now w' = now w /\
    inflight w' = inflight w /\ stats w' = stats w /\ stdout w' = stdout w.
Proof.
  intros Hb tasks w. unfold for_range.
  destruct (builder_for_times P body (Z.to_nat n) Hb tasks w)
    as (new & w' & Hrun & Hlen & Hall & Hi & Hrest).
  exists new, w'. split; [exact Hrun |]. unfold len.
  split; [lia |]. split; [exact Hall |]. split; [lia | exact Hrest].
Qed.

Ltac builder_unfold :=
  intros tasks w;
  destruct w as [t url se st n fl out rnd pos txt net];
  cbv [ddos_request burst_request random_request database_query
       database_queue random_choice fake_text_call call_make_request
       time_time draw gets bind ret];
  cbn.

Ltac builder_eval :=
  do 2 eexists; split; [reflexivity |]; cbn; repeat split.

Lemma builder_ddos_request :
  builder (fun c => co_method c = "GET" /\ co_kwargs c = None) ddos_request.
Proof. builder_unfold. builder_eval. Qed.

Lemma builder_database_query :
  builder (fun c => co_endpoint c = "/database-heavy?queries=100" /\
                    co_method c = "GET" /\ co_kwargs c = None)
          database_query.
Proof. builder_unfold. builder_eval. Qed.

Lemma builder_database_queue :
  builder (fun c => co_endpoint c = "/queue-task" /\ co_method c = "POST" /\
                    co_kwargs c <> None)
          database_queue.
Proof. builder_unfold. builder_eval. discriminate. Qed.

Lemma builder_burst_request : builder well_shaped burst_request.
Proof.
  builder_unfold.
  destruct (String.eqb _ "/queue-task") eqn:E; builder_eval;
    unfold well_shaped; cbn; rewrite E; split; congruence.
Qed.

Lemma builder_random_request : builder well_shaped random_request.
Proof.
  builder_unfold.
  destruct (String.eqb _ "/queue-task") eqn:E; builder_eval;
    unfold well_shaped; cbn; rewrite E; split; congruence.
Qed.

(** ** The loop of the DDoS attack *)

Lemma Qltb_false a b : Qltb a b = false -> b <= a.
Proof.
  unfold Qltb. intro H. apply negb_false_iff in H.
  apply Qle_bool_iff, H.
Qed.

(** A loop that returns has just seen its test fail. *)
Lemma while_exit {S} fuel (cond : M bool) (body : S -> M S) :
  forall s w s' w',
    while fuel cond body s w = (Return s', w') ->
    exists w0, cond w0 = (Return false, w').
Proof.
  induction fuel as [| fuel IH]; intros s w s' w' H.
  - discriminate.
  - cbn [while] in H. apply bind_Return in H.
    destruct H as (b & w1 & Hc & H). destruct b.
    + inv_bind H. eapply IH. exact H.
    + inversion H; subst. exists w. exact Hc.
Qed.

Lemma ddos_tick_effect rps tasks w :
  inflight w = [] ->
  exists new w',
    ddos_tick rps tasks w = (Return (tasks ++ new), w') /\
    len new = Z.max 0 (rps / 10) /\
    Forall (fun c => co_method c = "GET" /\ co_kwargs c = None) new /\
    issued w' = (issued w + Z.max 0 (rps / 10))%Z /\
    stats w' = stats w /\ inflight w' = [] /\ stdout w' = stdout w.
Proof.
  intro Hidle. unfold ddos_tick.
  destruct (builder_for_range _ _ (rps / 10)%Z builder_ddos_request [] w)
    as (new & w1 & Hrun & Hlen & Hall & Hi & Hn & Hf & Hs & Ho).
  assert (Hidle1 : inflight w1 = []) by congruence.
  exists new, (set_now (now w1 + Qmax 0 (1 # 10)) w1).
  rewrite (bind_eq _ _ _ _ _ Hrun). cbv zeta. cbn [app].
  rewrite (bind_eq _ _ _ _ _ (sleep_idle _ _ Hidle1)).
  split; [reflexivity |]. cbn. repeat split; assumption.
Qed.

(** X5: the DDoS attack sends nothing while its loop runs. When the attack
    returns, its loop has ended at or after the deadline with the
    statistics untouched, having only made the coroutine objects (all plain
    GET requests); every one of them is run by the single [gather] that
    follows, and the statistics then count them all. *)
Theorem ddos_sends_after_the_deadline fuel duration rps w w' :
  inflight w = [] ->
  ddos_attack fuel duration rps w = (Return tt, w') ->
  exists tasks w_loop,
    while fuel (before (now w + inject_Z duration)) (ddos_tick rps) []
      (set_stdout (stdout w ++ [LDdosStart rps duration]) w)
      = (Return tasks, w_loop) /\
    now w + inject_Z duration <= now w_loop /\
    stats w_loop = stats w /\
    issued w_loop = (issued w + len tasks)%Z /\
    Forall (fun c => co_method c = "GET" /\ co_kwargs c = None) tasks /\
    total_requests (stats w') = (total_requests (stats w) + len tasks)%Z /\
    issued w' = issued w_loop.
Proof.
  intros Hidle Hrun. unfold ddos_attack in Hrun.
  rewrite (bind_eq (print _) _ w tt _ eq_refl) in Hrun.
  set (w1 := set_stdout (stdout w ++ [LDdosStart rps duration]) w) in *.
  rewrite (bind_eq time_time _ w1 (now w1) w1 eq_refl) in Hrun.
  change (now w1) with (now w) in Hrun.
  apply bind_Return in Hrun. destruct Hrun as (tasks & wl & Hloop & Hrun).
  exists tasks, wl. split; [exact Hloop |].
  assert (Hinv : stats wl = stats w /\ inflight wl = [] /\
                 issued wl = (issued w + len tasks)%Z /\
                 Forall (fun c => co_method c = "GET" /\ co_kwargs c = None)
                        tasks).
  { apply (while_invariant
             (fun s v => stats v = stats w /\ inflight v = [] /\
                         issued v = (issued w + len s)%Z /\
                         Forall (fun c => co_method c = "GET" /\
                                          co_kwargs c = None) s)
             (before (now w + inject_Z duration)) (ddos_tick rps))
      with (fuel := fuel) (s := @nil Coro) (w := w1); [| | | exact Hloop].
    - intros s v b v' HP Hc. inversion Hc; subst. exact HP.
    - intros s v s' v' (Hs & Hf & Hi & Hall) Hb.
      destruct (ddos_tick_effect rps s v Hf)
        as (new & v1 & Hrun1 & Hlen & Hnew & Hi1 & Hs1 & Hf1 & _).
      rewrite Hrun1 in Hb. inversion Hb; subst.
      split; [congruence |]. split; [exact Hf1 |].
      split; [| apply Forall_app; split; assumption].
      unfold len in *. rewrite length_app. lia.
    - subst w1. cbn. unfold len. cbn. repeat split; try assumption; try lia.
      constructor. }
  destruct Hinv as (Hs & Hf & Hi & Hall).
  split.
  { destruct (while_exit _ _ _ _ _ _ _ Hloop) as (w0 & Hc).
    inversion Hc as [[Hb Hw0]]. subst w0. apply Qltb_false, Hb. }
  split; [exact Hs |]. split; [exact Hi |]. split; [exact Hall |].
  destruct (gather_effect tasks wl Hf) as (rs & wg & Hg & Htot & Hig & _).
  rewrite (bind_eq _ _ _ _ _ Hg) in Hrun.
  pose proof (quiet_print_stats _ _ _ Hrun) as Hq.
  inversion Hq as [[Hqf Hqi Hqs]].
  rewrite Hqs, Hqi, Htot, Hs. split; [reflexivity | exact Hig].
Qed.

Lemma ddos_sends_after_the_deadline_witness :
  let w := example_gun flaky in
  let w' := snd (ddos_attack 12 1 30 w) in
  inflight w = [] /\
  ddos_attack 12 1 30 w = (Return tt, w') /\
  exists tasks w_loop,
    while 12 (before (now w + inject_Z 1)) (ddos_tick 30) []
      (set_stdout (stdout w ++ [LDdosStart 30 1]) w)
      = (Return tasks, w_loop) /\
    now w + inject_Z 1 <= now w_loop /\
    stats w_loop = stats w /\
    issued w_loop = (issued w + len tasks)%Z /\
    Forall (fun c => co_method c = "GET" /\ co_kwargs c = None) tasks /\
    total_requests (stats w') = (total_requests (stats w) + len tasks)%Z /\
    issued w' = issued w_loop.
Proof.
  cbv zeta.
  assert (Hidle : inflight (example_gun flaky) = []) by reflexivity.
  assert (Hrun : ddos_attack 12 1 30 (example_gun flaky)
                 = (Return tt, snd (ddos_attack 12 1 30 (example_gun flaky))))
    by (vm_compute; reflexivity).
  split; [exact Hidle |]. split; [exact Hrun |].
  exact (ddos_sends_after_the_deadline 12 1 30 (example_gun flaky) _
           Hidle Hrun).
Defined.

(** ** The bursts of the Burst attack *)

Lemma count_firing_app out out' :
  count_firing (out ++ out') = (count_firing out + count_firing out')%Z.
Proof.
  unfold count_firing, len. rewrite filter_app, length_app. lia.
Qed.

Lemma count_firing_errors l : count_firing (map LError l) = 0%Z.
Proof. induction l as [| e l IH]; [reflexivity | exact IH]. Qed.

Lemma count_firing_error_lines errs : count_firing (error_lines errs) = 0%Z.
Proof.
  unfold error_lines. destruct (is_empty errs); [reflexivity |].
  change (LRecentErrors (len errs) :: map LError (last5 errs))
    with ([LRecentErrors (len errs)] ++ map LError (last5 errs)).
  rewrite count_firing_app, count_firing_errors. reflexivity.
Qed.

Lemma print_stats_division_by_zero w x xs :
  response_times (stats w) = x :: xs ->
  total_requests (stats w) = 0%Z ->
  print_stats w = (Raise ZeroDivisionError, w).
Proof.
  intros Hrts Htot. unfold print_stats.
  rewrite (bind_eq (gets stats) _ w (stats w) w eq_refl).
  rewrite Hrts, Htot. reflexivity.
Qed.

(** [print_stats] prints no "Firing burst" line. *)
Lemma print_stats_firing w w' :
  print_stats w = (Return tt, w') ->
  count_firing (stdout w') = count_firing (stdout w).
Proof.
  intro H. destruct (response_times (stats w)) as [| x xs] eqn:Ex.
  - rewrite (print_stats_without_times w Ex) in H. inversion H; subst.
    cbn [stdout set_stdout]. rewrite count_firing_app. cbn. lia.
  - destruct (Z.eq_dec (total_requests (stats w)) 0) as [E0 | Hnz].
    + rewrite (print_stats_division_by_zero w x xs Ex E0) in H. discriminate.
    + rewrite <- (set_stdout_same w) in H at 1.
      rewrite (print_stats_with_times_at (stdout w) w x xs Ex Hnz) in H.
      inversion H; subst. cbn [stdout set_stdout].
      rewrite count_firing_app.
      pose proof (count_firing_error_lines (errors (stats w))) as He.
      unfold count_firing in *. cbn [filter]. rewrite He. lia.
Qed.

Lemma burst_tick_effect burst_size interval u w :
  inflight w = [] ->
  exists tasks w',
    burst_tick burst_size interval u w = (Return tt, w') /\
    len tasks = Z.max 0 burst_size /\ Forall well_shaped tasks /\
    issued w' = (issued w + Z.max 0 burst_size)%Z /\
    total_requests (stats w') =
      (total_requests (stats w) + Z.max 0 burst_size)%Z /\
    inflight w' = [] /\
    stdout w' = stdout w ++ [LFiring burst_size].
Proof.
  intro Hidle. unfold burst_tick.
  rewrite (bind_eq (print _) _ w tt _ eq_refl).
  set (w0 := set_stdout (stdout w ++ [LFiring burst_size]) w).
  destruct (builder_for_range _ _ burst_size builder_burst_request [] w0)
    as (tasks & w1 & Hrun1 & Hlen & Hall & Hi1 & Hn1 & Hf1 & Hs1 & Ho1).
  cbn [app] in Hrun1. rewrite (bind_eq _ _ _ _ _ Hrun1).
  assert (Hidle1 : inflight w1 = []) by (rewrite Hf1; exact Hidle).
  destruct (gather_effect tasks w1 Hidle1)
    as (rs & w2 & Hrun2 & Htot2 & Hi2 & Hf2 & Ho2).
  rewrite (bind_eq _ _ _ _ _ Hrun2), (sleep_idle _ _ Hf2).
  exists tasks. eexists. split; [reflexivity |].
  split; [exact Hlen |]. split; [exact Hall |].
  cbn [issued stats inflight stdout set_now].
  rewrite Hi2, Hi1, Htot2, Hs1, Hlen, Ho2, Ho1.
  subst w0. cbn. repeat split; try reflexivity. exact Hf2.
Qed.

(** X6: every "Firing burst" line of a Burst attack stands for exactly
    [burst_size] requests (none when [burst_size] is negative), all of them
    made and recorded before the next line: when the attack returns, the
    requests made and the outcomes recorded both grew by [burst_size] times
    the number of bursts announced. *)
Theorem burst_attack_counts fuel burst_size interval duration w w' :
  inflight w = [] ->
  burst_attack fuel burst_size interval duration w = (Return tt, w') ->
  let bursts := (count_firing (stdout w') - count_firing (stdout w))%Z in
  (0 <= bursts)%Z /\
  issued w' = (issued w + Z.max 0 burst_size * bursts)%Z /\
  total_requests (stats w') =
    (total_requests (stats w) + Z.max 0 burst_size * bursts)%Z.
Proof.
  intros Hidle Hrun bursts. unfold burst_attack in Hrun.
  rewrite (bind_eq (print _) _ w tt _ eq_refl) in Hrun.
  set (w1 := set_stdout
               (stdout w ++ [LBurstStart burst_size interval duration]) w)
    in *.
  rewrite (bind_eq time_time _ w1 (now w1) w1 eq_refl) in Hrun.
  apply bind_Return in Hrun. destruct Hrun as (u & wl & Hloop & Hrun).
  set (P := fun (_ : unit) v =>
              inflight v = [] /\
              (0 <= count_firing (stdout v) - count_firing (stdout w))%Z /\
              issued v = (issued w + Z.max 0 burst_size *
                (count_firing (stdout v) - count_firing (stdout w)))%Z /\
              total_requests (stats v) =
                (total_requests (stats w) + Z.max 0 burst_size *
                  (count_firing (stdout v) - count_firing (stdout w)))%Z).
  assert (Hinv : P u wl).
  { apply (while_invariant P (before (now w1 + inject_Z duration))
             (burst_tick burst_size interval))
      with (fuel := fuel) (s := tt) (w := w1); [| | | exact Hloop].
    - intros s v b v' HP Hc. inversion Hc; subst. exact HP.
    - intros s v s' v' (Hf & H0 & Hi & Ht) Hb.
      destruct (burst_tick_effect burst_size interval s v Hf)
        as (tasks & v1 & Hrun1 & _ & _ & Hi1 & Ht1 & Hf1 & Ho1).
      rewrite Hrun1 in Hb. inversion Hb; subst.
      unfold P. rewrite Ho1, count_firing_app, Hi1, Ht1, Hi, Ht.
      change (count_firing [LFiring burst_size]) with 1%Z.
      split; [exact Hf1 |]. split; [lia |]. split; lia.
    - unfold P. subst w1. cbn [inflight stdout issued stats set_stdout].
      rewrite count_firing_app.
      change (count_firing [LBurstStart burst_size interval duration])
        with 0%Z.
      split; [exact Hidle |]. split; [lia |]. split; lia. }
  destruct Hinv as (Hf & H0 & Hi & Ht).
  pose proof (quiet_print_stats _ _ _ Hrun) as Hq.
  inversion Hq as [[Hqf Hqi Hqs]].
  pose proof (print_stats_firing _ _ Hrun) as Hfire.
  subst bursts. rewrite Hfire, Hqs, Hqi. split; [exact H0 |].
  split; [exact Hi | exact Ht].
Qed.

Lemma burst_attack_counts_witness :
  let w := example_gun flaky in
  let w' := snd (burst_attack 10 3 1 2 w) in
  let bursts := (count_firing (stdout w') - count_firing (stdout w))%Z in
  inflight w = [] /\
  burst_attack 10 3 1 2 w = (Return tt, w') /\
  (0 <= bursts)%Z /\
  issued w' = (issued w + Z.max 0 3 * bursts)%Z /\
  total_requests (stats w') =
    (total_requests (stats w) + Z.max 0 3 * bursts)%Z.
Proof.
  cbv zeta.
  assert (Hidle : inflight (example_gun flaky) = []) by reflexivity.
  assert (Hrun : burst_attack 10 3 1 2 (example_gun flaky)
                 = (Return tt, snd (burst_attack 10 3 1 2 (example_gun flaky))))
    by (vm_compute; reflexivity).
  split; [exact Hidle |]. split; [exact Hrun |].
  exact (burst_attack_counts 10 3 1 2 (example_gun flaky) _ Hidle Hrun).
Defined.

(** ** The batches of the Database attack *)

(** What one tick of the Database attack does, step by step. *)
Lemma database_tick_effect u w :
  inflight w = [] ->
  exists queries queues w1 rs w2 w',
    (tasks <- for_range 50 database_query [] ;;
     for_range 20 database_queue tasks) w
      = (Return (queries ++ queues), w1) /\
    gather (queries ++ queues) w1 = (Return rs, w2) /\
    sleep (1 # 2) w2 = (Return tt, w') /\
    database_tick u w = (Return tt, w') /\
    List.length queries = 50%nat /\ List.length queues = 20%nat /\
    Forall (fun c => co_endpoint c = "/database-heavy?queries=100" /\
                     co_method c = "GET" /\ co_kwargs c = None) queries /\
    Forall (fun c => co_endpoint c = "/queue-task" /\ co_method c = "POST" /\
                     co_kwargs c <> None) queues /\
    issued w' = (issued w + 70)%Z /\
    total_requests (stats w') = (total_requests (stats w) + 70)%Z /\
    inflight w' = [].
Proof.
  intro Hidle.
  destruct (builder_for_times _ _ 50 builder_database_query [] w)
    as (queries & wa & Hrun1 & Hlen1 & Hall1 & Hi1 & Hn1 & Hf1 & Hs1 & Ho1).
  cbn [app] in Hrun1.
  destruct (builder_for_times _ _ 20 builder_database_queue queries wa)
    as (queues & w1 & Hrun2 & Hlen2 & Hall2 & Hi2 & Hn2 & Hf2 & Hs2 & Ho2).
  assert (Hidle1 : inflight w1 = []) by congruence.
  destruct (gather_effect (queries ++ queues) w1 Hidle1)
    as (rs & w2 & Hrun3 & Htot3 & Hi3 & Hf3 & Ho3).
  exists queries, queues, w1, rs, w2, (set_now (now w2 + Qmax 0 (1 # 2)) w2).
  assert (Hbuild : (tasks <- for_range 50 database_query [] ;;
                    for_range 20 database_queue tasks) w
                   = (Return (queries ++ queues), w1)).
  { unfold for_range. change (Z.to_nat 50) with 50%nat.
    change (Z.to_nat 20) with 20%nat.
    rewrite (bind_eq _ _ _ _ _ Hrun1). exact Hrun2. }
  split; [exact Hbuild |]. split; [exact Hrun3 |].
  split; [apply sleep_idle, Hf3 |].
  split.
  { unfold database_tick. unfold for_range in *.
    change (Z.to_nat 50) with 50%nat in *.
    change (Z.to_nat 20) with 20%nat in *.
    rewrite (bind_eq _ _ _ _ _ Hrun1), (bind_eq _ _ _ _ _ Hrun2),
      (bind_eq _ _ _ _ _ Hrun3).
    apply sleep_idle, Hf3. }
  split; [exact Hlen1 |]. split; [exact Hlen2 |].
  split; [exact Hall1 |]. split; [exact Hall2 |].
  cbn [issued stats inflight set_now].
  unfold len in Htot3. rewrite length_app, Hlen1, Hlen2 in Htot3.
  rewrite Hi3, Hi2, Hi1, Htot3, Hs2, Hs1.
  split; [lia |]. split; [lia | exact Hf3].
Qed.

(** X7: one tick of the Database attack always returns. It gathers one
    batch of 70 requests: first 50 plain GET requests to
    [/database-heavy?queries=100], then 20 POST requests with a body to
    [/queue-task]; all 70 are recorded before the tick sleeps. *)
Theorem database_tick_batch u w :
  inflight w = [] ->
  exists queries queues w1 rs w2 w',
    (tasks <- for_range 50 database_query [] ;;
     for_range 20 database_queue tasks) w
      = (Return (queries ++ queues), w1) /\
    gather (queries ++ queues) w1 = (Return rs, w2) /\
    sleep (1 # 2) w2 = (Return tt, w') /\
    database_tick u w = (Return tt, w') /\
    List.length queries = 50%nat /\ List.length queues = 20%nat /\
    Forall (fun c => co_endpoint c = "/database-heavy?queries=100" /\
                     co_method c = "GET" /\ co_kwargs c = None) queries /\
    Forall (fun c => co_endpoint c = "/queue-task" /\ co_method c = "POST" /\
                     co_kwargs c <> None) queues /\
    issued w' = (issued w + 70)%Z /\
    total_requests (stats w') = (total_requests (stats w) + 70)%Z /\
    inflight w' = [].
Proof. exact (database_tick_effect u w). Qed.

Lemma database_tick_batch_witness :
  let w := example_gun flaky in
  inflight w = [] /\
  exists queries queues w1 rs w2 w',
    (tasks <- for_range 50 database_query [] ;;
     for_range 20 database_queue tasks) w
      = (Return (queries ++ queues), w1) /\
    gather (queries ++ queues) w1 = (Return rs, w2) /\
    sleep (1 # 2) w2 = (Return tt, w') /\
    database_tick tt w = (Return tt, w') /\
    List.length queries = 50%nat /\ List.length queues = 20%nat /\
    Forall (fun c => co_endpoint c = "/database-heavy?queries=100" /\
                     co_method c = "GET" /\ co_kwargs c = None) queries /\
    Forall (fun c => co_endpoint c = "/queue-task" /\ co_method c = "POST" /\
                     co_kwargs c <> None) queues /\
    issued w' = (issued w + 70)%Z /\
    total_requests (stats w') = (total_requests (stats w) + 70)%Z /\
    inflight w' = [].
Proof.
  cbv zeta. split; [reflexivity |].
  apply (database_tick_batch tt (example_gun flaky)). reflexivity.
Defined.

(** X8: a Database attack makes its requests 70 at a time: when it
    returns, the requests made and the outcomes recorded both grew by the
    same multiple of 70. *)
Theorem database_attack_counts fuel duration w w' :
  inflight w = [] ->
  database_attack fuel duration w = (Return tt, w') ->
  exists ticks,
    (0 <= ticks)%Z /\
    issued w' = (issued w + 70 * ticks)%Z /\
    total_requests (stats w') = (total_requests (stats w) + 70 * ticks)%Z.
Proof.
  intros Hidle Hrun. unfold database_attack in Hrun.
  rewrite (bind_eq (print _) _ w tt _ eq_refl) in Hrun.
  set (w1 := set_stdout (stdout w ++ [LDatabaseStart duration]) w) in *.
  rewrite (bind_eq time_time _ w1 (now w1) w1 eq_refl) in Hrun.
  apply bind_Return in Hrun. destruct Hrun as (u & wl & Hloop & Hrun).
  set (P := fun (_ : unit) v =>
              inflight v = [] /\
              exists ticks,
                (0 <= ticks)%Z /\
                issued v = (issued w + 70 * ticks)%Z /\
                total_requests (stats v) =
                  (total_requests (stats w) + 70 * ticks)%Z).
  assert (Hinv : P u wl).
  { apply (while_invariant P (before (now w1 + inject_Z duration))
             database_tick)
      with (fuel := fuel) (s := tt) (w := w1); [| | | exact Hloop].
    - intros s v b v' HP Hc. inversion Hc; subst. exact HP.
    - intros s v s' v' (Hf & k & H0 & Hi & Ht) Hb.
      destruct (database_tick_effect s v Hf)
        as (qs & qq & va & rs & vb & v1 & _ & _ & _ & Hrun1 & _ & _ & _ & _
            & Hi1 & Ht1 & Hf1).
      rewrite Hrun1 in Hb. inversion Hb; subst.
      split; [exact Hf1 |]. exists (k + 1)%Z. split; [lia |]. split; lia.
    - split; [exact Hidle |]. exists 0%Z. subst w1. cbn.
      split; [lia |]. split; lia. }
  destruct Hinv as (Hf & k & H0 & Hi & Ht).
  pose proof (quiet_print_stats _ _ _ Hrun) as Hq.
  inversion Hq as [[Hqf Hqi Hqs]].
  exists k. rewrite Hqs, Hqi. split; [exact H0 |]. split; assumption.
Qed.

Lemma database_attack_counts_witness :
  let w := example_gun flaky in
  let w' := snd (database_attack 10 1 w) in
  inflight w = [] /\
  database_attack 10 1 w = (Return tt, w') /\
  exists ticks,
    (0 <= ticks)%Z /\
    issued w' = (issued w + 70 * ticks)%Z /\
    total_requests (stats w') = (total_requests (stats w) + 70 * ticks)%Z.
Proof.
  cbv zeta.
  assert (Hidle : inflight (example_gun flaky) = []) by reflexivity.
  assert (Hrun : database_attack 10 1 (example_gun flaky)
                 = (Return tt, snd (database_attack 10 1 (example_gun flaky))))
    by (vm_compute; reflexivity).
  split; [exact Hidle |]. split; [exact Hrun |].
  exact (database_attack_counts 10 1 (example_gun flaky) _ Hidle Hrun).
Defined.

(** ** The ticks of the Random attack *)

Lemma bind_Raise {A B} (c : M A) (k : A -> M B) w e w1 :
  c w = (Raise e, w1) -> bind c k w = (Raise e, w1).
Proof. unfold bind. intros ->. reflexivity. Qed.

Lemma gather_from_latest s tasks : forall latest w o l w',
  gather_from s tasks latest w = (o, l, w') -> latest <= l.
Proof.
  induction tasks as [| c tasks IH]; intros latest w o l w' H.
  - inversion H. apply Qle_refl.
  - cbn [gather_from] in H.
    destruct (run_coro c (set_now s w)) as [o1 wa].
    destruct o1 as [r | e |].
    + destruct (gather_from s tasks (Qmax latest (now wa)) wa)
        as [[os l2] w2] eqn:E2.
      inversion H; subst. apply IH in E2.
      eapply Qle_trans; [apply Q.le_max_l | exact E2].
    + destruct (gather_from s tasks (Qmax latest (now wa)) wa)
        as [[os l2] w2] eqn:E2.
      inversion H; subst. apply IH in E2.
      eapply Qle_trans; [apply Q.le_max_l | exact E2].
    + inversion H; subst. apply Q.le_max_l.
Qed.

(** The clock does not go back while the driver waits in a [gather]. *)
Lemma gather_clock tasks w o w' :
  inflight w = [] -> gather tasks w = (o, w') -> now w <= now w'.
Proof.
  intros Hidle H. unfold gather in H.
  destruct (gather_from_effect (now w) tasks (now w) w)
    as (rs & l & w1 & Hrun & _ & _ & Hf & _).
  pose proof (gather_from_latest _ _ _ _ _ _ _ Hrun) as Hl.
  rewrite Hrun in H. rewrite settle_idle in H by (cbn; congruence).
  inversion H; subst. exact Hl.
Qed.

(** X9: with [0 <= max_rps], one tick of the Random attack always returns.
    It draws a number [n] between 0 and [max_rps], makes [n] coroutines
    without recording anything, gathers them when [n > 0], and only then
    draws the time to sleep, between 0.1 and 2 seconds, and sleeps: the [n]
    requests are all recorded in the state in which the sleep starts, and
    the sleep records nothing more. *)
Theorem random_tick_bounded max_rps u w :
  (0 <= max_rps)%Z ->
  inflight w = [] ->
  exists n w0 tasks w1 w2 d w3 w',
    random_randint0 max_rps w = (Return n, w0) /\
    n = (Z.of_nat (rand w (rand_pos w)) mod (max_rps + 1))%Z /\
    (0 <= n <= max_rps)%Z /\
    for_range n random_request [] w0 = (Return tasks, w1) /\
    len tasks = n /\ Forall well_shaped tasks /\
    stats w1 = stats w /\
    (if (n >? 0)%Z then exists rs, gather tasks w1 = (Return rs, w2)
     else w2 = w1) /\
    issued w2 = (issued w + n)%Z /\
    total_requests (stats w2) = (total_requests (stats w) + n)%Z /\
    inflight w2 = [] /\
    random_uniform (1 # 10) 2 w2 = (Return d, w3) /\
    (1 # 10) <= d /\ d <= 2 /\
    sleep d w3 = (Return tt, w') /\
    random_tick max_rps u w = (Return tt, w') /\
    stats w' = stats w2 /\
    now w' == now w2 + d /\
    issued w' = (issued w + n)%Z /\
    total_requests (stats w') = (total_requests (stats w) + n)%Z /\
    inflight w' = [] /\
    now w + (1 # 10) <= now w'.
Proof.
  intros Hm Hidle.
  set (n := (Z.of_nat (rand w (rand_pos w)) mod (max_rps + 1))%Z).
  assert (Hn : (0 <= n <= max_rps)%Z).
  { subst n. pose proof (Z.mod_pos_bound (Z.of_nat (rand w (rand_pos w)))
                           (max_rps + 1)). lia. }
  set (w0 := set_rand_pos (Datatypes.S (rand_pos w)) w).
  assert (Hdraw : random_randint0 max_rps w = (Return n, w0)).
  { unfold random_randint0. destruct (Z.ltb_spec max_rps 0); [lia |].
    reflexivity. }
  destruct (builder_for_range _ _ n builder_random_request [] w0)
    as (tasks & w1 & Hrun1 & Hlen & Hall & Hi1 & Hn1 & Hf1 & Hs1 & _).
  cbn [app] in Hrun1.
  assert (Hlen' : len tasks = n) by lia.
  assert (Hidle1 : inflight w1 = []) by (rewrite Hf1; exact Hidle).
  assert (Hmid : exists w2,
             (if (n >? 0)%Z then exists rs, gather tasks w1 = (Return rs, w2)
              else w2 = w1) /\
             (if (n >? 0)%Z
              then tasks <- for_range n random_request [] ;;
                   gather tasks ;; ret tt
              else ret tt) w0 = (Return tt, w2) /\
             issued w2 = (issued w + n)%Z /\
             total_requests (stats w2) = (total_requests (stats w) + n)%Z /\
             inflight w2 = [] /\ now w <= now w2).
  { destruct (Z.gtb_spec n 0) as [Hpos | Hzero].
    - destruct (gather_effect tasks w1 Hidle1)
        as (rs & w2 & Hrun2 & Htot2 & Hi2 & Hf2 & _).
      exists w2. split; [exists rs; exact Hrun2 |].
      rewrite (bind_eq _ _ _ _ _ Hrun1), (bind_eq _ _ _ _ _ Hrun2).
      split; [reflexivity |].
      rewrite Hi2, Hi1, Htot2, Hs1, Hlen'.
      split; [subst w0; cbn; lia |]. split; [subst w0; cbn; lia |].
      split; [exact Hf2 |].
      pose proof (gather_clock _ _ _ _ Hidle1 Hrun2) as Hc.
      rewrite Hn1 in Hc. exact Hc.
    - exists w1. split; [reflexivity |].
      assert (Hn0 : n = 0%Z) by lia.
      assert (Hw1 : w1 = w0).
      { rewrite Hn0 in Hrun1. inversion Hrun1. reflexivity. }
      rewrite Hw1. split; [reflexivity |]. subst w0. cbn.
      split; [lia |]. split; [lia |]. split; [exact Hidle | apply Qle_refl]. }
  destruct Hmid as (w2 & Hgather & Hrun2 & Hi2 & Ht2 & Hf2 & Hn2).
  set (r := rand w2 (rand_pos w2)).
  set (d := (1 # 10) + (2 - (1 # 10)) * (Z.of_nat (r mod 1001) # 1000)).
  set (w3 := set_rand_pos (Datatypes.S (rand_pos w2)) w2).
  assert (Hd : (1 # 10) <= d /\ d <= 2).
  { subst d.
    assert (Hr : (r mod 1001 < 1001)%nat)
      by (apply Nat.mod_upper_bound; discriminate).
    assert (0 <= Z.of_nat (r mod 1001) # 1000) by (unfold Qle; cbn; lia).
    assert (Z.of_nat (r mod 1001) # 1000 <= 1)
      by (unfold Qle; cbn [Qnum Qden]; lia).
    split; nra. }
  destruct Hd as [Hd1 Hd2].
  assert (Hsleep : sleep d w3 = (Return tt, set_now (now w3 + Qmax 0 d) w3)).
  { apply sleep_idle. subst w3. cbn. exact Hf2. }
  exists n, w0, tasks, w1, w2, d, w3, (set_now (now w3 + Qmax 0 d) w3).
  split; [exact Hdraw |]. split; [reflexivity |]. split; [exact Hn |].
  split; [exact Hrun1 |]. split; [exact Hlen' |]. split; [exact Hall |].
  split; [rewrite Hs1; reflexivity |]. split; [exact Hgather |].
  split; [exact Hi2 |]. split; [exact Ht2 |]. split; [exact Hf2 |].
  split; [reflexivity |]. split; [exact Hd1 |]. split; [exact Hd2 |].
  split; [exact Hsleep |].
  split.
  { unfold random_tick. rewrite (bind_eq _ _ _ _ _ Hdraw).
    rewrite (bind_eq _ _ _ _ _ Hrun2).
    rewrite (bind_eq (random_uniform (1 # 10) 2) _ w2 d w3 eq_refl).
    exact Hsleep. }
  subst w3. cbn [issued stats inflight now set_now set_rand_pos].
  split; [reflexivity |].
  split; [rewrite (Q.max_r 0 d) by lra; reflexivity |].
  split; [exact Hi2 |]. split; [exact Ht2 |]. split; [exact Hf2 |].
  rewrite (Q.max_r 0 d) by lra. lra.
Qed.

Lemma random_tick_bounded_witness :
  let w := fresh_gun true "http://localhost:8000" 0 (fun k => (k + 3)%nat)
             (fun _ => "lorem") flaky in
  (0 <= 4)%Z /\
  inflight w = [] /\
  exists n w0 tasks w1 w2 d w3 w',
    random_randint0 4 w = (Return n, w0) /\
    n = (Z.of_nat (rand w (rand_pos w)) mod (4 + 1))%Z /\
    (0 <= n <= 4)%Z /\
    for_range n random_request [] w0 = (Return tasks, w1) /\
    len tasks = n /\ Forall well_shaped tasks /\
    stats w1 = stats w /\
    (if (n >? 0)%Z then exists rs, gather tasks w1 = (Return rs, w2)
     else w2 = w1) /\
    issued w2 = (issued w + n)%Z /\
    total_requests (stats w2) = (total_requests (stats w) + n)%Z /\
    inflight w2 = [] /\
    random_uniform (1 # 10) 2 w2 = (Return d, w3) /\
    (1 # 10) <= d /\ d <= 2 /\
    sleep d w3 = (Return tt, w') /\
    random_tick 4 tt w = (Return tt, w') /\
    stats w' = stats w2 /\
    now w' == now w2 + d /\
    issued w' = (issued w + n)%Z /\
    total_requests (stats w') = (total_requests (stats w) + n)%Z /\
    inflight w' = [] /\
    now w + (1 # 10) <= now w'.
Proof.
  cbv zeta. split; [lia |]. split; [reflexivity |].
  apply (random_tick_bounded 4 tt); [lia | reflexivity].
Defined.



(** ** The ticks of the Sustained attack *)

Lemma finish_keeps s c w :
  let w' := snd (finish s c w) in
  now w' = now w /\ issued w' = issued w /\ stdout w' = stdout w /\
  (sound (stats w) -> sound (stats w')).
Proof.
  cbv zeta. unfold finish, run_coro.
  destruct (make_request_effect (co_endpoint c) (co_method c) (co_kwargs c)
              (co_net c) (set_now s w)) as (res & w1 & Hrun & _ & _ & _ & Hfr).
  destruct Hfr as (_ & _ & Hi & _ & Ho & _).
  rewrite Hrun. cbn [snd now issued stdout stats set_now].
  split; [reflexivity |]. split; [exact Hi |]. split; [exact Ho |].
  intro Hs.
  destruct (make_request_sound (co_endpoint c) (co_method c) (co_kwargs c)
              (co_net c) (set_now s w) Hs) as (res' & w1' & Hrun' & Hs' & _).
  rewrite Hrun in Hrun'. inversion Hrun'; subst. exact Hs'.
Qed.

Lemma settle_list_keeps l : forall w,
  let w' := snd (settle_list l w) in
  now w' = now w /\ issued w' = issued w /\ stdout w' = stdout w /\
  (sound (stats w) -> sound (stats w')).
Proof.
  induction l as [| [s c] l IH]; intro w; cbv zeta; cbn [settle_list].
  - cbn. tauto.
  - destruct (Qle_bool (s + net_time (co_net c)) (now w)).
    + destruct (finish_keeps s c w) as (Hn & Hi & Ho & Hs).
      destruct (IH (snd (finish s c w))) as (Hn2 & Hi2 & Ho2 & Hs2).
      split; [congruence |]. split; [congruence |]. split; [congruence |].
      intro H. apply Hs2, Hs, H.
    + destruct (IH w) as (Hn2 & Hi2 & Ho2 & Hs2).
      destruct (settle_list l w) as [keep w2]. cbn [snd] in *.
      split; [exact Hn2 |]. split; [exact Hi2 |].
      split; [exact Ho2 | exact Hs2].
Qed.

Lemma settle_keeps w :
  now (settle w) = now w /\ issued (settle w) = issued w /\
  stdout (settle w) = stdout w /\
  (sound (stats w) -> sound (stats (settle w))).
Proof.
  unfold settle. pose proof (settle_list_keeps (inflight w) w) as H.
  destruct (settle_list (inflight w) w) as [keep w']. cbn [snd] in H.
  cbn. exact H.
Qed.

(** X11: one tick of the Sustained attack always returns, whatever the
    interval. It makes exactly one request, a GET without body to one of
    its four endpoints, starts it with [asyncio.create_task] at the time of
    the tick and does not await it: when the tick goes to sleep the task is
    in flight and the statistics are as they were. No time passes between
    the two clock readings of the tick, so it sleeps [max(0, interval)]
    seconds; with an interval of zero or less it sleeps 0 seconds and the
    clock does not move. *)
Theorem sustained_tick_fires_and_forgets interval u w :
  exists c w1 d w',
    In (co_endpoint c)
       ["/cpu-intensive?n=500000"; "/memory-intensive?size_mb=25";
        "/database-heavy?queries=25"; "/slow-endpoint?delay=1.0"] /\
    co_method c = "GET" /\ co_kwargs c = None /\
    co_net c = network w (issued w) /\
    issued w1 = (issued w + 1)%Z /\
    inflight w1 = inflight w ++ [(now w, c)] /\
    stats w1 = stats w /\ now w1 = now w /\ stdout w1 = stdout w /\
    d == Qmax 0 interval /\
    sleep d w1 = (Return tt, w') /\
    sustained_tick interval u w = (Return tt, w') /\
    issued w' = (issued w + 1)%Z /\ stdout w' = stdout w /\
    (interval <= 0 -> now w' == now w).
Proof.
  set (r := rand w (rand_pos w)).
  set (l := ["/cpu-intensive?n=500000"; "/memory-intensive?size_mb=25";
             "/database-heavy?queries=25"; "/slow-endpoint?delay=1.0"]).
  set (c := {| co_endpoint := nth (r mod 4) l "/cpu-intensive?n=500000";
               co_method := "GET"; co_kwargs := None;
               co_net := network w (issued w) |}).
  set (w1 := set_inflight (inflight w ++ [(now w, c)])
               (set_issued (issued w + 1)
                  (set_rand_pos (Datatypes.S (rand_pos w)) w))).
  set (d := Qmax 0 (interval - (now w - now w))).
  assert (Hd : d == Qmax 0 interval).
  { subst d. assert (H : interval - (now w - now w) == interval) by ring.
    rewrite H. reflexivity. }
  assert (Htick : sustained_tick interval u w = sleep d w1) by reflexivity.
  exists c, w1, d, (settle (set_now (now w1 + Qmax 0 d) w1)).
  destruct (settle_keeps (set_now (now w1 + Qmax 0 d) w1))
    as (Hn & Hiss & Ho & _).
  split.
  { apply nth_In. change (List.length l) with 4%nat.
    apply Nat.mod_upper_bound. discriminate. }
  split; [reflexivity |]. split; [reflexivity |]. split; [reflexivity |].
  split; [reflexivity |]. split; [reflexivity |]. split; [reflexivity |].
  split; [reflexivity |]. split; [reflexivity |]. split; [exact Hd |].
  split; [reflexivity |]. split; [exact Htick |].
  split; [rewrite Hiss; reflexivity |]. split; [rewrite Ho; reflexivity |].
  intro Hneg. rewrite Hn. cbn [now set_now]. change (now w1) with (now w).
  rewrite Hd. rewrite (Q.max_l 0 interval) by exact Hneg.
  rewrite Q.max_l by apply Qle_refl. ring.
Qed.

(** ** Attacks without time *)

Lemma while_skip {S} fuel end_time (body : S -> M S) s w :
  end_time <= now w ->
  while (Datatypes.S fuel) (before end_time) body s w = (Return s, w).
Proof.
  intro H. cbn [while]. rewrite (bind_eq _ _ _ _ _ (before_eq end_time w)).
  assert (Hlt : Qltb (now w) end_time = false).
  { unfold Qltb. apply negb_false_iff, Qle_bool_iff, H. }
  rewrite Hlt. reflexivity.
Qed.

Lemma deadline_passed t duration :
  (duration <= 0)%Z -> t + inject_Z duration <= t.
Proof.
  intro H. assert (inject_Z duration <= 0)
    by (change 0 with (inject_Z 0); rewrite <- Zle_Qle; exact H).
  lra.
Qed.



(** ** [main] *)

Lemma main_runs_the_call fuel args t rnd txt net :
  snd (main fuel args t rnd txt net) =
  async_with (run_attack fuel (call_of_args args))
    (MachineGun_init (a_target args) t rnd txt net).
Proof.
  unfold main, call_of_args. cbn [snd].
  destruct (a_attack args); reflexivity.
Qed.

Lemma async_with_returns {A} (body : M A) w a w' :
  body (aenter w) = (Return a, w') -> async_with body w = (Return a, w').
Proof.
  intro H. unfold async_with.
  rewrite (bind_eq (modify aenter) _ w tt (aenter w) eq_refl).
  rewrite H. unfold aexit, bind, gets, ret.
  destruct (session w') as [[] |]; reflexivity.
Qed.

(** [print_stats] only adds lines to the output. *)
Lemma print_stats_extends w w' :
  print_stats w = (Return tt, w') ->
  exists rest, stdout w' = stdout w ++ rest.
Proof.
  intro H. destruct (response_times (stats w)) as [| x xs] eqn:Ex.
  - rewrite (print_stats_without_times w Ex) in H. inversion H; subst.
    eexists. reflexivity.
  - destruct (Z.eq_dec (total_requests (stats w)) 0) as [E0 | Hnz].
    + rewrite (print_stats_division_by_zero w x xs Ex E0) in H. discriminate.
    + rewrite <- (set_stdout_same w) in H at 1.
      rewrite (print_stats_with_times_at (stdout w) w x xs Ex Hnz) in H.
      inversion H; subst. cbn [stdout set_stdout]. eexists. reflexivity.
Qed.

(** The first line a Burst attack prints shows the interval it was called
    with. *)
Lemma burst_attack_start_line fuel burst_size interval duration w w' :
  inflight w = [] ->
  burst_attack fuel burst_size interval duration w = (Return tt, w') ->
  exists rest,
    stdout w' =
      stdout w ++ LBurstStart burst_size interval duration :: rest.
Proof.
  intros Hidle Hrun. unfold burst_attack in Hrun.
  rewrite (bind_eq (print _) _ w tt _ eq_refl) in Hrun.
  set (w1 := set_stdout
               (stdout w ++ [LBurstStart burst_size interval duration]) w)
    in *.
  rewrite (bind_eq time_time _ w1 (now w1) w1 eq_refl) in Hrun.
  apply bind_Return in Hrun. destruct Hrun as (u & wl & Hloop & Hrun).
  set (P := fun (_ : unit) v =>
              inflight v = [] /\ exists rest, stdout v = stdout w1 ++ rest).
  assert (Hinv : P u wl).
  { apply (while_invariant P (before (now w1 + inject_Z duration))
             (burst_tick burst_size interval))
      with (fuel := fuel) (s := tt) (w := w1); [| | | exact Hloop].
    - intros s v b v' HP Hc. inversion Hc; subst. exact HP.
    - intros s v s' v' (Hf & rest & Ho) Hb.
      destruct (burst_tick_effect burst_size interval s v Hf)
        as (tasks & v1 & Hrun1 & _ & _ & _ & _ & Hf1 & Ho1).
      rewrite Hrun1 in Hb. inversion Hb; subst.
      split; [exact Hf1 |]. exists (rest ++ [LFiring burst_size]).
      rewrite Ho1, Ho, app_assoc. reflexivity.
    - split; [exact Hidle |]. exists []. rewrite app_nil_r. reflexivity. }
  destruct Hinv as (_ & rest & Ho).
  destruct (print_stats_extends _ _ Hrun) as (rest' & Ho').
  exists (rest ++ rest'). rewrite Ho', Ho. subst w1. cbn [stdout set_stdout].
  rewrite <- !app_assoc. reflexivity.
Qed.



(** ** The response times, in order *)

Lemma make_request_response_time ep m kw r w :
  exists res w',
    make_request ep m kw r w = (Return res, w') /\
    session w' = session w /\
    Forall2 Qeq (response_times (stats w'))
      (response_times (stats w) ++
       if answered (session w) r then [time_to_response r] else []).
Proof.
  assert (Hrefl : forall l, Forall2 Qeq l l).
  { induction l; constructor; [reflexivity | assumption]. }
  mr_cases w r; do 2 eexists; (split; [reflexivity |]); cbn;
    (split; [reflexivity |]); rewrite ?app_nil_r; try apply Hrefl;
    (apply Forall2_app; [apply Hrefl | constructor; [ring | constructor]]).
Qed.

(** X23: the response times are kept in the order of the calls: after any
    sequence of awaited calls, [response_times] is the old list followed,
    for each answered call in turn, by the time its response took to
    arrive. *)
Theorem response_times_follow_the_calls calls : forall w,
  Forall2 Qeq
    (response_times (stats (snd (make_requests calls w))))
    (response_times (stats w) ++
     map time_to_response (answers (session w) calls)).
Proof.
  assert (Hrefl : forall l, Forall2 Qeq l l).
  { induction l; constructor; [reflexivity | assumption]. }
  assert (Htrans : forall l1 l2 l3,
             Forall2 Qeq l1 l2 -> Forall2 Qeq l2 l3 -> Forall2 Qeq l1 l3).
  { intros l1 l2 l3 H12. revert l3.
    induction H12 as [| x y l1 l2 Hxy _ IH]; intros l3 H23;
      inversion H23; subst; constructor.
    - eapply Qeq_trans; eassumption.
    - apply IH. assumption. }
  induction calls as [| [[[ep m] kw] r] calls IH]; intro w.
  - cbn. unfold answers. cbn. rewrite app_nil_r. apply Hrefl.
  - destruct (make_request_response_time ep m kw r w)
      as (res & w1 & Hrun & Hsess & Hrt).
    cbn [make_requests]. rewrite (bind_eq _ _ _ _ _ Hrun).
    eapply Htrans; [apply IH |].
    rewrite Hsess. unfold answers. cbn [map filter answer_of snd].
    destruct (answered (session w) r).
    + cbn [map]. change (time_to_response r :: ?l)
        with ([time_to_response r] ++ l).
      rewrite app_assoc. apply Forall2_app; [exact Hrt | apply Hrefl].
    + rewrite app_nil_r in Hrt. apply Forall2_app; [exact Hrt | apply Hrefl].
Qed.

(** * Properties of the target service *)

Lemma target_bind_eq {A B} (c : Target.T A) (k : A -> Target.T B) s a s1 :
  c s = (Target.Ok a, s1) -> Target.bind c k s = k a s1.
Proof. unfold Target.bind. intros ->. reflexivity. Qed.

Lemma target_bind_raised {A B} (c : Target.T A) (k : A -> Target.T B) s e s1 :
  c s = (Target.Raised e, s1) -> Target.bind c k s = (Target.Raised e, s1).
Proof. unfold Target.bind. intros ->. reflexivity. Qed.

(** ** [log_request] *)

Lemma log_request_up ep m rt sc s :
  Target.db_up s = true ->
  Target.log_request ep m rt sc s =
    (Target.Ok tt,
     Target.set_requests
       (Target.requests s ++
        [{| Target.row_id := Target.next_id s;
            Target.row_timestamp := Target.clock s;
            Target.row_endpoint := ep; Target.row_method := m;
            Target.row_response_time := rt; Target.row_status_code := sc;
            Target.row_user_agent := "MachineGun/1.0";
            Target.row_ip_address := "127.0.0.1" |}])
       (Target.next_id s + 1)%Z s).
Proof.
  intro Hup.
  unfold Target.log_request, Target.try_except, Target.with_connection,
    Target.bind, Target.gets. rewrite Hup. reflexivity.
Qed.

Lemma log_request_down ep m rt sc s :
  Target.db_up s = false ->
  Target.log_request ep m rt sc s =
    (Target.Ok tt,
     Target.set_output
       (Target.output s ++ [Target.FailedToLog Target.OperationalError]) s).
Proof.
  intro Hup.
  unfold Target.log_request, Target.try_except, Target.with_connection,
    Target.bind, Target.gets. rewrite Hup. reflexivity.
Qed.

Lemma log_request_frame ep m rt sc s :
  let s' := snd (Target.log_request ep m rt sc s) in
  Target.clock s' = Target.clock s /\ Target.db_up s' = Target.db_up s /\
  Target.redis_up s' = Target.redis_up s /\
  Target.tasks s' = Target.tasks s /\
  Target.random_pos s' = Target.random_pos s.
Proof.
  cbv zeta. destruct (Target.db_up s) eqn:Hup.
  - rewrite (log_request_up _ _ _ _ _ Hup). cbn. rewrite Hup. repeat split.
  - rewrite (log_request_down _ _ _ _ _ Hup). cbn. rewrite Hup. repeat split.
Qed.

(** What [log_request] does, with the database up and down. *)
Lemma log_request_effect ep m rt sc s :
  exists s',
    Target.log_request ep m rt sc s = (Target.Ok tt, s') /\
    Target.clock s' = Target.clock s /\ Target.tasks s' = Target.tasks s /\
    if Target.db_up s
    then (exists r,
            Target.requests s' = Target.requests s ++ [r] /\
            Target.logged r ep m rt sc /\
            Target.row_id r = Target.next_id s) /\
         Target.output s' = Target.output s
    else Target.requests s' = Target.requests s /\
         Target.output s' =
           Target.output s ++ [Target.FailedToLog Target.OperationalError].
Proof.
  destruct (Target.db_up s) eqn:Hup.
  - eexists. split; [apply log_request_up, Hup |]. cbn.
    split; [reflexivity |]. split; [reflexivity |].
    split; [| reflexivity].
    eexists. split; [reflexivity |]. split; [| reflexivity].
    unfold Target.logged. cbn. repeat split.
  - eexists. split; [apply log_request_down, Hup |]. cbn.
    repeat split.
Qed.

(** X14: [log_request] never raises. With the database up it appends
    exactly one row, carrying the endpoint, method, response time and
    status it was given, the user agent "MachineGun/1.0" and the address
    "127.0.0.1", and prints nothing; with the database down it leaves the
    table as it is and prints the failure. *)
Theorem log_request_swallows_failures ep m rt sc s :
  exists s',
    Target.log_request ep m rt sc s = (Target.Ok tt, s') /\
    Target.clock s' = Target.clock s /\ Target.tasks s' = Target.tasks s /\
    if Target.db_up s
    then (exists r,
            Target.requests s' = Target.requests s ++ [r] /\
            Target.logged r ep m rt sc /\
            Target.row_id r = Target.next_id s) /\
         Target.output s' = Target.output s
    else Target.requests s' = Target.requests s /\
         Target.output s' =
           Target.output s ++ [Target.FailedToLog Target.OperationalError].
Proof. exact (log_request_effect ep m rt sc s). Qed.

(** ** [cpu_intensive] *)

Lemma fold_left_add_shift l : forall a,
  fold_left Z.add l a = (a + fold_left Z.add l 0)%Z.
Proof.
  induction l as [| x l IH]; intro a; cbn [fold_left].
  - lia.
  - rewrite IH, (IH (0 + x)%Z). lia.
Qed.

Lemma sum_of_squares_nat k :
  (6 * Target.sum_int (map (fun i => i * i) (map Z.of_nat (seq 0 k))) =
   (Z.of_nat k - 1) * Z.of_nat k * (2 * Z.of_nat k - 1))%Z.
Proof.
  unfold Target.sum_int. induction k as [| k IH].
  - reflexivity.
  - rewrite seq_S, !map_app, fold_left_app. cbn [map fold_left Nat.add].
    rewrite Nat2Z.inj_succ. nia.
Qed.

Lemma sum_of_squares n :
  (6 * Target.sum_int (map (fun i => i * i) (Target.range n)) =
   (Z.max 0 n - 1) * Z.max 0 n * (2 * Z.max 0 n - 1))%Z.
Proof.
  unfold Target.range. rewrite sum_of_squares_nat.
  replace (Z.of_nat (Z.to_nat n)) with (Z.max 0 n) by lia. reflexivity.
Qed.

(** X15: [cpu_intensive] never raises, whatever [n] and whether or not the
    database is up. Its result is the sum of the squares below [n], that is
    [(n - 1) n (2 n - 1) / 6], and 0 when [n <= 0]; the computation time it
    reports is the time the sum took, and the clock is the only thing it
    changes besides the log. *)
Theorem cpu_intensive_sums_squares n busy s :
  exists res s',
    Target.cpu_intensive n busy s = (Target.Ok res, s') /\
    Target.cpu_n res = n /\
    (6 * Target.cpu_result res =
     (Z.max 0 n - 1) * Z.max 0 n * (2 * Z.max 0 n - 1))%Z /\
    Target.cpu_computation_time res == busy /\
    Target.clock s' = Target.clock s + busy /\
    Target.tasks s' = Target.tasks s.
Proof.
  unfold Target.cpu_intensive.
  rewrite (target_bind_eq Target.time_time _ s (Target.clock s) s eq_refl).
  set (s1 := Target.set_clock (Target.clock s + busy) s).
  rewrite (target_bind_eq (Target.pass busy) _ s tt s1 eq_refl).
  rewrite (target_bind_eq Target.time_time _ s1 (Target.clock s1) s1 eq_refl).
  destruct (log_request_effect "/cpu-intensive" "GET"
              (Target.clock s1 - Target.clock s) 200 s1)
    as (s2 & Hlog & Hclock & Htasks & _).
  rewrite (target_bind_eq _ _ _ _ _ Hlog).
  do 2 eexists. split; [reflexivity |]. cbn.
  split; [reflexivity |]. split; [apply sum_of_squares |].
  split; [ring |]. split; [exact Hclock | exact Htasks].
Qed.

(** ** [memory_intensive] *)

Lemma random_random_range s :
  exists x,
    Target.random_random s =
      (Target.Ok x, Target.set_random_pos (S (Target.random_pos s)) s) /\
    0 <= x /\ x <= 999 # 1000.
Proof.
  eexists. split; [reflexivity |].
  assert (H : (Target.randoms s (Target.random_pos s) mod 1000 < 1000)%nat)
    by (apply Nat.mod_upper_bound; discriminate).
  unfold Qle. cbn [Qnum Qden]. split; lia.
Qed.

Lemma draws_in_range k : forall data s,
  exists new,
    Target.for_times k Target.draw_float data s =
      (Target.Ok (data ++ new),
       Target.set_random_pos (k + Target.random_pos s)%nat s) /\
    List.length new = k /\
    Forall (fun x => 0 <= x /\ x <= 999 # 1000) new.
Proof.
  induction k as [| k IH]; intros data s.
  - exists []. cbn. rewrite app_nil_r. destruct s.
    split; [reflexivity |]. split; [reflexivity | constructor].
  - destruct (random_random_range s) as (x & Hx & Hlo & Hhi).
    destruct (IH (data ++ [x])
                (Target.set_random_pos (S (Target.random_pos s)) s))
      as (new & Hrun & Hlen & Hall).
    assert (Hdraw : Target.draw_float data s =
                    (Target.Ok (data ++ [x]),
                     Target.set_random_pos (S (Target.random_pos s)) s)).
    { unfold Target.draw_float. rewrite (target_bind_eq _ _ _ _ _ Hx).
      reflexivity. }
    exists (x :: new). cbn [Target.for_times].
    rewrite (target_bind_eq _ _ _ _ _ Hdraw).
    rewrite Hrun, <- app_assoc. cbn [app Target.random_pos Target.set_random_pos].
    split.
    + f_equal. destruct s. unfold Target.set_random_pos. cbn.
      f_equal. lia.
    + split; [cbn; lia |]. constructor; [split; assumption | exact Hall].
Qed.

Lemma sum_float_bounds l : forall a,
  Forall (fun x => 0 <= x /\ x <= 999 # 1000) l ->
  a <= fold_left Qplus l a /\
  fold_left Qplus l a <= a + inject_Z (len l) * (999 # 1000).
Proof.
  induction l as [| x l IH]; intros a Hall; cbn [fold_left].
  - unfold len. cbn. change (inject_Z 0) with 0. split; lra.
  - inversion Hall as [| y l' [Hlo Hhi] Hrest]; subst.
    destruct (IH (a + x) Hrest) as [H1 H2].
    rewrite len_cons. split; lra.
Qed.

(** The list that the comprehension of [memory_intensive] builds is made
    of the next draws of the generator, in order. *)
Lemma draws_are_next_floats k : forall data s,
  Target.for_times k Target.draw_float data s =
    (Target.Ok (data ++ Target.next_floats s k),
     Target.set_random_pos (k + Target.random_pos s)%nat s).
Proof.
  induction k as [| k IH]; intros data s.
  - cbn. rewrite app_nil_r. destruct s. reflexivity.
  - cbn [Target.for_times].
    assert (Hdraw : Target.draw_float data s =
              (Target.Ok (data ++ [Z.of_nat
                 (Target.randoms s (Target.random_pos s) mod 1000) # 1000]),
               Target.set_random_pos (S (Target.random_pos s)) s))
      by reflexivity.
    rewrite (target_bind_eq _ _ _ _ _ Hdraw), IH, <- app_assoc.
    unfold Target.next_floats.
    cbn [app seq map Target.random_pos Target.randoms Target.set_random_pos].
    f_equal. destruct s. unfold Target.set_random_pos. cbn.
    f_equal. lia.
Qed.

(** X16: [memory_intensive] allocates [131072 * size_mb] random floats, the
    next draws of the generator. For [size_mb >= 1] it returns their
    average, the sum of the list divided by its length, a number of
    [[0, 1)]. For [size_mb <= 0] the list is empty and the handler raises
    [ZeroDivisionError] at [sum(data) / len(data)], before it logs
    anything. *)
Theorem memory_intensive_average size_mb busy s :
  if (0 <? size_mb)%Z then
    exists res s',
      Target.memory_intensive size_mb busy s = (Target.Ok res, s') /\
      (exists data,
         data = Target.next_floats s (Z.to_nat (131072 * size_mb)) /\
         len data = (131072 * size_mb)%Z /\
         Target.mem_average res =
           Target.sum_float data / inject_Z (len data)) /\
      0 <= Target.mem_average res /\ Target.mem_average res < 1 /\
      Target.mem_size_mb res = size_mb /\
      Target.random_pos s' =
        (Z.to_nat (131072 * size_mb) + Target.random_pos s)%nat
  else
    Target.memory_intensive size_mb busy s =
      (Target.Raised Target.ZeroDivisionError,
       Target.set_clock (Target.clock s + busy) s).
Proof.
  unfold Target.memory_intensive.
  rewrite (target_bind_eq Target.time_time _ s (Target.clock s) s eq_refl).
  set (k := Z.to_nat (size_mb * 1024 * 1024 / 8)).
  destruct (draws_in_range k [] s) as (data & Hrun & Hlen & Hall).
  cbn [app] in Hrun.
  assert (Hdata : data = Target.next_floats s k).
  { pose proof (draws_are_next_floats k [] s) as Hnext.
    cbn [app] in Hnext. rewrite Hrun in Hnext. inversion Hnext. reflexivity. }
  rewrite (target_bind_eq _ _ _ _ _ Hrun).
  set (s1 := Target.set_random_pos (k + Target.random_pos s) s) in *.
  set (s2 := Target.set_clock (Target.clock s1 + busy) s1).
  rewrite (target_bind_eq (Target.pass busy) _ s1 tt s2 eq_refl).
  destruct (Z.ltb_spec 0 size_mb) as [Hpos | Hneg].
  - assert (Hk : k = Z.to_nat (131072 * size_mb)).
    { subst k. f_equal.
      replace (size_mb * 1024 * 1024)%Z with (131072 * size_mb * 8)%Z by lia.
      apply Z.div_mul. lia. }
    assert (Hlen' : (1 <= len data)%Z) by (unfold len; lia).
    assert (Hq : 1 <= inject_Z (len data)).
    { change 1 with (inject_Z 1). rewrite <- Zle_Qle. exact Hlen'. }
    assert (Hnz : Qeq_bool (inject_Z (len data)) 0 = false).
    { destruct (Qeq_bool _ 0) eqn:E; [| reflexivity].
      apply Qeq_bool_iff in E. lra. }
    unfold Target.truediv. rewrite Hnz.
    rewrite (target_bind_eq (Target.ret _) _ s2 _ s2 eq_refl).
    rewrite (target_bind_eq Target.time_time _ s2 (Target.clock s2) s2 eq_refl).
    destruct (log_request_effect "/memory-intensive" "GET"
                (Target.clock s2 - Target.clock s) 200 s2)
      as (s3 & Hlog & _ & _ & _).
    assert (Hpos3 : Target.random_pos s3 = Target.random_pos s2).
    { destruct (Target.db_up s2) eqn:Hup.
      - rewrite (log_request_up _ _ _ _ _ Hup) in Hlog.
        inversion Hlog. reflexivity.
      - rewrite (log_request_down _ _ _ _ _ Hup) in Hlog.
        inversion Hlog. reflexivity. }
    rewrite (target_bind_eq _ _ _ _ _ Hlog).
    do 2 eexists. split; [reflexivity |]. cbn [Target.mem_average Target.mem_size_mb].
    split.
    { exists data. split; [rewrite <- Hk; exact Hdata |].
      split; [unfold len; lia | reflexivity]. }
    destruct (sum_float_bounds data 0 Hall) as [Hlo Hhi].
    unfold Target.sum_float.
    split; [apply Qle_shift_div_l; lra |].
    split; [apply Qlt_shift_div_r; lra |].
    split; [reflexivity |]. rewrite Hpos3, <- Hk. reflexivity.
  - assert (Hk : k = O).
    { subst k. assert (size_mb * 1024 * 1024 / 8 <= 0)%Z; [| lia].
      apply Z.div_le_upper_bound; lia. }
    assert (Hempty : data = [])
      by (destruct data; [reflexivity | cbn in Hlen; lia]).
    clear Hdata. subst data. subst s2 s1. rewrite Hk. cbn [Nat.add].
    unfold Target.bind, Target.truediv. cbn.
    destruct s. reflexivity.
Qed.

(** ** [database_heavy] *)

Lemma count_queries k : forall results s,
  Target.for_times k Target.count_query results s =
    (Target.Ok (results ++ repeat (len (Target.requests s)) k), s).
Proof.
  induction k as [| k IH]; intros results s; cbn [Target.for_times repeat].
  - rewrite app_nil_r. reflexivity.
  - rewrite (target_bind_eq (Target.count_query results) _ s
               (results ++ [len (Target.requests s)]) s eq_refl).
    rewrite IH, <- app_assoc. reflexivity.
Qed.

Lemma sum_int_repeat c k :
  Target.sum_int (repeat c k) = (Z.of_nat k * c)%Z.
Proof.
  unfold Target.sum_int. induction k as [| k IH]; [reflexivity |].
  cbn [repeat fold_left]. rewrite fold_left_add_shift, IH. lia.
Qed.

(** X17: with the database up, [database_heavy] returns; the field it
    calls [total_requests] is not the number of rows but that number times
    the number of queries run ([queries], or none when [queries <= 0]), as
    it sums the result of every [COUNT] query; it then logs one row for
    itself. With the database down it raises at its own connection,
    logging and printing nothing. *)
Theorem database_heavy_sums_counts queries busy s :
  if Target.db_up s then
    exists res s' r,
      Target.database_heavy queries busy s = (Target.Ok res, s') /\
      Target.db_query_count res = queries /\
      Target.db_total_requests res =
        (Z.max 0 queries * len (Target.requests s))%Z /\
      Target.requests s' = Target.requests s ++ [r] /\
      Target.logged r "/database-heavy" "GET" (Target.db_response_time res)
        200
  else
    Target.database_heavy queries busy s =
      (Target.Raised Target.OperationalError, s).
Proof.
  unfold Target.database_heavy.
  rewrite (target_bind_eq Target.time_time _ s (Target.clock s) s eq_refl).
  destruct (Target.db_up s) eqn:Hup.
  - assert (Hq : Target.with_connection
                   (Target.for_times (Z.to_nat queries) Target.count_query [])
                   s
                 = (Target.Ok (repeat (len (Target.requests s))
                                 (Z.to_nat queries)), s)).
    { unfold Target.with_connection.
      rewrite (target_bind_eq (Target.gets Target.db_up) _ s true s)
        by (unfold Target.gets; rewrite Hup; reflexivity).
      apply count_queries. }
    rewrite (target_bind_eq _ _ _ _ _ Hq).
    set (s1 := Target.set_clock (Target.clock s + busy) s).
    rewrite (target_bind_eq (Target.pass busy) _ s tt s1 eq_refl).
    rewrite (target_bind_eq Target.time_time _ s1 (Target.clock s1) s1 eq_refl).
    assert (Hup1 : Target.db_up s1 = true) by exact Hup.
    rewrite (target_bind_eq _ _ _ _ _ (log_request_up _ _ _ _ s1 Hup1)).
    do 3 eexists. split; [reflexivity |]. cbn.
    split; [reflexivity |].
    split; [rewrite sum_int_repeat; lia |].
    split; [reflexivity |]. unfold Target.logged. cbn. repeat split.
  - apply target_bind_raised. unfold Target.with_connection.
    rewrite (target_bind_eq (Target.gets Target.db_up) _ s false s)
      by (unfold Target.gets; rewrite Hup; reflexivity).
    reflexivity.
Qed.

(** ** [queue_task] *)

(** What [queue_task] does, with Redis up and down. *)
Lemma queue_task_effect data busy s :
  if Target.redis_up s then
    exists res s' t,
      Target.queue_task data busy s = (Target.Ok res, s') /\
      Target.queue_queued res = true /\
      Target.queue_task_id res = int_of_float (Target.clock s * 1000) /\
      Target.tasks s' = t :: Target.tasks s /\
      Target.task_id t = Target.queue_task_id res /\
      Target.task_data t = data /\
      Target.task_created_at t = Target.clock s /\
      Target.clock s' = Target.clock s + busy /\
      Target.redis_up s' = true
  else
    Target.queue_task data busy s = (Target.Raised Target.ConnectionError, s).
Proof.
  unfold Target.queue_task.
  rewrite !(target_bind_eq Target.time_time _ s (Target.clock s) s eq_refl).
  destruct (Target.redis_up s) eqn:Hup.
  - set (t := {| Target.task_id := int_of_float (Target.clock s * 1000);
                 Target.task_data := data;
                 Target.task_created_at := Target.clock s |}).
    set (s0 := Target.set_tasks (t :: Target.tasks s) s).
    assert (Hpush : Target.lpush_tasks t s = (Target.Ok tt, s0)).
    { unfold Target.lpush_tasks.
      rewrite (target_bind_eq (Target.gets Target.redis_up) _ s true s)
        by (unfold Target.gets; rewrite Hup; reflexivity).
      reflexivity. }
    rewrite (target_bind_eq _ _ _ _ _ Hpush).
    set (s1 := Target.set_clock (Target.clock s0 + busy) s0).
    rewrite (target_bind_eq (Target.pass busy) _ s0 tt s1 eq_refl).
    rewrite (target_bind_eq Target.time_time _ s1 (Target.clock s1) s1 eq_refl).
    destruct (log_request_effect "/queue-task" "POST"
                (Target.clock s1 - Target.clock s) 200 s1)
      as (s2 & Hlog & _ & _ & _).
    destruct (log_request_frame "/queue-task" "POST"
                (Target.clock s1 - Target.clock s) 200 s1)
      as (Hclock & _ & Hredis & Htasks & _).
    rewrite Hlog in Hclock, Hredis, Htasks. cbn [snd] in Hclock, Hredis, Htasks.
    rewrite (target_bind_eq _ _ _ _ _ Hlog).
    exists {| Target.queue_task_id := int_of_float (Target.clock s * 1000);
              Target.queue_queued := true;
              Target.queue_response_time := Target.clock s1 - Target.clock s |},
      s2, t.
    split; [reflexivity |]. cbn. rewrite Htasks, Hclock, Hredis.
    cbn. rewrite Hup. repeat split.
  - apply target_bind_raised. unfold Target.lpush_tasks.
    rewrite (target_bind_eq (Target.gets Target.redis_up) _ s false s)
      by (unfold Target.gets; rewrite Hup; reflexivity).
    reflexivity.
Qed.

(** X18: with Redis up, [queue_task] pushes exactly one task at the head
    of the list [tasks], with the data it was given and an id made of the
    clock in milliseconds, and answers [queued: True] with the same id;
    with Redis down it raises at [lpush], leaving the list and the table
    as they were. *)
Theorem queue_task_pushes_one data busy s :
  if Target.redis_up s then
    exists res s' t,
      Target.queue_task data busy s = (Target.Ok res, s') /\
      Target.queue_queued res = true /\
      Target.queue_task_id res = int_of_float (Target.clock s * 1000) /\
      Target.tasks s' = t :: Target.tasks s /\
      Target.task_id t = Target.queue_task_id res /\
      Target.task_data t = data /\
      Target.task_created_at t = Target.clock s /\
      Target.clock s' = Target.clock s + busy /\
      Target.redis_up s' = true
  else
    Target.queue_task data busy s = (Target.Raised Target.ConnectionError, s).
Proof. exact (queue_task_effect data busy s). Qed.

(** X19: task ids are not unique: two tasks queued within the same
    millisecond of the clock get the same id, and both are in the list. *)
Theorem queue_task_ids_collide data1 data2 busy1 busy2 s :
  Target.redis_up s = true ->
  int_of_float ((Target.clock s + busy1) * 1000)
    = int_of_float (Target.clock s * 1000) ->
  exists res1 s1 res2 s2 t1 t2,
    Target.queue_task data1 busy1 s = (Target.Ok res1, s1) /\
    Target.queue_task data2 busy2 s1 = (Target.Ok res2, s2) /\
    Target.queue_task_id res1 = Target.queue_task_id res2 /\
    Target.tasks s2 = t2 :: t1 :: Target.tasks s /\
    Target.task_id t1 = Target.task_id t2 /\
    Target.task_data t1 = data1 /\ Target.task_data t2 = data2.
Proof.
  intros Hup Hms.
  pose proof (queue_task_effect data1 busy1 s) as H1.
  rewrite Hup in H1.
  destruct H1 as (res1 & s1 & t1 & Hrun1 & _ & Hid1 & Ht1 & Htid1 & Hd1 & _
                  & Hclock1 & Hup1).
  pose proof (queue_task_effect data2 busy2 s1) as H2.
  rewrite Hup1 in H2.
  destruct H2 as (res2 & s2 & t2 & Hrun2 & _ & Hid2 & Ht2 & Htid2 & Hd2 & _).
  exists res1, s1, res2, s2, t1, t2.
  split; [exact Hrun1 |]. split; [exact Hrun2 |].
  assert (Hsame : Target.queue_task_id res1 = Target.queue_task_id res2).
  { rewrite Hid1, Hid2, Hclock1, Hms. reflexivity. }
  split; [exact Hsame |]. split; [rewrite Ht2, Ht1; reflexivity |].
  split; [congruence |]. split; assumption.
Qed.

Lemma queue_task_ids_collide_witness :
  Target.redis_up Target.example_server = true /\
  int_of_float ((Target.clock Target.example_server + (1 # 10000)) * 1000)
    = int_of_float (Target.clock Target.example_server * 1000) /\
  exists res1 s1 res2 s2 t1 t2,
    Target.queue_task [("task", JStr "a")] (1 # 10000) Target.example_server
      = (Target.Ok res1, s1) /\
    Target.queue_task [("task", JStr "b")] (1 # 10000) s1
      = (Target.Ok res2, s2) /\
    Target.queue_task_id res1 = Target.queue_task_id res2 /\
    Target.tasks s2 = t2 :: t1 :: Target.tasks Target.example_server /\
    Target.task_id t1 = Target.task_id t2 /\
    Target.task_data t1 = [("task", JStr "a")] /\
    Target.task_data t2 = [("task", JStr "b")].
Proof.
  split; [reflexivity |]. split; [reflexivity |].
  apply queue_task_ids_collide; reflexivity.
Defined.

(** ** [error_prone] *)

Lemma Qltb_spec a b : if Qltb a b then a < b else b <= a.
Proof.
  destruct (Qltb a b) eqn:E; [apply Qltb_true, E | apply Qltb_false, E].
Qed.

(** X20: [error_prone] fails exactly when its random draw is below
    [error_rate]: it then logs a row with status 500 and raises
    [HTTPException(500)]; otherwise it logs a row with status 200 and
    answers [success: True]. Hence it never fails with [error_rate <= 0]
    and always fails with [error_rate >= 1]. *)
Theorem error_prone_fails_below_rate error_rate busy s :
  let x := Z.of_nat (Target.randoms s (Target.random_pos s) mod 1000) # 1000 in
  exists o s',
    Target.error_prone error_rate busy s = (o, s') /\
    (if Qltb x error_rate
     then o = Target.Raised (Target.HTTPException 500 "Random error occurred")
     else exists res, o = Target.Ok res /\ Target.ep_success res = true /\
                      Target.ep_error_rate res = error_rate) /\
    (if Target.db_up s
     then exists r,
            Target.requests s' = Target.requests s ++ [r] /\
            Target.row_endpoint r = "/error-prone" /\
            Target.row_status_code r =
              (if Qltb x error_rate then 500 else 200)%Z
     else Target.requests s' = Target.requests s) /\
    (error_rate <= 0 -> Qltb x error_rate = false) /\
    (1 <= error_rate -> Qltb x error_rate = true).
Proof.
  intro x. unfold Target.error_prone.
  rewrite (target_bind_eq Target.time_time _ s (Target.clock s) s eq_refl).
  set (s0 := Target.set_random_pos (S (Target.random_pos s)) s).
  rewrite (target_bind_eq Target.random_random _ s x s0 eq_refl).
  set (s1 := Target.set_clock (Target.clock s0 + busy) s0).
  rewrite (target_bind_eq (Target.pass busy) _ s0 tt s1 eq_refl).
  assert (Hx : 0 <= x /\ x <= 999 # 1000).
  { assert (H : (Target.randoms s (Target.random_pos s) mod 1000 < 1000)%nat)
      by (apply Nat.mod_upper_bound; discriminate).
    subst x. unfold Qle. cbn [Qnum Qden]. split; lia. }
  assert (Hbounds : (error_rate <= 0 -> Qltb x error_rate = false) /\
                    (1 <= error_rate -> Qltb x error_rate = true)).
  { pose proof (Qltb_spec x error_rate) as Hs.
    destruct (Qltb x error_rate); split; intro H; try reflexivity; lra. }
  destruct (Qltb x error_rate) eqn:Hfail.
  - rewrite (target_bind_eq Target.time_time _ s1 (Target.clock s1) s1 eq_refl).
    destruct (Target.db_up s) eqn:Hup.
    + assert (Hup1 : Target.db_up s1 = true) by exact Hup.
      rewrite (target_bind_eq _ _ _ _ _ (log_request_up _ _ _ _ s1 Hup1)).
      do 2 eexists. split; [reflexivity |]. split; [reflexivity |].
      split; [| exact Hbounds].
      eexists. split; [reflexivity |]. split; reflexivity.
    + assert (Hup1 : Target.db_up s1 = false) by exact Hup.
      rewrite (target_bind_eq _ _ _ _ _ (log_request_down _ _ _ _ s1 Hup1)).
      do 2 eexists. split; [reflexivity |]. split; [reflexivity |].
      split; [reflexivity | exact Hbounds].
  - rewrite (target_bind_eq Target.time_time _ s1 (Target.clock s1) s1 eq_refl).
    destruct (Target.db_up s) eqn:Hup.
    + assert (Hup1 : Target.db_up s1 = true) by exact Hup.
      rewrite (target_bind_eq _ _ _ _ _ (log_request_up _ _ _ _ s1 Hup1)).
      do 2 eexists. split; [reflexivity |].
      split; [eexists; split; [reflexivity | split; reflexivity] |].
      split; [| exact Hbounds].
      eexists. split; [reflexivity |]. split; reflexivity.
    + assert (Hup1 : Target.db_up s1 = false) by exact Hup.
      rewrite (target_bind_eq _ _ _ _ _ (log_request_down _ _ _ _ s1 Hup1)).
      do 2 eexists. split; [reflexivity |].
      split; [eexists; split; [reflexivity | split; reflexivity] |].
      split; [reflexivity | exact Hbounds].
Qed.

(** ** [stats] *)

Lemma with_connection_up {A} (body : Target.T A) s :
  Target.db_up s = true -> Target.with_connection body s = body s.
Proof.
  intro Hup. unfold Target.with_connection, Target.bind, Target.gets.
  rewrite Hup. reflexivity.
Qed.

Lemma with_connection_down {A} (body : Target.T A) s :
  Target.db_up s = false ->
  Target.with_connection body s = (Target.Raised Target.OperationalError, s).
Proof.
  intro Hup. unfold Target.with_connection, Target.bind, Target.gets.
  rewrite Hup. reflexivity.
Qed.

Lemma error_rows_le l :
  (0 <= len (Target.error_rows l) <= len l)%Z.
Proof.
  unfold Target.error_rows, len.
  pose proof (filter_length_le (fun r => (400 <=? Target.row_status_code r)%Z) l).
  lia.
Qed.

(** What the [stats] handler answers. *)
Lemma stats_endpoint_effect s :
  if Target.db_up s then
    exists res,
      Target.stats_endpoint s = (Target.Ok res, s) /\
      Target.st_total_requests res = len (Target.requests s) /\
      Target.st_error_count res = len (Target.error_rows (Target.requests s)) /\
      0 <= Target.st_error_rate res /\ Target.st_error_rate res <= 1 /\
      match Target.requests s with
      | [] => Target.st_error_rate res = 0 /\
              Target.st_average_response_time res = 0
      | _ :: _ =>
          Target.st_error_rate res =
            inject_Z (Target.st_error_count res)
            / inject_Z (Target.st_total_requests res)
      end
  else
    Target.stats_endpoint s = (Target.Raised Target.OperationalError, s).
Proof.
  unfold Target.stats_endpoint.
  destruct (Target.db_up s) eqn:Hup.
  - set (avg := match Target.requests s with
                | [] => None
                | _ :: _ =>
                    Some (fold_right Qplus 0
                            (map Target.row_response_time (Target.requests s))
                          / inject_Z (len (Target.requests s)))
                end).
    rewrite (target_bind_eq _ _ s
               (len (Target.requests s), avg,
                len (Target.error_rows (Target.requests s))) s)
      by (rewrite (with_connection_up _ _ Hup); reflexivity).
    cbv beta iota.
    pose proof (error_rows_le (Target.requests s)) as Hle.
    destruct (Z.gtb_spec (len (Target.requests s)) 0) as [Hpos | Hzero].
    + assert (Hq : 0 < inject_Z (len (Target.requests s))).
      { change 0 with (inject_Z 0). rewrite <- Zlt_Qlt. lia. }
      assert (Hnz : Qeq_bool (inject_Z (len (Target.requests s))) 0 = false).
      { destruct (Qeq_bool _ 0) eqn:E; [| reflexivity].
        apply Qeq_bool_iff in E. lra. }
      unfold Target.truediv. rewrite Hnz.
      rewrite (target_bind_eq (Target.ret _) _ s _ s eq_refl).
      eexists. split; [reflexivity |].
      cbn [Target.st_total_requests Target.st_error_count
           Target.st_error_rate Target.st_average_response_time].
      split; [reflexivity |]. split; [reflexivity |].
      assert (H0 : 0 <= inject_Z (len (Target.error_rows (Target.requests s)))).
      { change 0 with (inject_Z 0). rewrite <- Zle_Qle. lia. }
      assert (H1 : inject_Z (len (Target.error_rows (Target.requests s)))
                   <= inject_Z (len (Target.requests s))).
      { rewrite <- Zle_Qle. lia. }
      split; [apply Qle_shift_div_l; lra |].
      split; [apply Qle_shift_div_r; lra |].
      destruct (Target.requests s) as [| r rows];
        [unfold len in Hpos; cbn in Hpos; lia | reflexivity].
    + rewrite (target_bind_eq (Target.ret 0) _ s 0 s eq_refl).
      eexists. split; [reflexivity |].
      cbn [Target.st_total_requests Target.st_error_count
           Target.st_error_rate Target.st_average_response_time].
      split; [reflexivity |]. split; [reflexivity |].
      split; [lra |]. split; [lra |].
      subst avg.
      destruct (Target.requests s) as [| r rows];
        [split; reflexivity | unfold len in Hzero; cbn [List.length] in Hzero; lia].
  - apply target_bind_raised, with_connection_down, Hup.
Qed.

(** X21: with the database up, the [stats] handler never raises and
    changes nothing. It reports the number of rows, the number of rows with
    a status of 400 or more, and an error rate that is their quotient,
    between 0 and 1; on an empty table it reports zeros instead of dividing
    by zero. With the database down it raises. *)
Theorem stats_endpoint_reports s :
  if Target.db_up s then
    exists res,
      Target.stats_endpoint s = (Target.Ok res, s) /\
      Target.st_total_requests res = len (Target.requests s) /\
      Target.st_error_count res = len (Target.error_rows (Target.requests s)) /\
      0 <= Target.st_error_rate res /\ Target.st_error_rate res <= 1 /\
      match Target.requests s with
      | [] => Target.st_error_rate res = 0 /\
              Target.st_average_response_time res = 0
      | _ :: _ =>
          Target.st_error_rate res =
            inject_Z (Target.st_error_count res)
            / inject_Z (Target.st_total_requests res)
      end
  else
    Target.stats_endpoint s = (Target.Raised Target.OperationalError, s).
Proof. exact (stats_endpoint_effect s). Qed.

(** ** [log_request] and [stats] together *)

Lemma log_all_rows calls : forall s,
  Target.db_up s = true ->
  exists rows s',
    Target.log_all calls s = (Target.Ok tt, s') /\
    Target.db_up s' = true /\
    Target.requests s' = Target.requests s ++ rows /\
    len rows = len calls /\
    len (Target.error_rows rows) = len (Target.error_calls calls).
Proof.
  induction calls as [| [[[ep m] rt] sc] calls IH]; intros s Hup.
  - exists [], s. cbn. rewrite app_nil_r. repeat split. exact Hup.
  - pose proof (log_request_up ep m rt sc s Hup) as Hlog.
    set (r := {| Target.row_id := Target.next_id s;
                 Target.row_timestamp := Target.clock s;
                 Target.row_endpoint := ep; Target.row_method := m;
                 Target.row_response_time := rt;
                 Target.row_status_code := sc;
                 Target.row_user_agent := "MachineGun/1.0";
                 Target.row_ip_address := "127.0.0.1" |}) in *.
    set (s1 := Target.set_requests (Target.requests s ++ [r])
                 (Target.next_id s + 1)%Z s) in *.
    destruct (IH s1 Hup) as (rows & s' & Hrun & Hup' & Hreq & Hlen & Herr).
    exists (r :: rows), s'. cbn [Target.log_all].
    rewrite (target_bind_eq _ _ _ _ _ Hlog).
    split; [exact Hrun |]. split; [exact Hup' |].
    split; [rewrite Hreq; subst s1; cbn; rewrite <- app_assoc; reflexivity |].
    unfold len in *. cbn [List.length].
    split; [lia |].
    unfold Target.error_rows, Target.error_calls in *. cbn [filter snd].
    change (Target.row_status_code r) with sc.
    destruct (400 <=? sc)%Z; cbn [List.length]; lia.
Qed.

(** X22: what [log_request] logs is what [stats] counts: with the database
    up, after any sequence of [log_request] calls the [stats] handler
    reports as many more requests as there were calls, and as many more
    errors as there were calls with a status of 400 or more. *)
Theorem stats_counts_logged_requests calls s :
  Target.db_up s = true ->
  exists s' before after,
    Target.stats_endpoint s = (Target.Ok before, s) /\
    Target.log_all calls s = (Target.Ok tt, s') /\
    Target.stats_endpoint s' = (Target.Ok after, s') /\
    Target.st_total_requests after =
      (Target.st_total_requests before + len calls)%Z /\
    Target.st_error_count after =
      (Target.st_error_count before + len (Target.error_calls calls))%Z.
Proof.
  intro Hup.
  destruct (log_all_rows calls s Hup)
    as (rows & s' & Hrun & Hup' & Hreq & Hlen & Herr).
  pose proof (stats_endpoint_effect s) as Hb. rewrite Hup in Hb.
  destruct Hb as (before & Hbrun & Hbt & Hbe & _).
  pose proof (stats_endpoint_effect s') as Ha. rewrite Hup' in Ha.
  destruct Ha as (after & Harun & Hat & Hae & _).
  exists s', before, after.
  split; [exact Hbrun |]. split; [exact Hrun |]. split; [exact Harun |].
  rewrite Hat, Hae, Hbt, Hbe, Hreq.
  unfold Target.error_rows in *. rewrite filter_app.
  unfold len in *. rewrite !length_app. split; lia.
Qed.

Lemma stats_counts_logged_requests_witness :
  let calls := [("/cpu-intensive", "GET", 1 # 2, 200%Z);
                ("/error-prone", "GET", 1 # 100, 500%Z);
                ("/queue-task", "POST", 1 # 50, 200%Z)] in
  Target.db_up Target.example_server = true /\
  exists s' before after,
    Target.stats_endpoint Target.example_server
      = (Target.Ok before, Target.example_server) /\
    Target.log_all calls Target.example_server = (Target.Ok tt, s') /\
    Target.stats_endpoint s' = (Target.Ok after, s') /\
    Target.st_total_requests after =
      (Target.st_total_requests before + len calls)%Z /\
    Target.st_error_count after =
      (Target.st_error_count before + len (Target.error_calls calls))%Z.
Proof.
  cbv zeta. split; [reflexivity |].
  apply stats_counts_logged_requests. reflexivity.
Defined.
